(** * Trend scraper: keyword scoring, seasonal fallback and the
      merge / dedup / rank / aggregate pass of [TrendScraper.collect]

    Shallow embedding of [src/scraper.py].

    Conventions of the embedding.
    - A Python [str] is a [string]; a character is a code point below 256,
      so [ascii] is read as Latin-1.  [isspace], [lower], [strip] and
      [split] follow CPython on that range.  Beyond it [str.lower] can
      lengthen a string (U+0130 becomes two code points); a statement that
      needs the lengths to agree says so in a hypothesis.
    - A Python [int] is a [Z]; [len] is a [nat].
    - A record dict [{keyword, popularity, category, source}] is the record
      [TrendRecord].  Every producer fills [category] from [_categorize],
      whose range is a closed set of eight names: the field is an
      inductive type.
    - The insertion-ordered dicts [unique] and [categories] are association
      lists in insertion order; assignment to an existing key keeps its
      position, as in Python.
    - [random.randint] draws and the clock are inputs.
    - The thread pool is seen through what the loop over [as_completed]
      observes: the futures it yields, in completion order, and whether the
      iterator then raises because the global timeout expired.  [collect]
      is embedded for a positive [max_workers], as at its two call sites
      (3, also the default); [ThreadPoolExecutor] refuses any other with a
      ValueError.  A future raises an exception of class [Exception]: the
      adapters raise no other. *)

From Stdlib Require Import Bool Arith ZArith NArith List Lia.
From Stdlib Require Import Ascii String.
From Stdlib Require Import Permutation Sorted.
From Stdlib Require Import QArith.
Import ListNotations.

Local Open Scope string_scope.
Local Open Scope list_scope.
Local Open Scope Z_scope.

(** ** Python string primitives *)

Module PyStr.

(** [str.isspace] on one code point: TAB..CR, FS..US, SPACE, NEL, NBSP. *)
Definition isspace (c : ascii) : bool :=
  let n := N_of_ascii c in
  (((9 <=? n) && (n <=? 13)) || ((28 <=? n) && (n <=? 32))
   || (n =? 133) || (n =? 160))%N.

(** [str.lower] on one code point: A..Z and the Latin-1 capitals
    (0xC0..0xDE without the multiplication sign 0xD7) move up by 32. *)
Definition lower_char (c : ascii) : ascii :=
  let n := N_of_ascii c in
  if (((65 <=? n) && (n <=? 90))
      || ((192 <=? n) && (n <=? 222) && negb (n =? 215)))%N
  then ascii_of_N (n + 32) else c.

Fixpoint lower (s : string) : string :=
  match s with
  | EmptyString => EmptyString
  | String c r => String (lower_char c) (lower r)
  end.

Fixpoint lstrip (s : string) : string :=
  match s with
  | EmptyString => EmptyString
  | String c r => if isspace c then lstrip r else s
  end.

Definition is_empty (s : string) : bool :=
  match s with EmptyString => true | _ => false end.

Fixpoint rstrip (s : string) : string :=
  match s with
  | EmptyString => EmptyString
  | String c r =>
      let r' := rstrip r in
      if isspace c && is_empty r' then EmptyString else String c r'
  end.

(** [s.strip()]: whitespace removed at both ends. *)
Definition strip (s : string) : string := rstrip (lstrip s).

(** [t in s] for strings. *)
Fixpoint contains (t s : string) : bool :=
  match s with
  | EmptyString => prefix t EmptyString
  | String _ r => prefix t s || contains t r
  end.

(** [any(t in k for t in xs)]. *)
Definition any_in (xs : list string) (k : string) : bool :=
  existsb (fun t => contains t k) xs.

Definition snoc (w : string) (c : ascii) : string :=
  append w (String c EmptyString).

(** [s.split()]: the maximal runs of non-whitespace characters.  [cur] is
    the word being read, if any. *)
Fixpoint split_from (cur : option string) (s : string) : list string :=
  match s with
  | EmptyString =>
      match cur with Some w => [w] | None => [] end
  | String c r =>
      if isspace c then
        match cur with
        | Some w => w :: split_from None r
        | None => split_from None r
        end
      else
        match cur with
        | Some w => split_from (Some (snoc w c)) r
        | None => split_from (Some (String c EmptyString)) r
        end
  end.

Definition split (s : string) : list string := split_from None s.

(** The number of words [split_from] returns, counted without building
    them; [inword] tells whether a word is being read. *)
Fixpoint count_words_from (inword : bool) (s : string) : nat :=
  match s with
  | EmptyString => if inword then 1 else 0
  | String c r =>
      if isspace c
      then ((if inword then 1 else 0) + count_words_from false r)%nat
      else count_words_from true r
  end.

(** [len(s)]. *)
Definition len (s : string) : nat := String.length s.

(** [re.search(r'_{2,}', s)] finds a match exactly when two underscores
    stand next to each other. *)
Definition search_underscore_run (s : string) : bool := contains "__" s.

Definition is_underscore (c : ascii) : bool :=
  if ascii_dec "_" c then true else false.

(** [s.title()] on ASCII letters: a letter that follows a letter is
    lower-cased, any other letter is upper-cased.  Code points from 128 on
    are copied and count as uncased; [collect] calls [title] on category
    names only, which are ASCII. *)
Definition is_ascii_upper (c : ascii) : bool :=
  let n := N_of_ascii c in ((65 <=? n) && (n <=? 90))%N.
Definition is_ascii_lower (c : ascii) : bool :=
  let n := N_of_ascii c in ((97 <=? n) && (n <=? 122))%N.

Fixpoint title_from (prev_cased : bool) (s : string) : string :=
  match s with
  | EmptyString => EmptyString
  | String c r =>
      if is_ascii_lower c then
        String (if prev_cased then c else ascii_of_N (N_of_ascii c - 32))
               (title_from true r)
      else if is_ascii_upper c then
        String (if prev_cased then ascii_of_N (N_of_ascii c + 32) else c)
               (title_from true r)
      else String c (title_from false r)
  end.

Definition title (s : string) : string := title_from false s.

End PyStr.

(** ** Data model *)

Inductive Category : Type :=
  | technology | business | medical | education
  | food | nature | lifestyle | general.

Definition Category_eqb (a b : Category) : bool :=
  match a, b with
  | technology, technology | business, business | medical, medical
  | education, education | food, food | nature, nature
  | lifestyle, lifestyle | general, general => true
  | _, _ => false
  end.

Definition category_str (c : Category) : string :=
  match c with
  | technology => "technology" | business => "business"
  | medical => "medical" | education => "education"
  | food => "food" | nature => "nature"
  | lifestyle => "lifestyle" | general => "general"
  end.

Record TrendRecord : Type := mkTrend {
  keyword : string;
  popularity : Z;
  category : Category;
  source : string
}.

(** ** Insertion-ordered dicts

    A dict is the list of its items in insertion order.  [d[k] = v] on a
    key already present replaces the value where it stands; on a new key it
    appends the item. *)

Module Dict.
Section Ops.
Context {K V : Type}.
Variable eqb : K -> K -> bool.

Fixpoint lookup (d : list (K * V)) (k : K) : option V :=
  match d with
  | [] => None
  | (k', v) :: rest => if eqb k' k then Some v else lookup rest k
  end.

Fixpoint set (d : list (K * V)) (k : K) (v : V) : list (K * V) :=
  match d with
  | [] => [(k, v)]
  | (k', v') :: rest =>
      if eqb k' k then (k', v) :: rest else (k', v') :: set rest k v
  end.

(** [d.get(k, default)]. *)
Definition get (d : list (K * V)) (k : K) (default : V) : V :=
  match lookup d k with Some v => v | None => default end.

Definition keys (d : list (K * V)) : list K := map fst d.
Definition values (d : list (K * V)) : list V := map snd d.
End Ops.
End Dict.

(** ** [sorted(xs, key=..., reverse=True)]

    Python's sort is stable and compares with [<] only; with
    [reverse=True] the result is descending and items with equal keys keep
    their order.  That list is unique, and insertion from the right
    builds it: an item goes in front of the first item whose key is not
    strictly above its own. *)

Section SortedReverse.
Context {A K : Type}.
Variable key : A -> K.
Variable ltb : K -> K -> bool.

Fixpoint insert_desc (x : A) (l : list A) : list A :=
  match l with
  | [] => [x]
  | y :: l' =>
      if ltb (key x) (key y) then y :: insert_desc x l' else x :: l
  end.

Fixpoint sorted_reverse (l : list A) : list A :=
  match l with
  | [] => []
  | x :: r => insert_desc x (sorted_reverse r)
  end.

(** [a] may stand before [b] in a descending list: [a]'s key is not
    strictly below [b]'s. *)
Definition not_below (a b : A) : Prop := ltb (key a) (key b) = false.

(** [a]'s key ties with [c]: neither is strictly below the other. *)
Definition ties (c : K) (a : A) : bool :=
  negb (ltb c (key a)) && negb (ltb (key a) c).
End SortedReverse.

(** ** Utilities *)

(** [clamp(v, lo, hi) = max(lo, min(hi, v))]. *)
Definition clamp (v lo hi : Z) : Z := Z.max lo (Z.min hi v).

(** ** Categorizer and scorer *)

Definition _categorize (keyword : string) : Category :=
  let k := PyStr.lower keyword in
  let anyin xs := PyStr.any_in xs k in
  if anyin ["ai";"artificial";"machine learning";"ml";"blockchain";"saas";
            "api";"cloud";"vr";"ar";"3d";"data"] then technology
  else if anyin ["business";"corporate";"office";"startup";"strategy";
                 "marketing";"revenue";"meeting"] then business
  else if anyin ["medical";"health";"healthcare";"doctor";"nurse";"patient";
                 "therapy";"vaccine";"fitness";"wellness"] then medical
  else if anyin ["education";"school";"student";"teacher";"university";
                 "learning";"research"] then education
  else if anyin ["food";"cuisine";"cooking";"meal";"recipe";"kitchen";
                 "coffee";"tea";"restaurant";"diet";"vegan";"plant"] then food
  else if anyin ["nature";"forest";"mountain";"ocean";"sea";"beach";"sky";
                 "wildlife";"green";"sustainable";"climate"] then nature
  else if anyin ["lifestyle";"family";"people";"beauty";"fashion";"home";
                 "interior";"yoga";"meditation"] then lifestyle
  else general.

Definition score_base_table : list (string * Z) :=
  [("pexels_api", 85); ("unsplash_api", 84); ("unsplash_topics", 78);
   ("pytrends", 88); ("seasonal", 72)].

(** [_score(keyword, source)]; [jitter] is the value drawn by
    [random.randint(-2, 2)]. *)
Definition _score (keyword source : string) (jitter : Z) : Z :=
  let base := Dict.get String.eqb score_base_table source 70 in
  let kl := PyStr.lower keyword in
  let base :=
    if PyStr.any_in ["ai";"artificial intelligence";"machine learning";"3d"] kl
    then base + 8
    else if PyStr.any_in ["sustainable";"green";"eco";"renewable"] kl
    then base + 6
    else if PyStr.any_in ["remote work";"digital transformation";"hybrid"] kl
    then base + 6
    else if PyStr.any_in ["health";"wellness";"mental health"] kl
    then base + 5
    else if PyStr.any_in ["diversity";"inclusion"] kl
    then base + 4
    else base in
  let wc := List.length (PyStr.split keyword) in
  let base :=
    if (wc =? 2)%nat then base + 3
    else if (wc =? 3)%nat then base + 2
    else base in
  let base :=
    if (40 <? PyStr.len keyword)%nat then base - 6
    else if (30 <? PyStr.len keyword)%nat then base - 3
    else base in
  clamp (base + jitter) 50 99.

(** ** Seasonal fallback *)

Definition season_names : list string := ["winter"; "spring"; "summer"; "autumn"].

(** [season_names[((month - 1) // 3) % 4]]; [//] and [%] round towards
    minus infinity, as [Z.div] and [Z.modulo] do for a positive divisor. *)
Definition season_of (month : Z) : string :=
  nth (Z.to_nat (((month - 1) / 3) mod 4)) season_names "".

Definition buckets : list string :=
  ["business"; "lifestyle"; "nature"; "technology"; "food"; "education"].

(** The loop over [buckets]; [roll i] is the value of the [i]-th call of
    [random.randint(70, 88)]. *)
Fixpoint seasonal_loop (season : string) (roll : nat -> Z) (i : nat)
    (bs : list string) : list TrendRecord :=
  match bs with
  | [] => []
  | b :: rest =>
      let kw := (season ++ " " ++ b)%string in
      mkTrend kw (roll i) (_categorize kw) "seasonal"
        :: seasonal_loop season roll (S i) rest
  end.

Definition source_seasonal (month : Z) (roll : nat -> Z) : list TrendRecord :=
  seasonal_loop (season_of month) roll 0%nat buckets.

(** ** Orchestrator *)

Inductive Exception : Type := TimeoutError | OtherException.

(** What a call returns to its caller. *)
Inductive Outcome (A : Type) : Type :=
  | Return (a : A)
  | Raise (e : Exception).
Arguments Return {A} a.
Arguments Raise {A} e.

(** What [fut.result(timeout=60)] does on a future handed out by
    [as_completed]: the adapter's list, or an exception. *)
Inductive FutureResult : Type :=
  | Returned (res : list TrendRecord)
  | Raised (e : Exception).

(** One run of [collect] as its body sees the outside world. *)
Record World : Type := mkWorld {
  completed : list (string * FutureResult);
      (* the (name, future) pairs [as_completed] yields, in order *)
  global_timeout_expired : bool;
      (* [as_completed(..., timeout=180)] then raises TimeoutError *)
  month : Z;                      (* [datetime.now().month] *)
  roll : nat -> Z;                (* draws of [random.randint(70, 88)] *)
  scrape_clock : string;          (* [now_iso()] *)
  elapsed : Q                     (* [round(time.time() - start, 2)] *)
}.

Record CategorySummary : Type := mkSummary {
  name : string;
  count : Z;
  avg_popularity : Q;
  top_keywords : list (string * Z)
}.

Record CollectionResult : Type := mkResult {
  scrape_date : string;
  scraping_duration : Q;
  sources_used : list string;
  total_keywords_found : nat;
  trending_searches : list TrendRecord;
  popular_categories : list CategorySummary;
  seasonal_trends : list TrendRecord
}.

(** *** Gathering the adapters' lists *)

(** Body of the loop over [as_completed]: a non-empty list is appended and
    its source named; an empty list, a timeout and any other exception
    leave the state as it is. *)
Definition gather_step (st : list TrendRecord * list string)
    (ev : string * FutureResult) : list TrendRecord * list string :=
  let '(all_trends, used_sources) := st in
  let '(name, fut) := ev in
  match fut with
  | Returned [] => st
  | Returned res => (all_trends ++ res, used_sources ++ [name])
  | Raised _ => st
  end.

(** The [with ThreadPoolExecutor] block, for a positive [max_workers].
    The iterator's TimeoutError is raised by the [for] statement itself,
    outside the [try]: the futures yielded before it have gone through the
    loop body, and the exception then leaves the block. *)
Definition gather (w : World) : Outcome (list TrendRecord * list string) :=
  let st := fold_left gather_step (completed w) ([], []) in
  if global_timeout_expired w then Raise TimeoutError else Return st.

(** *** Filter and dedup *)

Definition source_priority : list (string * Z) :=
  [("pytrends", 9); ("pexels_api", 8); ("unsplash_api", 7);
   ("unsplash_topics", 6); ("seasonal", 4)].

(** [source_priority.get(src, 0)]. *)
Definition priority_of (src : string) : Z :=
  Dict.get String.eqb source_priority src 0.

Definition priority (t : TrendRecord) : Z := priority_of (source t).

(** [t["keyword"].strip().lower()]. *)
Definition normalize (kw : string) : string := PyStr.lower (PyStr.strip kw).

(** The condition under which the incoming record replaces the stored one. *)
Definition replaces (t cur : TrendRecord) : bool :=
  (popularity t >? popularity cur)
  || ((popularity t =? popularity cur) && (priority t >? priority cur)).

(** Body of [for t in all_trends]. *)
Definition dedup_step (unique : list (string * TrendRecord)) (t : TrendRecord)
    : list (string * TrendRecord) :=
  let kw := normalize (keyword t) in
  if negb ((3 <=? PyStr.len kw)%nat && (PyStr.len kw <=? 50)%nat) then unique
  else if PyStr.search_underscore_run kw then unique
  else
    match Dict.lookup String.eqb unique kw with
    | None => Dict.set String.eqb unique kw t
    | Some cur =>
        if replaces t cur then Dict.set String.eqb unique kw t else unique
    end.

Definition dedup (all_trends : list TrendRecord) : list (string * TrendRecord) :=
  fold_left dedup_step all_trends [].

(** The two tests at the head of the loop body, as one condition on the
    normalized keyword. *)
Definition passes_filter (kw : string) : bool :=
  (3 <=? PyStr.len kw)%nat && (PyStr.len kw <=? 50)%nat
  && negb (PyStr.search_underscore_run kw).

(** What [unique[kw]] holds after the body has run on [t], given what it
    held before. *)
Definition keep (stored : option TrendRecord) (t : TrendRecord) : TrendRecord :=
  match stored with
  | None => t
  | Some cur => if replaces t cur then t else cur
  end.

(** The loop body as seen from one key [k]. *)
Definition pick (k : string) (stored : option TrendRecord) (t : TrendRecord)
    : option TrendRecord :=
  let kw := normalize (keyword t) in
  if passes_filter kw && String.eqb kw k then Some (keep stored t) else stored.

(** Every stored item sits under its own normalized keyword, which passed
    the filter, and is one of the candidates. *)
Definition well_keyed (l : list TrendRecord) (u : list (string * TrendRecord)) : Prop :=
  forall k v, In (k, v) u ->
    k = normalize (keyword v) /\ passes_filter k = true /\ In v l.

(** Popularity and source priority, the pair the dedup test compares. *)
Definition strength (t : TrendRecord) : Z * Z := (popularity t, priority t).

Definition strength_ltb (a b : Z * Z) : bool :=
  (fst a <? fst b) || ((fst a =? fst b) && (snd a <? snd b)).

(** The loop body as seen from one key, on strengths only: the running
    maximum over the candidates of that key that pass the filter. *)
Definition pick_strength (k : string) (stored : option (Z * Z)) (t : TrendRecord)
    : option (Z * Z) :=
  let kw := normalize (keyword t) in
  if passes_filter kw && String.eqb kw k then
    match stored with
    | None => Some (strength t)
    | Some c => if strength_ltb c (strength t) then Some (strength t) else Some c
    end
  else stored.

Definition best_strength (l : list TrendRecord) (k : string) : option (Z * Z) :=
  fold_left (pick_strength k) l None.

(** The sort key of a stored record, read off its dict key. *)
Definition rank_key_of (l : list TrendRecord) (k : string) : Z * nat :=
  (match best_strength l k with Some s => fst s | None => 0 end,
   List.length (PyStr.split k)).

(** *** Ranking *)

(** [len(x["keyword"].split())]. *)
Definition word_count (x : TrendRecord) : nat :=
  List.length (PyStr.split (keyword x)).

(** The sort key [(x["popularity"], len(x["keyword"].split()))]. *)
Definition rank_key (x : TrendRecord) : Z * nat := (popularity x, word_count x).

(** [<] on such tuples. *)
Definition rank_key_ltb (a b : Z * nat) : bool :=
  (fst a <? fst b) || ((fst a =? fst b) && (snd a <? snd b)%nat).

Definition ranked (unique : list (string * TrendRecord)) : list TrendRecord :=
  sorted_reverse rank_key rank_key_ltb (Dict.values unique).

Definition top_trends (unique : list (string * TrendRecord)) : list TrendRecord :=
  firstn 20 (ranked unique).

(** [a] is at least [b] in the order on (popularity, word count). *)
Definition rank_ge (a b : TrendRecord) : Prop :=
  popularity b < popularity a
  \/ (popularity b = popularity a /\ (word_count b <= word_count a)%nat).

(** [y] equals [x] on both components of the sort key. *)
Definition same_rank (x y : TrendRecord) : bool :=
  (popularity y =? popularity x) && (word_count y =? word_count x)%nat.

(** *** Category summary *)

(** A [categories] value while it is being built. *)
Record CategoryAcc : Type := mkAcc {
  acc_name : string;
  acc_count : Z;
  acc_avg_popularity : Q;
  acc_total_popularity : Z;
  acc_top_keywords : list (string * Z)
}.

Definition fresh_acc (cat : Category) : CategoryAcc :=
  mkAcc (PyStr.title (category_str cat)) 0 (0 # 1) 0 [].

(** Body of [for tr in top_trends]: [setdefault], then the three updates
    of the stored dict. *)
Definition categories_step (categories : list (Category * CategoryAcc))
    (tr : TrendRecord) : list (Category * CategoryAcc) :=
  let cat := category tr in
  let c := match Dict.lookup Category_eqb categories cat with
           | Some c => c
           | None => fresh_acc cat
           end in
  Dict.set Category_eqb categories cat
    (mkAcc (acc_name c) (acc_count c + 1) (acc_avg_popularity c)
           (acc_total_popularity c + popularity tr)
           (acc_top_keywords c ++ [(keyword tr, popularity tr)])).

Definition Qltb (a b : Q) : bool := negb (Qle_bool b a).

(** Body of [for c in categories.values()].  The quotient is kept exact. *)
Definition finish_category (c : CategoryAcc) : CategorySummary :=
  mkSummary (acc_name c) (acc_count c)
    (acc_total_popularity c # Z.to_pos (Z.max 1 (acc_count c)))
    (firstn 5 (sorted_reverse (fun kp : string * Z => snd kp) Z.ltb
                 (acc_top_keywords c))).

Definition build_categories (top : list TrendRecord) : list CategorySummary :=
  let categories := fold_left categories_step top [] in
  sorted_reverse avg_popularity Qltb
    (map finish_category (Dict.values categories)).

(** The three updates of the loop body on one stored dict. *)
Definition acc_add (c : CategoryAcc) (tr : TrendRecord) : CategoryAcc :=
  mkAcc (acc_name c) (acc_count c + 1) (acc_avg_popularity c)
        (acc_total_popularity c + popularity tr)
        (acc_top_keywords c ++ [(keyword tr, popularity tr)]).

(** The first loop as seen from one category [cat]. *)
Definition cat_pick (cat : Category) (stored : option CategoryAcc)
    (tr : TrendRecord) : option CategoryAcc :=
  if Category_eqb (category tr) cat then
    Some (acc_add (match stored with Some c => c | None => fresh_acc cat end) tr)
  else stored.

(** *** The summary, said directly

    What the summary of one category is, in terms of the ranked list
    alone: the records of the category, their number, the mean of their
    popularity as a fraction, and the first five of their
    (keyword, popularity) pairs in descending order of popularity. *)

Definition members (cat : Category) (top : list TrendRecord) : list TrendRecord :=
  filter (fun t => Category_eqb (category t) cat) top.

Definition sum_popularity (l : list TrendRecord) : Z :=
  fold_right (fun t acc => popularity t + acc) 0 l.

Definition keyword_pair (t : TrendRecord) : string * Z := (keyword t, popularity t).

Definition summary_of (top : list TrendRecord) (cat : Category) : CategorySummary :=
  let m := members cat top in
  mkSummary (PyStr.title (category_str cat))
            (Z.of_nat (List.length m))
            (sum_popularity m # Pos.of_nat (List.length m))
            (firstn 5 (sorted_reverse (fun kp : string * Z => snd kp) Z.ltb
                         (map keyword_pair m))).

(** *** [collect] *)

Definition is_seasonal (t : TrendRecord) : bool := String.eqb (source t) "seasonal".

(** All candidate records: the gathered lists, then the seasonal ones. *)
Definition merge_seasonal (w : World) (all_trends : list TrendRecord)
    : list TrendRecord :=
  all_trends ++ source_seasonal (month w) (roll w).

(** The candidate list and the values of [unique] in a run that gets
    past the pool. *)
Definition candidates (w : World) : list TrendRecord :=
  merge_seasonal w (fst (fold_left gather_step (completed w) ([], []))).

Definition merged (w : World) : list TrendRecord :=
  Dict.values (dedup (candidates w)).

Definition collect (w : World) : Outcome CollectionResult :=
  match gather w with
  | Raise e => Raise e
  | Return (all_trends, used_sources) =>
      let all_trends := merge_seasonal w all_trends in
      let used_sources :=
        if existsb (String.eqb "seasonal") used_sources then used_sources
        else used_sources ++ ["seasonal"] in
      let unique := dedup all_trends in
      let top := top_trends unique in
      Return (mkResult (scrape_clock w) (elapsed w) used_sources
                (List.length all_trends) top (build_categories top)
                (filter is_seasonal top))
  end.

(** The filter / dedup / sort / truncate pass on a candidate list. *)
Definition dedup_and_rank (all_trends : list TrendRecord) : list TrendRecord :=
  top_trends (dedup all_trends).

(** ** A busy run

    One adapter returns twenty two-word keywords scored as the scorer
    scores them (jitter 0); every seasonal roll is at its maximum. *)

Definition busy_keywords : list string :=
  ["ai office"; "ai startup"; "ai meeting"; "ai doctor"; "ai nurse";
   "ai school"; "ai teacher"; "ai kitchen"; "ai coffee"; "ai forest";
   "ai ocean"; "ai family"; "ai fashion"; "ai robot"; "ai chip";
   "ai laptop"; "ai city"; "ai design"; "ai music"; "ai travel"].

Definition busy_world : World :=
  mkWorld [("pexels_api",
            Returned (map (fun kw => mkTrend kw (_score kw "pexels_api" 0)
                                       (_categorize kw) "pexels_api")
                          busy_keywords))]
          false 11 (fun _ => 88) "2026-11-03T09:00:00" (42 # 1).

(** ** A run in which every adapter fails

    No API key is set and the trends library is missing, so
    [source_pexels_api] and [source_pytrends] return [[]] at once, and
    unsplash.com does not answer: [_unsplash_topics_html] asks for six
    pages, three tries each, every [session.get] running into its 25 s
    timeout, and is still at work when the 180 s of [as_completed] are
    over. *)

Definition stalled_world : World :=
  mkWorld [("pexels_api", Returned []); ("pytrends", Returned [])]
          true 11 (fun _ => 80) "2026-11-03T09:00:00" (180 # 1).

(** ** HTTP fetch

    The network is seen through what each [session.get] does: it raises
    [requests.RequestException] or returns a response.  The parser is not
    modelled: a response carries the document [BeautifulSoup] builds from
    its text.  [time.sleep] only delays and is left out; an exception
    other than [requests.RequestException] would pass through [_fetch] and
    is outside the model. *)

(** An element that [soup.select] returns. *)
Record Element : Type := mkElement {
  title_attr : option string;     (* [el.get("title")] *)
  stripped_text : string          (* [el.get_text(strip=True)] *)
}.

Record Document : Type := mkDocument {
  has_structure : bool;
      (* [soup.find(["a", "img", "h1", "h2", "h3"])] finds an element *)
  select : string -> list Element          (* [soup.select(sel)] *)
}.

Record HttpResponse : Type := mkResponse {
  status_code : Z;
  content_type : option string;   (* [resp.headers.get("content-type")] *)
  text : string;
  soup : Document                 (* [BeautifulSoup(resp.text, "html.parser")] *)
}.

Inductive GetResult : Type :=
  | GetRaises                               (* [requests.RequestException] *)
  | GetReturns (resp : HttpResponse).

Definition retry_status : list Z := [429; 500; 502; 503; 504].

Definition bot_markers : list string :=
  ["enable javascript"; "cloudflare"; "akamai"; "cf-chl-bypass"].

(** [s[:n]]. *)
Definition str_take (n : nat) (s : string) : string := substring 0 n s.

(** What the loop body does with a response whose status is not in
    [retry_status]: the value [_fetch] returns. *)
Definition accept_response (resp : HttpResponse) : option Document :=
  if negb (status_code resp =? 200) then None
  else
    let ct := PyStr.lower (match content_type resp with
                           | Some h => h
                           | None => ""
                           end) in
    if negb (PyStr.contains "text/html" ct)
       && negb (PyStr.contains "application/xhtml+xml" ct) then None
    else
      let head := PyStr.lower (str_take 2000 (text resp)) in
      if PyStr.any_in bot_markers head then None
      else if negb (has_structure (soup resp)) then None
      else Some (soup resp).

(** What one call of [_fetch] did. *)
Record FetchRun : Type := mkFetchRun {
  fetched : option Document;      (* the return value *)
  requests_made : nat             (* number of [session.get] calls *)
}.

(** [for attempt in range(attempt, attempt + remaining)]; [net i] is what
    the [i]-th [session.get] of this call does. *)
Fixpoint fetch_attempts (net : nat -> GetResult) (attempt remaining : nat)
    : FetchRun :=
  match remaining with
  | O => mkFetchRun None 0
  | S remaining' =>
      let continue_ :=
        let rest := fetch_attempts net (S attempt) remaining' in
        mkFetchRun (fetched rest) (S (requests_made rest)) in
      match net attempt with
      | GetRaises => continue_
      | GetReturns resp =>
          if existsb (Z.eqb (status_code resp)) retry_status then continue_
          else mkFetchRun (accept_response resp) 1
      end
  end.

Definition _fetch (net : nat -> GetResult) (max_tries : nat) : FetchRun :=
  fetch_attempts net 1 max_tries.

(** An attempt after which the loop goes on. *)
Definition retried (g : GetResult) : bool :=
  match g with
  | GetRaises => true
  | GetReturns resp => existsb (Z.eqb (status_code resp)) retry_status
  end.

(** ** Keyword extractor *)

(** [\w] of [re] on a code point below 256: letters, digits and other
    numeric characters, and the underscore. *)
Definition is_word_char (c : ascii) : bool :=
  let n := N_of_ascii c in
  (((48 <=? n) && (n <=? 57)) || ((65 <=? n) && (n <=? 90)) || (n =? 95)
   || ((97 <=? n) && (n <=? 122)) || (n =? 170)
   || ((178 <=? n) && (n <=? 179)) || (n =? 181)
   || ((185 <=? n) && (n <=? 186)) || ((188 <=? n) && (n <=? 190))
   || ((192 <=? n) && (n <=? 214)) || ((216 <=? n) && (n <=? 246))
   || ((248 <=? n) && (n <=? 255)))%N.

(** The characters [[^\w\s\-\&/]] does not match. *)
Definition is_kept_char (c : ascii) : bool :=
  is_word_char c || PyStr.isspace c
  || Ascii.eqb c "-" || Ascii.eqb c "&" || Ascii.eqb c "/".

(** [re.sub(r'[^\w\s\-\&/]', ' ', s)]. *)
Fixpoint blank_punctuation (s : string) : string :=
  match s with
  | EmptyString => EmptyString
  | String c r =>
      String (if is_kept_char c then c else " "%char) (blank_punctuation r)
  end.

(** [re.sub(r'\s+', ' ', s)]: every maximal run of whitespace becomes one
    space.  [in_run] tells whether the previous character was whitespace. *)
Fixpoint collapse_from (in_run : bool) (s : string) : string :=
  match s with
  | EmptyString => EmptyString
  | String c r =>
      if PyStr.isspace c
      then (if in_run then collapse_from true r
            else String " " (collapse_from true r))
      else String c (collapse_from false r)
  end.

Definition collapse_whitespace (s : string) : string := collapse_from false s.

Definition _STOP_WORDS : list string :=
  ["the";"a";"an";"and";"or";"in";"on";"for";"of";"with";"by";"to";"is";"are";
   "stock";"photo";"image";"images";"pictures";"download";"free";"hd"].

(** [t in self._STOP_WORDS]. *)
Definition is_stop_word (t : string) : bool :=
  existsb (String.eqb t) _STOP_WORDS.

(** The bi-gram loop: [for i in range(len(toks) - 1)]. *)
Fixpoint bigrams (toks : list string) : list string :=
  match toks with
  | w1 :: ((w2 :: _) as rest) =>
      if negb (is_stop_word w1) && negb (is_stop_word w2)
      then (w1 ++ " " ++ w2)%string :: bigrams rest
      else bigrams rest
  | _ => []
  end.

(** The tri-gram loop: [for i in range(len(toks) - 2)]. *)
Fixpoint trigrams (toks : list string) : list string :=
  match toks with
  | w1 :: ((w2 :: w3 :: _) as rest) =>
      if negb (is_stop_word w1) && negb (is_stop_word w2)
         && negb (is_stop_word w3)
      then
        let phrase := (w1 ++ " " ++ w2 ++ " " ++ w3)%string in
        if (3 <=? PyStr.len phrase)%nat && (PyStr.len phrase <=? 40)%nat
        then phrase :: trigrams rest
        else trigrams rest
      else trigrams rest
  | _ => []
  end.

(** The tokens: [[t for t in text.split() if t not in STOP and len(t) >= 2]]. *)
Definition tokens (text : string) : list string :=
  filter (fun t => negb (is_stop_word t) && (2 <=? PyStr.len t)%nat)
         (PyStr.split text).

(** The two [re.sub] and the [strip] at the head of the function. *)
Definition clean_text (text : string) : string :=
  PyStr.strip (collapse_whitespace (blank_punctuation (PyStr.lower text))).

(** [_extract_keywords(text, hard_cap)].  The set [out] is the list of its
    members without repetition; [arrange] stands for the order in which
    [list(out)] and [random.shuffle] leave them.  [hard_cap] is a count, as
    at every call site. *)
Definition _extract_keywords (arrange : list string -> list string)
    (text : string) (hard_cap : nat) : list string :=
  if PyStr.is_empty text then []
  else
    let text := clean_text text in
    if PyStr.is_empty text then []
    else
      let toks := tokens text in
      let out := nodup string_dec (toks ++ bigrams toks ++ trigrams toks) in
      firstn hard_cap (arrange out).

(** Whether every character of [s] satisfies [p]. *)
Fixpoint str_forall (p : ascii -> bool) (s : string) : bool :=
  match s with
  | EmptyString => true
  | String c r => p c && str_forall p r
  end.

(** A character the extractor can leave in a keyword: a word character,
    a space, a hyphen, an ampersand or a slash, and one that [lower] leaves
    as it is. *)
Definition is_keyword_char (c : ascii) : bool :=
  (is_word_char c || Ascii.eqb c " " || Ascii.eqb c "-" || Ascii.eqb c "&"
   || Ascii.eqb c "/")
  && Ascii.eqb (PyStr.lower_char c) c.

(** [" ".join(ws)]. *)
Fixpoint join_space (ws : list string) : string :=
  match ws with
  | [] => EmptyString
  | [w] => w
  | w :: rest => (w ++ " " ++ join_space rest)%string
  end.

(** A character of the text before whitespace is collapsed. *)
Definition space_or_keyword_char (c : ascii) : bool :=
  PyStr.isspace c || is_keyword_char c.

(** A word as [split] returns it: not empty and free of whitespace. *)
Definition is_word (w : string) : bool :=
  negb (PyStr.is_empty w) && str_forall (fun c => negb (PyStr.isspace c)) w.

(** ** Source adapters

    An adapter is seen through what the outside gives it: for every seed
    or page what the request brought back, and for every random choice the
    order or number that came out.  [time.sleep] only delays and is left
    out.  A run in which an adapter itself raises is a [Raised] future of
    [collect]. *)

(** [x or ""] for a value that is a string or missing. *)
Definition or_empty (x : option string) : string :=
  match x with Some s => s | None => "" end.

(** [f(0, x0), f(1, x1), ...] from index [i] on. *)
Fixpoint map_indexed {A B : Type} (f : nat -> A -> B) (i : nat) (l : list A)
    : list B :=
  match l with
  | [] => []
  | x :: rest => f i x :: map_indexed f (S i) rest
  end.

(** The random outcomes inside the work on one seed or page: the order
    the [n]-th call of [_extract_keywords] leaves its keywords in, the
    order [list(kws)] lists the set in, and the jitter of the [n]-th call
    of [_score]. *)
Record Chance : Type := mkChance {
  extract_order : nat -> list string -> list string;
  set_order : list string -> list string;
  jitter : nat -> Z
}.

(** The dict an adapter appends for [kw]. *)
Definition scored_record (src kw : string) (j : Z) : TrendRecord :=
  mkTrend kw (_score kw src j) (_categorize kw) src.

(** [for kw in kws: trends.append({...})], the [n]-th score drawing
    [jit n]. *)
Definition scored_records (src : string) (jit : nat -> Z) (kws : list string)
    : list TrendRecord :=
  map_indexed (fun n kw => scored_record src kw (jit n)) 0 kws.

(** *** Pexels API *)

Definition pexels_seeds : list string :=
  ["business"; "technology"; "nature"; "people"; "food"; "education";
   "medical"; "startup"; "ai"].

(** The body of the loop on one seed [q].  [photos] is [None] when the
    request raised, answered with a status other than 200 or its body
    could not be used; else it holds the "alt" of each photo. *)
Definition pexels_seed (q : string) (photos : option (list (option string)))
    (ch : Chance) : list TrendRecord :=
  match photos with
  | None => []
  | Some alts =>
      let kws :=
        nodup string_dec
          (q :: List.concat
                  (map_indexed
                     (fun n alt =>
                        _extract_keywords (extract_order ch n)
                          (PyStr.lower (PyStr.strip (or_empty alt))) 20)
                     0 alts)) in
      scored_records "pexels_api" (jitter ch) (firstn 5 (set_order ch kws))
  end.

Definition source_pexels_api (pexels_key : string)
    (answers : nat -> option (list (option string))) (chance : nat -> Chance)
    (shuffle : list TrendRecord -> list TrendRecord) (limit_terms : nat)
    : list TrendRecord :=
  if PyStr.is_empty pexels_key then []
  else
    let trends :=
      List.concat
        (map_indexed (fun i q => pexels_seed q (answers i) (chance i))
                     0 pexels_seeds) in
    firstn limit_terms (shuffle trends).

(** *** Unsplash API *)

Definition unsplash_seeds : list string :=
  ["business"; "technology"; "ai"; "people"; "portrait"; "education";
   "healthy food"; "nature"; "3d render"].

(** One item of "results": its "alt_description" and "description". *)
Definition unsplash_item_keywords (ch : Chance) (n : nat)
    (item : option string * option string) : list string :=
  let alt := PyStr.lower (PyStr.strip (or_empty (fst item))) in
  let desc := PyStr.lower (PyStr.strip (or_empty (snd item))) in
  _extract_keywords (extract_order ch (2 * n)) alt 30
  ++ _extract_keywords (extract_order ch (2 * n + 1)) desc 30.

Definition unsplash_seed (q : string)
    (results : option (list (option string * option string)))
    (ch : Chance) : list TrendRecord :=
  match results with
  | None => []
  | Some items =>
      let kws :=
        nodup string_dec
          (q :: List.concat (map_indexed (unsplash_item_keywords ch) 0 items)) in
      scored_records "unsplash_api" (jitter ch) (firstn 6 (set_order ch kws))
  end.

Definition _unsplash_api
    (answers : nat -> option (list (option string * option string)))
    (chance : nat -> Chance)
    (shuffle : list TrendRecord -> list TrendRecord) (limit_terms : nat)
    : list TrendRecord :=
  let trends :=
    List.concat
      (map_indexed (fun i q => unsplash_seed q (answers i) (chance i))
                   0 unsplash_seeds) in
  firstn limit_terms (shuffle trends).

(** *** Unsplash topic pages *)

Definition topic_urls : list string :=
  ["https://unsplash.com/t/nature";
   "https://unsplash.com/t/business-work";
   "https://unsplash.com/t/people";
   "https://unsplash.com/t/wallpapers";
   "https://unsplash.com/t/technology";
   "https://unsplash.com/t/architecture-interior"].

Definition double_quote : string := String (ascii_of_nat 34) EmptyString.

(** The last selector is [a[href*=...]] with "/s/photos/" between double
    quotes. *)
Definition topic_selectors : list string :=
  ["h1"; "h2"; "h3"; "a[title]";
   ("a[href*=" ++ double_quote ++ "/s/photos/" ++ double_quote ++ "]")%string].

(** [(el.get("title") or el.get_text(strip=True) or "").lower()]. *)
Definition element_text (el : Element) : string :=
  PyStr.lower
    (match title_attr el with
     | Some t => if PyStr.is_empty t then stripped_text el else t
     | None => stripped_text el
     end).

(** The body of the loop on one page, [page] being what [_fetch]
    returned. *)
Definition topic_page (page : option Document) (ch : Chance)
    : list TrendRecord :=
  match page with
  | None => []
  | Some soup =>
      let elements := List.concat (map (select soup) topic_selectors) in
      let kws :=
        nodup string_dec
          (List.concat
             (map_indexed
                (fun n el =>
                   _extract_keywords (extract_order ch n) (element_text el) 50)
                0 elements)) in
      scored_records "unsplash_topics" (jitter ch) (firstn 10 (set_order ch kws))
  end.

(** [net i] is the network as the [_fetch] of the [i]-th page sees it. *)
Definition _unsplash_topics_html (net : nat -> nat -> GetResult)
    (chance : nat -> Chance)
    (shuffle : list TrendRecord -> list TrendRecord) (limit_terms : nat)
    : list TrendRecord :=
  let trends :=
    List.concat
      (map_indexed
         (fun i (_ : string) => topic_page (fetched (_fetch (net i) 3)) (chance i))
         0 topic_urls) in
  firstn limit_terms (shuffle trends).

Definition source_unsplash_api_or_topics (unsplash_key : string)
    (answers : nat -> option (list (option string * option string)))
    (net : nat -> nat -> GetResult) (chance : nat -> Chance)
    (shuffle : list TrendRecord -> list TrendRecord) (limit_terms : nat)
    : list TrendRecord :=
  if negb (PyStr.is_empty unsplash_key)
  then _unsplash_api answers chance shuffle limit_terms
  else _unsplash_topics_html net chance shuffle limit_terms.

(** *** Google Trends *)

Definition pytrends_seeds : list string :=
  ["artificial intelligence"; "business"; "healthy food"; "nature";
   "education"; "wellness"; "3d render"].

(** The body of the loop on one seed.  [rows] holds the "query" of the
    rows of [rising] that were worked on: none when the request raised or
    there is no rising table, fewer than all when a later row raised. *)
Definition pytrends_seed (rows : list (option string)) (ch : Chance)
    : list TrendRecord :=
  let kws :=
    List.concat
      (map_indexed
         (fun n q =>
            let key := PyStr.lower (PyStr.strip (or_empty q)) in
            if PyStr.is_empty key then []
            else _extract_keywords (extract_order ch n) key 10)
         0 (firstn 6 rows)) in
  scored_records "pytrends" (jitter ch) kws.

(** [PYTRENDS_OK] tells whether the library could be imported,
    [client_ok] whether [TrendReq(...)] returned. *)
Definition source_pytrends (PYTRENDS_OK client_ok : bool)
    (answers : nat -> list (option string)) (chance : nat -> Chance)
    (shuffle : list TrendRecord -> list TrendRecord) (limit_terms : nat)
    : list TrendRecord :=
  if negb PYTRENDS_OK then []
  else if negb client_ok then []
  else
    let trends :=
      List.concat
        (map_indexed (fun i (_ : string) => pytrends_seed (answers i) (chance i))
                     0 pytrends_seeds) in
    firstn limit_terms (shuffle trends).

(** A record as an adapter builds it for source [src]. *)
Definition well_scored (src : string) (t : TrendRecord) : Prop :=
  source t = src
  /\ category t = _categorize (keyword t)
  /\ 50 <= popularity t <= 99.

(** The random orders of [ch] only reorder. *)
Definition chance_fair (ch : Chance) : Prop :=
  (forall n l, Permutation (extract_order ch n l) l)
  /\ (forall l, Permutation (set_order ch l) l).

(** A keyword that is its own dedup key. *)
Definition keyword_normalized (t : TrendRecord) : Prop :=
  normalize (keyword t) = keyword t /\ keyword t <> "".

(** *** Reading the loop over the pool event by event *)

(** The list a yielded future adds to [all_trends]. *)
Definition returned_list (ev : string * FutureResult) : list TrendRecord :=
  match snd ev with
  | Returned res => res
  | Raised _ => []
  end.

(** Whether a yielded future names its source in [used_sources]. *)
Definition contributed (ev : string * FutureResult) : bool :=
  match snd ev with
  | Returned (_ :: _) => true
  | _ => false
  end.

(** The dedup key of a record. *)
Definition record_key (t : TrendRecord) : string := normalize (keyword t).

Definition all_categories : list Category :=
  [technology; business; medical; education; food; nature; lifestyle; general].

Definition sum_counts (l : list CategorySummary) : Z :=
  fold_right (fun e acc => count e + acc) 0 l.

(** * Properties *)

(** ** Insertion-ordered dicts *)

Module DictFacts.
Section Facts.
Context {K V : Type}.
Variable eqb : K -> K -> bool.
Hypothesis eqb_spec : forall a b, reflect (a = b) (eqb a b).

Local Abbreviation lookup := (Dict.lookup eqb).
Local Abbreviation set := (Dict.set eqb).
Local Abbreviation keys := (@Dict.keys K V).
Local Abbreviation values := (@Dict.values K V).

Lemma lookup_set_eq (d : list (K * V)) k v : lookup (set d k v) k = Some v.
Proof.
  induction d as [|[k' v'] d IH]; simpl.
  - destruct (eqb_spec k k); congruence.
  - destruct (eqb_spec k' k) as [->|Hne]; simpl.
    + destruct (eqb_spec k k); congruence.
    + destruct (eqb_spec k' k); congruence.
Qed.

Lemma lookup_set_ne (d : list (K * V)) k k' v :
  k <> k' -> lookup (set d k v) k' = lookup d k'.
Proof.
  intros Hne. induction d as [|[k0 v0] d IH]; simpl.
  - destruct (eqb_spec k k'); congruence.
  - destruct (eqb_spec k0 k) as [->|H0]; simpl.
    + destruct (eqb_spec k k'); congruence.
    + destruct (eqb_spec k0 k'); congruence.
Qed.

Lemma lookup_None_keys (d : list (K * V)) k :
  lookup d k = None <-> ~ In k (keys d).
Proof.
  induction d as [|[k' v'] d IH]; simpl.
  - tauto.
  - destruct (eqb_spec k' k) as [->|Hne].
    + split; [discriminate | tauto].
    + rewrite IH. tauto.
Qed.

Lemma lookup_Some_keys (d : list (K * V)) k v :
  lookup d k = Some v -> In k (keys d).
Proof.
  intros H. destruct (in_dec (fun a b => reflect_dec _ _ (eqb_spec a b)) k (keys d))
    as [Hin|Hout]; [exact Hin|].
  apply lookup_None_keys in Hout. congruence.
Qed.

Lemma lookup_In (d : list (K * V)) k v : lookup d k = Some v -> In (k, v) d.
Proof.
  induction d as [|[k' v'] d IH]; simpl; [discriminate|].
  destruct (eqb_spec k' k) as [->|Hne]; intros H.
  - left. congruence.
  - right. auto.
Qed.

Lemma In_lookup (d : list (K * V)) k v :
  NoDup (keys d) -> In (k, v) d -> lookup d k = Some v.
Proof.
  induction d as [|[k' v'] d IH]; simpl; [tauto|].
  intros Hnd [Heq|Hin]; inversion Hnd as [|? ? Hnotin Hnd']; subst.
  - inversion Heq; subst. destruct (eqb_spec k k); congruence.
  - destruct (eqb_spec k' k) as [->|Hne].
    + exfalso. apply Hnotin. change k with (fst (k, v)). now apply in_map.
    + auto.
Qed.

Lemma keys_set (d : list (K * V)) k v :
  keys (set d k v) =
  match lookup d k with Some _ => keys d | None => keys d ++ [k] end.
Proof.
  induction d as [|[k' v'] d IH]; simpl; [reflexivity|].
  destruct (eqb_spec k' k) as [->|Hne]; simpl; [reflexivity|].
  rewrite IH. now destruct (lookup d k).
Qed.

Lemma NoDup_keys_set (d : list (K * V)) k v :
  NoDup (keys d) -> NoDup (keys (set d k v)).
Proof.
  intros Hnd. rewrite keys_set. destruct (lookup d k) eqn:E; [exact Hnd|].
  apply lookup_None_keys in E.
  apply (Permutation_NoDup (Permutation_cons_append _ k)).
  now constructor.
Qed.

(** With distinct keys, the values are the lookups of the keys. *)
Lemma values_lookup (d : list (K * V)) (dflt : V) :
  NoDup (keys d) ->
  values d = map (fun k => Dict.get eqb d k dflt) (keys d).
Proof.
  intros Hnd. unfold Dict.values, Dict.keys. rewrite map_map.
  apply map_ext_in. intros [k v] Hin. unfold Dict.get. simpl.
  now rewrite (In_lookup d k v Hnd Hin).
Qed.

(** With distinct keys, the items under one key are the looked-up one. *)
Lemma filter_key_lookup (d : list (K * V)) k v :
  NoDup (keys d) -> lookup d k = Some v ->
  filter (fun kv => eqb (fst kv) k) d = [(k, v)].
Proof.
  induction d as [|[k' v'] d IH]; simpl; [discriminate|].
  intros Hnd. inversion Hnd as [|? ? Hnotin Hnd']; subst.
  destruct (eqb_spec k' k) as [->|Hne]; intros H.
  - inversion H; subst. f_equal.
    clear IH Hnd Hnd' H. induction d as [|[k1 v1] d IH]; simpl; [reflexivity|].
    simpl in Hnotin. destruct (eqb_spec k1 k) as [->|Hne]; [tauto|].
    apply IH. tauto.
  - auto.
Qed.
Lemma In_set_inv (d : list (K * V)) k v kv :
  In kv (set d k v) -> kv = (k, v) \/ In kv d.
Proof.
  induction d as [|[k' v'] d IH]; simpl.
  - intros [<-|[]]. now left.
  - destruct (eqb_spec k' k) as [->|Hne]; simpl; intros [<-|H]; auto.
    destruct (IH H); auto.
Qed.
End Facts.
End DictFacts.

(** ** The stable descending sort *)

Section SortFacts.
Context {A K : Type}.
Variable key : A -> K.
Variable ltb : K -> K -> bool.
Hypothesis ltb_asym : forall a b, ltb a b = true -> ltb b a = false.
Hypothesis geb_trans :
  forall a b c, ltb a b = false -> ltb b c = false -> ltb a c = false.

Lemma insert_desc_perm (x : A) (l : list A) :
  Permutation (insert_desc key ltb x l) (x :: l).
Proof.
  induction l as [|y l IH]; simpl; [reflexivity|].
  destruct (ltb (key x) (key y)); [|reflexivity].
  rewrite IH. apply perm_swap.
Qed.

Lemma sorted_reverse_perm (l : list A) :
  Permutation (sorted_reverse key ltb l) l.
Proof.
  induction l as [|x l IH]; simpl; [reflexivity|].
  rewrite insert_desc_perm. now constructor.
Qed.

Lemma sorted_reverse_length (l : list A) :
  List.length (sorted_reverse key ltb l) = List.length l.
Proof. apply Permutation_length, sorted_reverse_perm. Qed.

Lemma insert_desc_sorted (x : A) (l : list A) :
  StronglySorted (not_below key ltb) l ->
  StronglySorted (not_below key ltb) (insert_desc key ltb x l).
Proof.
  induction l as [|y l IH]; simpl; intros Hs.
  - repeat constructor.
  - inversion Hs as [|? ? Hs' Hall]; subst.
    destruct (ltb (key x) (key y)) eqn:E.
    + constructor; [auto|].
      apply (Permutation_Forall (Permutation_sym (insert_desc_perm x l))).
      constructor; [|exact Hall].
      unfold not_below. now apply ltb_asym.
    + constructor; [exact Hs|].
      constructor; [exact E|].
      eapply Forall_impl; [|exact Hall].
      intros z Hz. unfold not_below in *. eapply geb_trans; eauto.
Qed.

Lemma sorted_reverse_sorted (l : list A) :
  StronglySorted (not_below key ltb) (sorted_reverse key ltb l).
Proof.
  induction l as [|x l IH]; simpl; [constructor|].
  now apply insert_desc_sorted.
Qed.

Lemma filter_ties_insert_desc (c : K) (x : A) (l : list A) :
  filter (ties key ltb c) (insert_desc key ltb x l) = filter (ties key ltb c) (x :: l).
Proof.
  induction l as [|y l IH]; [reflexivity|].
  simpl insert_desc. destruct (ltb (key x) (key y)) eqn:E; [|reflexivity].
  cbn [filter]. rewrite IH. cbn [filter].
  destruct (ties key ltb c x) eqn:Ex, (ties key ltb c y) eqn:Ey; simpl; try reflexivity.
  exfalso. unfold ties in Ex, Ey.
  apply andb_true_iff in Ex as [_ Ex]. apply andb_true_iff in Ey as [Ey _].
  apply negb_true_iff in Ex, Ey.
  rewrite (geb_trans _ _ _ Ex Ey) in E. discriminate.
Qed.

(** Stability: the items that tie on a key keep their order. *)
Lemma sorted_reverse_stable (c : K) (l : list A) :
  filter (ties key ltb c) (sorted_reverse key ltb l) = filter (ties key ltb c) l.
Proof.
  induction l as [|x l IH]; [reflexivity|].
  simpl sorted_reverse. rewrite filter_ties_insert_desc. simpl. now rewrite IH.
Qed.
End SortFacts.

Section SortMap.
Context {A B K : Type}.
Variable f : A -> B.
Variable key : B -> K.
Variable ltb : K -> K -> bool.

Lemma insert_desc_map (x : A) (l : list A) :
  map f (insert_desc (fun a => key (f a)) ltb x l)
  = insert_desc key ltb (f x) (map f l).
Proof.
  induction l as [|y l IH]; simpl; [reflexivity|].
  destruct (ltb (key (f x)) (key (f y))); simpl; [now rewrite IH|reflexivity].
Qed.

(** Sorting commutes with a map that carries the key along. *)
Lemma sorted_reverse_map (l : list A) :
  map f (sorted_reverse (fun a => key (f a)) ltb l)
  = sorted_reverse key ltb (map f l).
Proof.
  induction l as [|x l IH]; simpl; [reflexivity|].
  now rewrite insert_desc_map, IH.
Qed.
End SortMap.

Section SortedUnique.
Context {K : Type}.
Variable R : K -> K -> Prop.
Hypothesis R_antisym : forall a b, R a b -> R b a -> a = b.

(** Two sorted arrangements of the same items coincide. *)
Lemma sorted_perm_unique (l l' : list K) :
  StronglySorted R l -> StronglySorted R l' -> Permutation l l' -> l = l'.
Proof.
  revert l'. induction l as [|x l IH]; intros l' Hs Hs' Hp.
  - now apply Permutation_nil in Hp.
  - destruct l' as [|y l'].
    + apply Permutation_sym, Permutation_nil in Hp. discriminate.
    + inversion Hs as [|? ? Hs1 Hall]; subst.
      inversion Hs' as [|? ? Hs1' Hall']; subst.
      assert (x = y) as ->.
      { assert (Hx : In x (y :: l')) by (eapply Permutation_in; [exact Hp|now left]).
        assert (Hy : In y (x :: l))
          by (eapply Permutation_in; [exact (Permutation_sym Hp)|now left]).
        destruct Hx as [->|Hx]; [reflexivity|].
        destruct Hy as [->|Hy]; [reflexivity|].
        rewrite Forall_forall in Hall, Hall'. auto. }
      f_equal. apply IH; auto. eapply Permutation_cons_inv; eauto.
Qed.
End SortedUnique.

Lemma NoDup_map_injective {A B : Type} (f : A -> B) (l : list A) :
  NoDup (map f l) ->
  forall x y, In x l -> In y l -> f x = f y -> x = y.
Proof.
  induction l as [|a l IH]; intros Hnd x y Hx Hy Hf; [destruct Hx|].
  simpl in Hnd. inversion Hnd as [|? ? Hnotin Hnd']; subst.
  destruct Hx as [->|Hx], Hy as [->|Hy]; auto.
  - exfalso. apply Hnotin. rewrite Hf. now apply in_map.
  - exfalso. apply Hnotin. rewrite <- Hf. now apply in_map.
Qed.

Lemma map_eq_injective {A B : Type} (f : A -> B) (a b : list A) :
  map f a = map f b ->
  (forall x y, In x a -> In y b -> f x = f y -> x = y) ->
  a = b.
Proof.
  revert b. induction a as [|x a IH]; intros [|y b] Hm Hinj; try discriminate;
    [reflexivity|].
  simpl in Hm. inversion Hm as [[Hxy Hab]].
  f_equal.
  - apply Hinj; simpl; auto.
  - apply IH; [exact Hab|]. intros; apply Hinj; simpl; auto.
Qed.

Section SortCanonical.
Context {A K : Type}.
Variable key : A -> K.
Variable ltb : K -> K -> bool.
Hypothesis ltb_asym : forall a b, ltb a b = true -> ltb b a = false.
Hypothesis geb_trans :
  forall a b c, ltb a b = false -> ltb b c = false -> ltb a c = false.
Hypothesis geb_antisym : forall a b, ltb a b = false -> ltb b a = false -> a = b.

(** Sorting sees only the keys: permuted inputs give the same key
    sequence. *)
Lemma sorted_reverse_keys_perm (l l' : list A) :
  Permutation l l' ->
  map key (sorted_reverse key ltb l) = map key (sorted_reverse key ltb l').
Proof.
  intros Hp.
  rewrite !(sorted_reverse_map key (fun x => x) ltb).
  apply (sorted_perm_unique (not_below (fun x => x) ltb)).
  - intros a b. unfold not_below. apply geb_antisym.
  - now apply sorted_reverse_sorted.
  - now apply sorted_reverse_sorted.
  - rewrite !sorted_reverse_perm. now apply Permutation_map.
Qed.

(** With pairwise different keys there are no ties to break: permuted
    inputs give the same list. *)
Lemma sorted_reverse_perm_distinct (l l' : list A) :
  Permutation l l' -> NoDup (map key l) ->
  sorted_reverse key ltb l = sorted_reverse key ltb l'.
Proof.
  intros Hp Hnd. apply (map_eq_injective key).
  - now apply sorted_reverse_keys_perm.
  - intros x y Hx Hy. apply (NoDup_map_injective key l Hnd).
    + exact (Permutation_in x (sorted_reverse_perm key ltb l) Hx).
    + apply (Permutation_in y (Permutation_sym Hp)).
      exact (Permutation_in y (sorted_reverse_perm key ltb l') Hy).
Qed.
End SortCanonical.

(** ** Filter and dedup *)

Lemma dedup_step_filtered (u : list (string * TrendRecord)) (t : TrendRecord) :
  passes_filter (normalize (keyword t)) = false -> dedup_step u t = u.
Proof.
  unfold dedup_step, passes_filter. intros H.
  destruct ((3 <=? _)%nat && (_ <=? 50)%nat); simpl in *; [|reflexivity].
  apply negb_false_iff in H. now rewrite H.
Qed.

Lemma dedup_step_passed (u : list (string * TrendRecord)) (t : TrendRecord) :
  passes_filter (normalize (keyword t)) = true ->
  dedup_step u t =
  match Dict.lookup String.eqb u (normalize (keyword t)) with
  | None => Dict.set String.eqb u (normalize (keyword t)) t
  | Some cur =>
      if replaces t cur then Dict.set String.eqb u (normalize (keyword t)) t
      else u
  end.
Proof.
  unfold dedup_step, passes_filter. intros H.
  apply andb_true_iff in H as [H1 H2]. rewrite H1. simpl.
  apply negb_true_iff in H2. now rewrite H2.
Qed.

Lemma dedup_step_lookup (u : list (string * TrendRecord)) (t : TrendRecord) k :
  Dict.lookup String.eqb (dedup_step u t) k
  = pick k (Dict.lookup String.eqb u k) t.
Proof.
  unfold pick. destruct (passes_filter (normalize (keyword t))) eqn:Hp; simpl.
  - rewrite dedup_step_passed by exact Hp.
    destruct (String.eqb_spec (normalize (keyword t)) k) as [<-|Hne].
    + unfold keep.
      destruct (Dict.lookup String.eqb u (normalize (keyword t))) as [cur|] eqn:E.
      * destruct (replaces t cur).
        -- apply (DictFacts.lookup_set_eq _ String.eqb_spec).
        -- exact E.
      * apply (DictFacts.lookup_set_eq _ String.eqb_spec).
    + destruct (Dict.lookup String.eqb u (normalize (keyword t))) as [cur|];
        [destruct (replaces t cur)|]; try reflexivity;
        now apply (DictFacts.lookup_set_ne _ String.eqb_spec).
  - now rewrite dedup_step_filtered.
Qed.

Lemma dedup_from_lookup (l : list TrendRecord) (u : list (string * TrendRecord)) k :
  Dict.lookup String.eqb (fold_left dedup_step l u) k
  = fold_left (pick k) l (Dict.lookup String.eqb u k).
Proof.
  revert u. induction l as [|t l IH]; intros u; simpl; [reflexivity|].
  now rewrite IH, dedup_step_lookup.
Qed.

Lemma dedup_lookup (l : list TrendRecord) k :
  Dict.lookup String.eqb (dedup l) k = fold_left (pick k) l None.
Proof. apply dedup_from_lookup. Qed.

Lemma dedup_step_NoDup (u : list (string * TrendRecord)) (t : TrendRecord) :
  NoDup (Dict.keys u) -> NoDup (Dict.keys (dedup_step u t)).
Proof.
  intros Hnd. destruct (passes_filter (normalize (keyword t))) eqn:Hp.
  - rewrite dedup_step_passed by exact Hp.
    destruct (Dict.lookup String.eqb u _) as [cur|];
      [destruct (replaces t cur)|]; auto;
      now apply (DictFacts.NoDup_keys_set _ String.eqb_spec).
  - now rewrite dedup_step_filtered.
Qed.

Lemma dedup_NoDup (l : list TrendRecord) : NoDup (Dict.keys (dedup l)).
Proof.
  unfold dedup.
  assert (H : forall u : list (string * TrendRecord),
             NoDup (Dict.keys u) -> NoDup (Dict.keys (fold_left dedup_step l u))).
  { induction l as [|t l IH]; intros u Hu; simpl; [exact Hu|].
    apply IH. now apply dedup_step_NoDup. }
  apply H. constructor.
Qed.

Lemma dedup_step_well_keyed l (u : list (string * TrendRecord)) (t : TrendRecord) :
  well_keyed l u -> In t l -> well_keyed l (dedup_step u t).
Proof.
  intros Hu Ht. destruct (passes_filter (normalize (keyword t))) eqn:Hp.
  - rewrite dedup_step_passed by exact Hp.
    assert (Hset : well_keyed l (Dict.set String.eqb u (normalize (keyword t)) t)).
    { intros k v Hin. apply (DictFacts.In_set_inv _ String.eqb_spec) in Hin as [Heq|Hin]; [|now apply Hu].
      inversion Heq; subst. auto. }
    destruct (Dict.lookup String.eqb u _) as [cur|];
      [destruct (replaces t cur)|]; auto.
  - now rewrite dedup_step_filtered.
Qed.

Lemma dedup_well_keyed (l : list TrendRecord) : well_keyed l (dedup l).
Proof.
  unfold dedup.
  assert (H : forall l0 u, well_keyed l u -> incl l0 l ->
                           well_keyed l (fold_left dedup_step l0 u)).
  { induction l0 as [|t l0 IH]; intros u Hu Hincl; simpl; [exact Hu|].
    apply IH.
    - apply dedup_step_well_keyed; [exact Hu|]. apply Hincl. now left.
    - intros x Hx. apply Hincl. now right. }
  apply H; [intros k v []|apply incl_refl].
Qed.

Lemma pick_hit (k : string) (o : option TrendRecord) (t : TrendRecord) :
  normalize (keyword t) = k -> passes_filter k = true ->
  pick k o t = Some (keep o t).
Proof. intros Hk Hp. unfold pick. now rewrite Hk, Hp, String.eqb_refl. Qed.

Lemma pick_other (k : string) (l : list TrendRecord) (o : option TrendRecord) :
  (forall t, In t l -> normalize (keyword t) <> k) ->
  fold_left (pick k) l o = o.
Proof.
  revert o. induction l as [|t l IH]; intros o H; simpl; [reflexivity|].
  rewrite IH by (intros; apply H; now right).
  unfold pick. destruct (String.eqb_spec (normalize (keyword t)) k) as [E|_].
  - exfalso. apply (H t); [now left|exact E].
  - now rewrite andb_false_r.
Qed.

Lemma pick_filtered (k : string) (l : list TrendRecord) (o : option TrendRecord) :
  passes_filter k = false -> fold_left (pick k) l o = o.
Proof.
  intros Hk. revert o. induction l as [|t l IH]; intros o; simpl; [reflexivity|].
  rewrite IH. unfold pick.
  destruct (String.eqb_spec (normalize (keyword t)) k) as [->|_].
  - now rewrite Hk.
  - now rewrite andb_false_r.
Qed.

Lemma pick_some (k : string) (l : list TrendRecord) (s : TrendRecord) :
  exists s', fold_left (pick k) l (Some s) = Some s'.
Proof.
  revert s. induction l as [|t l IH]; intros s; simpl; [eauto|].
  unfold pick at 2. destruct (_ && _); apply IH.
Qed.

Lemma pick_found (k : string) (l : list TrendRecord) (o : option TrendRecord) (t : TrendRecord) :
  In t l -> normalize (keyword t) = k -> passes_filter k = true ->
  exists s, fold_left (pick k) l o = Some s.
Proof.
  revert o. induction l as [|t' l IH]; intros o Hin Hk Hp; [destruct Hin|].
  simpl. destruct Hin as [->|Hin].
  - rewrite (pick_hit k o t Hk Hp). apply pick_some.
  - now apply IH.
Qed.

(** The running maximum is not below what was stored nor below any
    candidate of the key that passed the filter. *)
Lemma pick_strength_max (k : string) (l : list TrendRecord) (o : option (Z * Z)) (m : Z * Z) :
  fold_left (pick_strength k) l o = Some m ->
  (forall c, o = Some c -> strength_ltb m c = false)
  /\ (forall t, In t l -> normalize (keyword t) = k -> passes_filter k = true ->
                 strength_ltb m (strength t) = false).
Proof.
  assert (Hrefl : forall x, strength_ltb x x = false).
  { intros x. unfold strength_ltb.
    now rewrite !Z.ltb_irrefl, andb_false_r. }
  assert (Htrans : forall x y z, strength_ltb x y = false ->
                                 strength_ltb y z = false ->
                                 strength_ltb x z = false).
  { intros [x1 x2] [y1 y2] [z1 z2]. unfold strength_ltb. simpl.
    rewrite !orb_false_iff, !andb_false_iff, !Z.ltb_ge, !Z.eqb_neq. lia. }
  assert (Hasym : forall x y, strength_ltb x y = true -> strength_ltb y x = false).
  { intros [x1 x2] [y1 y2]. unfold strength_ltb. simpl.
    rewrite orb_true_iff, andb_true_iff, orb_false_iff, andb_false_iff,
      !Z.ltb_lt, !Z.ltb_ge, Z.eqb_eq, Z.eqb_neq. lia. }
  revert o. induction l as [|t l IH]; intros o Hf; simpl in Hf.
  - split; [|intros t []]. intros c ->. inversion Hf; subst. apply Hrefl.
  - destruct (IH _ Hf) as [Ho Hl]. unfold pick_strength in Ho.
    split.
    + intros c ->.
      destruct (passes_filter _ && _); [|now apply Ho].
      destruct (strength_ltb c (strength t)) eqn:E; [|now apply Ho].
      eapply Htrans; [apply (Ho _ eq_refl)|]. now apply Hasym.
    + intros t' [<-|Hin] Hk Hp; [|now apply Hl].
      rewrite Hk, Hp, String.eqb_refl in Ho. simpl in Ho.
      destruct o as [c|]; [|now apply Ho].
      destruct (strength_ltb c (strength t)) eqn:E; [now apply Ho|].
      eapply Htrans; [apply (Ho _ eq_refl)|exact E].
Qed.

Example dedup_remote_work :
  Dict.values (dedup [mkTrend "remote work" 95 business "pytrends";
                      mkTrend "remote work" 80 business "seasonal"])
  = [mkTrend "remote work" 95 business "pytrends"].
Proof. reflexivity. Qed.

Example dedup_priority_tie :
  Dict.values (dedup [mkTrend "City Park" 85 general "unsplash_api";
                      mkTrend " city park" 85 general "pexels_api"])
  = [mkTrend " city park" 85 general "pexels_api"].
Proof. reflexivity. Qed.

(** C3. Two candidates [a] (processed first) and [b] with the same
    normalized keyword [k], which passes the filter, among candidates of
    other keys: exactly one item is stored under [k].  It is the one with
    the strictly higher popularity; on equal popularity the one with the
    strictly higher source priority, where
    pytrends > pexels_api > unsplash_api > unsplash_topics > seasonal;
    and [a], the earlier one, when both tie. *)
Theorem C3_dedup_keeps_best
    (l1 l2 l3 : list TrendRecord) (a b : TrendRecord) (k : string) :
  normalize (keyword a) = k -> normalize (keyword b) = k ->
  passes_filter k = true ->
  (forall t, In t (l1 ++ l2 ++ l3) -> normalize (keyword t) <> k) ->
  (exists s,
     filter (fun kv => String.eqb (fst kv) k)
            (dedup (l1 ++ a :: l2 ++ b :: l3)) = [(k, s)]
     /\ (popularity a > popularity b -> s = a)
     /\ (popularity b > popularity a -> s = b)
     /\ (popularity a = popularity b -> priority a > priority b -> s = a)
     /\ (popularity a = popularity b -> priority b > priority a -> s = b)
     /\ (popularity a = popularity b -> priority a = priority b -> s = a))
  /\ priority_of "pytrends" > priority_of "pexels_api"
  /\ priority_of "pexels_api" > priority_of "unsplash_api"
  /\ priority_of "unsplash_api" > priority_of "unsplash_topics"
  /\ priority_of "unsplash_topics" > priority_of "seasonal".
Proof.
  intros Ha Hb Hk Hother. split; [|repeat split].
  exists (keep (Some a) b). split.
  - apply (DictFacts.filter_key_lookup _ String.eqb_spec); [apply dedup_NoDup|].
    rewrite dedup_lookup.
    rewrite fold_left_app. simpl. rewrite fold_left_app. simpl.
    rewrite (pick_other k l1) by (intros; apply Hother; apply in_or_app; auto).
    rewrite (pick_hit k None a Ha Hk).
    rewrite (pick_other k l2)
      by (intros; apply Hother; apply in_or_app; right; apply in_or_app; auto).
    rewrite (pick_hit k _ b Hb Hk).
    apply pick_other.
    intros; apply Hother; apply in_or_app; right; apply in_or_app; auto.
  - unfold keep, replaces.
    destruct (Z.gtb_spec (popularity b) (popularity a));
      destruct (Z.eqb_spec (popularity b) (popularity a));
      destruct (Z.gtb_spec (priority b) (priority a)); simpl;
      repeat split; intros; try reflexivity; lia.
Qed.

Lemma C3_dedup_keeps_best_witness :
  exists s,
    filter (fun kv => String.eqb (fst kv) "remote work")
      (dedup ([mkTrend "ocean" 90 nature "pexels_api"]
                ++ mkTrend "Remote Work" 85 business "unsplash_api"
                :: [] ++ mkTrend "remote work " 85 business "pytrends" :: []))
    = [("remote work", s)]
    /\ s = mkTrend "remote work " 85 business "pytrends".
Proof.
  destruct (C3_dedup_keeps_best
              [mkTrend "ocean" 90 nature "pexels_api"] [] []
              (mkTrend "Remote Work" 85 business "unsplash_api")
              (mkTrend "remote work " 85 business "pytrends")
              "remote work")
    as [[s (Hs & _ & _ & _ & Hprio & _)] _].
  - reflexivity.
  - reflexivity.
  - reflexivity.
  - intros t [<-|[]]. vm_compute. discriminate.
  - exists s. split; [exact Hs|]. apply Hprio; reflexivity.
Defined.

(** *** Underscore runs survive normalization *)

Lemma prefix_u_cons (b : ascii) (s : string) :
  prefix "_" (String b s) = PyStr.is_underscore b.
Proof.
  unfold PyStr.is_underscore. cbn [prefix].
  destruct (ascii_dec "_" b); [now destruct s|reflexivity].
Qed.

Lemma prefix_uu_cons (a : ascii) (s : string) :
  prefix "__" (String a s) = PyStr.is_underscore a && prefix "_" s.
Proof.
  unfold PyStr.is_underscore. cbn [prefix]. destruct (ascii_dec "_" a); [|reflexivity].
  now destruct s.
Qed.

Lemma is_underscore_lower (c : ascii) :
  PyStr.is_underscore (PyStr.lower_char c) = PyStr.is_underscore c.
Proof. destruct c as [[] [] [] [] [] [] [] []]; reflexivity. Qed.

Lemma is_underscore_space (c : ascii) :
  PyStr.isspace c = true -> PyStr.is_underscore c = false.
Proof. destruct c as [[] [] [] [] [] [] [] []]; try reflexivity; discriminate. Qed.

Lemma underscore_run_cons (a : ascii) (s : string) :
  PyStr.search_underscore_run (String a s)
  = PyStr.is_underscore a && prefix "_" s || PyStr.search_underscore_run s.
Proof.
  unfold PyStr.search_underscore_run. cbn [PyStr.contains].
  now rewrite prefix_uu_cons.
Qed.

Lemma prefix_u_lower (s : string) : prefix "_" (PyStr.lower s) = prefix "_" s.
Proof.
  destruct s as [|b s]; [reflexivity|]. cbn [PyStr.lower].
  now rewrite !prefix_u_cons, is_underscore_lower.
Qed.

Lemma underscore_run_lower (s : string) :
  PyStr.search_underscore_run (PyStr.lower s) = PyStr.search_underscore_run s.
Proof.
  induction s as [|a s IH]; [reflexivity|]. cbn [PyStr.lower].
  now rewrite !underscore_run_cons, is_underscore_lower, prefix_u_lower, IH.
Qed.

Lemma underscore_run_lstrip (s : string) :
  PyStr.search_underscore_run (PyStr.lstrip s) = PyStr.search_underscore_run s.
Proof.
  induction s as [|a s IH]; [reflexivity|]. cbn [PyStr.lstrip].
  destruct (PyStr.isspace a) eqn:E; [|reflexivity].
  now rewrite underscore_run_cons, (is_underscore_space a E), IH.
Qed.

Lemma prefix_u_rstrip (s : string) : prefix "_" (PyStr.rstrip s) = prefix "_" s.
Proof.
  destruct s as [|b s]; [reflexivity|]. cbn [PyStr.rstrip].
  destruct (PyStr.isspace b && PyStr.is_empty (PyStr.rstrip s)) eqn:E.
  - apply andb_true_iff in E as [E _].
    now rewrite prefix_u_cons, (is_underscore_space b E).
  - now rewrite !prefix_u_cons.
Qed.

Lemma underscore_run_rstrip (s : string) :
  PyStr.search_underscore_run (PyStr.rstrip s) = PyStr.search_underscore_run s.
Proof.
  induction s as [|a s IH]; [reflexivity|]. cbn [PyStr.rstrip].
  destruct (PyStr.isspace a && PyStr.is_empty (PyStr.rstrip s)) eqn:E.
  - apply andb_true_iff in E as [E1 E2].
    rewrite underscore_run_cons, (is_underscore_space a E1), <- IH.
    destruct (PyStr.rstrip s); [reflexivity|discriminate].
  - now rewrite !underscore_run_cons, prefix_u_rstrip, IH.
Qed.

Lemma underscore_run_normalize (s : string) :
  PyStr.search_underscore_run (normalize s) = PyStr.search_underscore_run s.
Proof.
  unfold normalize, PyStr.strip.
  now rewrite underscore_run_lower, underscore_run_rstrip, underscore_run_lstrip.
Qed.

Lemma prefix_app (t s : string) :
  prefix t s = true -> exists q, s = (t ++ q)%string.
Proof.
  revert s. induction t as [|a t IH]; intros s H.
  - now exists s.
  - destruct s as [|b s]; [discriminate|]. simpl in H.
    destruct (ascii_dec a b) as [->|]; [|discriminate].
    destruct (IH s H) as [q ->]. now exists q.
Qed.

Lemma contains_foo__bar (s : string) :
  PyStr.contains "foo__bar" s = true -> PyStr.search_underscore_run s = true.
Proof.
  induction s as [|a s IH]; [discriminate|].
  cbn [PyStr.contains]. intros H. apply orb_true_iff in H as [H|H].
  - apply prefix_app in H as [q ->]. reflexivity.
  - rewrite underscore_run_cons, (IH H). apply orb_true_r.
Qed.

(** *** The filter *)

Lemma passes_filter_spec (kw : string) :
  passes_filter kw = true <->
  (3 <= PyStr.len kw <= 50)%nat /\ PyStr.search_underscore_run kw = false.
Proof.
  unfold passes_filter.
  rewrite !andb_true_iff, negb_true_iff, !Nat.leb_le. tauto.
Qed.

Lemma dedup_key_present (l : list TrendRecord) (k : string) :
  In k (Dict.keys (dedup l)) <->
  passes_filter k = true /\ exists t, In t l /\ normalize (keyword t) = k.
Proof.
  split.
  - intros Hin. unfold Dict.keys in Hin. apply in_map_iff in Hin as [[k' v] [<- Hin]].
    destruct (dedup_well_keyed l _ _ Hin) as (Hk & Hp & Hv). simpl. eauto.
  - intros [Hp [t [Hin Hk]]].
    destruct (pick_found k l None t Hin Hk Hp) as [s Hs].
    rewrite <- dedup_lookup in Hs.
    now apply (DictFacts.lookup_Some_keys _ String.eqb_spec) in Hs.
Qed.

Example filter_ai :
  dedup [mkTrend "ai" 93 technology "pexels_api"] = [].
Proof. reflexivity. Qed.

Example filter_ai3 :
  dedup [mkTrend "ai3" 93 technology "pexels_api"]
  = [("ai3", mkTrend "ai3" 93 technology "pexels_api")].
Proof. reflexivity. Qed.

Example filter_foo__bar :
  dedup [mkTrend "foo__bar" 80 general "unsplash_topics";
         mkTrend "a longer phrase with foo__bar inside" 80 general "pytrends"]
  = [].
Proof. reflexivity. Qed.

(** C5. A candidate whose normalized keyword is shorter than 3 or longer
    than 50 characters, or holds two underscores in a row, is dropped:
    neither the record nor its key reaches [unique].  A candidate whose
    normalized keyword has 3 to 50 characters and no such run is kept: its
    key is in [unique].  So "ai" is dropped, "ai3" passes, and "foo__bar"
    is dropped, as is every keyword that contains "foo__bar", whatever its
    length. *)
Theorem C5_filter_pass (l : list TrendRecord) (t : TrendRecord) :
  In t l ->
  ((PyStr.len (normalize (keyword t)) < 3)%nat
   \/ (50 < PyStr.len (normalize (keyword t)))%nat
   \/ PyStr.search_underscore_run (normalize (keyword t)) = true ->
   ~ In (normalize (keyword t)) (Dict.keys (dedup l))
   /\ ~ In t (Dict.values (dedup l)))
  /\ ((3 <= PyStr.len (normalize (keyword t)) <= 50)%nat
      /\ PyStr.search_underscore_run (normalize (keyword t)) = false ->
      In (normalize (keyword t)) (Dict.keys (dedup l)))
  /\ (forall p c s, dedup [mkTrend "ai" p c s] = [])
  /\ (forall p c s, dedup [mkTrend "ai3" p c s] = [("ai3", mkTrend "ai3" p c s)])
  /\ (forall l' t', PyStr.contains "foo__bar" (keyword t') = true ->
                     ~ In t' (Dict.values (dedup l'))).
Proof.
  intros Hin. split; [|split; [|split; [|split]]]; try reflexivity.
  3:{ intros l' t' Hc Hv. unfold Dict.values in Hv.
      apply in_map_iff in Hv as [[k v] [<- Hv]].
      destruct (dedup_well_keyed l' _ _ Hv) as (Hk & Hp & _). simpl in Hc.
      apply passes_filter_spec in Hp as [_ Hp].
      rewrite Hk, underscore_run_normalize, (contains_foo__bar _ Hc) in Hp.
      discriminate. }
  - intros Hbad.
    assert (Hp : passes_filter (normalize (keyword t)) = false).
    { destruct (passes_filter _) eqn:E; [|reflexivity].
      apply passes_filter_spec in E. destruct E as [[? ?] E].
      destruct Hbad as [?|[?|Hu]]; [lia|lia|congruence]. }
    split.
    + rewrite dedup_key_present. intros [Hp' _]. congruence.
    + intros Hv. unfold Dict.values in Hv.
      apply in_map_iff in Hv as [[k v] [<- Hv]].
      destruct (dedup_well_keyed l _ _ Hv) as (Hk & Hp' & _).
      simpl in Hp. congruence.
  - intros Hok. apply dedup_key_present. split; [|eauto].
    now apply passes_filter_spec.
Qed.

Lemma C5_filter_pass_witness :
  In "ai3" (Dict.keys (dedup [mkTrend "ai" 90 technology "pexels_api";
                              mkTrend " AI3 " 90 technology "pexels_api"])).
Proof.
  apply (proj1 (proj2 (C5_filter_pass
           [mkTrend "ai" 90 technology "pexels_api";
            mkTrend " AI3 " 90 technology "pexels_api"]
           (mkTrend " AI3 " 90 technology "pexels_api")
           (or_intror (or_introl eq_refl))))).
  vm_compute. split; [split; lia|reflexivity].
Defined.

(** ** Seasonal fallback *)

Lemma season_of_cases (m : Z) :
  season_of m = "winter" \/ season_of m = "spring"
  \/ season_of m = "summer" \/ season_of m = "autumn".
Proof.
  unfold season_of.
  assert (H : 0 <= ((m - 1) / 3) mod 4 < 4) by (apply Z.mod_pos_bound; lia).
  assert (E : ((m - 1) / 3) mod 4 = 0 \/ ((m - 1) / 3) mod 4 = 1
              \/ ((m - 1) / 3) mod 4 = 2 \/ ((m - 1) / 3) mod 4 = 3) by lia.
  destruct E as [-> | [-> | [-> | ->]]]; simpl; auto.
Qed.

Example seasonal_november :
  map keyword (source_seasonal 11 (fun _ => 80))
  = ["autumn business"; "autumn lifestyle"; "autumn nature";
     "autumn technology"; "autumn food"; "autumn education"].
Proof. reflexivity. Qed.

(** C6. In month [m] of 1..12, with every draw of [random.randint(70, 88)]
    in its range, [source_seasonal] returns exactly six records, one per
    bucket in the order business, lifestyle, nature, technology, food,
    education; the keyword is the season, a space and the bucket, where the
    season is winter for months 1-3, spring for 4-6, summer for 7-9 and
    autumn for 10-12; the source is "seasonal" and the popularity lies in
    70..88. *)
Theorem C6_source_seasonal (m : Z) (rl : nat -> Z) :
  1 <= m <= 12 ->
  (forall i, (i < 6)%nat -> 70 <= rl i <= 88) ->
  List.length (source_seasonal m rl) = 6%nat
  /\ map keyword (source_seasonal m rl)
     = map (fun b => ((if (m <=? 3)%Z then "winter"
                       else if (m <=? 6)%Z then "spring"
                       else if (m <=? 9)%Z then "summer"
                       else "autumn") ++ " " ++ b)%string)
           ["business"; "lifestyle"; "nature"; "technology"; "food"; "education"]
  /\ Forall (fun t => source t = "seasonal" /\ 70 <= popularity t <= 88)
            (source_seasonal m rl).
Proof.
  intros Hm Hr.
  assert (E : m = 1 \/ m = 2 \/ m = 3 \/ m = 4 \/ m = 5 \/ m = 6 \/ m = 7
              \/ m = 8 \/ m = 9 \/ m = 10 \/ m = 11 \/ m = 12) by lia.
  split; [|split].
  - reflexivity.
  - repeat (destruct E as [->|E]; [reflexivity|]). subst. reflexivity.
  - unfold source_seasonal. generalize (season_of m). intros s.
    repeat (constructor; [split; [reflexivity|apply Hr; lia]|]). constructor.
Qed.

Lemma C6_source_seasonal_witness :
  map keyword (source_seasonal 7 (fun i => 70 + Z.of_nat i))
  = ["summer business"; "summer lifestyle"; "summer nature";
     "summer technology"; "summer food"; "summer education"].
Proof.
  apply (proj1 (proj2 (C6_source_seasonal 7 (fun i => 70 + Z.of_nat i)
                         ltac:(lia) ltac:(intros; lia)))).
Defined.

(** ** Orchestrator: gathering and the never-empty guarantee *)

Lemma collect_unfold (w : World) :
  global_timeout_expired w = false ->
  collect w =
  let st := fold_left gather_step (completed w) ([], []) in
  let all_trends := merge_seasonal w (fst st) in
  let top := top_trends (dedup all_trends) in
  Return (mkResult (scrape_clock w) (elapsed w)
            (if existsb (String.eqb "seasonal") (snd st) then snd st
             else snd st ++ ["seasonal"])
            (List.length all_trends) top (build_categories top)
            (filter is_seasonal top)).
Proof.
  intros H. unfold collect, gather. rewrite H.
  now destruct (fold_left gather_step (completed w) ([], [])).
Qed.

Lemma collect_raises (w : World) :
  global_timeout_expired w = true -> collect w = Raise TimeoutError.
Proof. intros H. unfold collect, gather. now rewrite H. Qed.

(** Whatever [collect] returns was built by the code after the pool. *)
Lemma collect_inv (w : World) (r : CollectionResult) :
  collect w = Return r ->
  trending_searches r = top_trends (dedup (candidates w))
  /\ popular_categories r = build_categories (trending_searches r)
  /\ seasonal_trends r = filter is_seasonal (trending_searches r).
Proof.
  destruct (global_timeout_expired w) eqn:E.
  - rewrite collect_raises by exact E. discriminate.
  - rewrite collect_unfold by exact E. cbv zeta. intros H. inversion H.
    cbn [trending_searches popular_categories seasonal_trends].
    repeat split; reflexivity.
Qed.

Lemma top_trends_length (u : list (string * TrendRecord)) :
  List.length (top_trends u) = Nat.min 20 (List.length u).
Proof.
  unfold top_trends, ranked. rewrite length_firstn, sorted_reverse_length.
  unfold Dict.values. now rewrite length_map.
Qed.

Lemma seasonal_first_key (m : Z) (rl : nat -> Z) :
  exists t, In t (source_seasonal m rl)
            /\ passes_filter (normalize (keyword t)) = true.
Proof.
  unfold source_seasonal.
  destruct (season_of_cases m) as [-> | [-> | [-> | ->]]];
    (eexists; split; [left; reflexivity|reflexivity]).
Qed.

(** When the loop over the pool comes to its end, whatever the adapters
    did (returned lists, empty lists, raised, timed out on their own),
    [collect] returns a result whose [trending_searches] has at least one
    record and whose [sources_used] contains "seasonal". *)
Lemma seasonal_guarantee_after_the_pool (w : World) :
  global_timeout_expired w = false ->
  exists r, collect w = Return r
            /\ (1 <= List.length (trending_searches r))%nat
            /\ In "seasonal" (sources_used r).
Proof.
  intros H. rewrite (collect_unfold w H). cbv zeta.
  eexists. split; [reflexivity|]. cbn [trending_searches sources_used]. split.
  - rewrite top_trends_length.
    destruct (seasonal_first_key (month w) (roll w)) as [t [Hin Hp]].
    assert (Hk : In (normalize (keyword t))
                    (Dict.keys (dedup (merge_seasonal w
                       (fst (fold_left gather_step (completed w) ([], []))))))).
    { apply dedup_key_present. split; [exact Hp|]. exists t. split; [|reflexivity].
      unfold merge_seasonal. apply in_or_app. now right. }
    unfold Dict.keys in Hk.
    destruct (dedup _) as [|kv u]; [destruct Hk|]. simpl. lia.
  - destruct (existsb _ _) eqn:E.
    + apply existsb_exists in E as [x [Hx Ex]].
      apply String.eqb_eq in Ex. now subst.
    + apply in_or_app. right. now left.
Qed.

Example seasonal_guarantee_adapters_raise :
  exists r,
    collect (mkWorld [("pexels_api", Returned []); ("unsplash", Raised OtherException);
                      ("pytrends", Raised TimeoutError)]
                     false 11 (fun _ => 80) "2026-11-03T09:00:00" (3 # 2))
    = Return r
    /\ (1 <= List.length (trending_searches r))%nat
    /\ In "seasonal" (sources_used r).
Proof.
  apply (seasonal_guarantee_after_the_pool
           (mkWorld [("pexels_api", Returned []); ("unsplash", Raised OtherException);
                     ("pytrends", Raised TimeoutError)]
                    false 11 (fun _ => 80) "2026-11-03T09:00:00" (3 # 2))).
  reflexivity.
Defined.

(** C1. A run in which every adapter fails and that returns nothing: two
    adapters come back empty and the third is still running when the
    180 s of [as_completed] are over.  [collect] raises TimeoutError, so
    there is no result whose [trending_searches] has a record or whose
    [sources_used] contains "seasonal". *)
Theorem C1_all_adapters_fail_no_result :
  collect stalled_world = Raise TimeoutError
  /\ ~ (exists r, collect stalled_world = Return r
                  /\ (1 <= List.length (trending_searches r))%nat
                  /\ In "seasonal" (sources_used r)).
Proof.
  assert (H : collect stalled_world = Raise TimeoutError) by reflexivity.
  split; [exact H|].
  intros [r [Hr _]]. rewrite H in Hr. discriminate Hr.
Qed.

(** C2. With the adapters still running when the 180 s of [as_completed]
    are over, the iterator's TimeoutError leaves [collect]: no result is
    returned. *)
Theorem C2_global_timeout_escapes :
  collect (mkWorld [] true 11 (fun _ => 80) "2026-11-03T09:00:00" (1813 # 10))
  = Raise TimeoutError.
Proof. reflexivity. Qed.

(** ** Ranking *)

Lemma rank_key_ltb_asym (a b : Z * nat) :
  rank_key_ltb a b = true -> rank_key_ltb b a = false.
Proof.
  unfold rank_key_ltb. destruct a as [p m], b as [q n]. simpl.
  destruct (Z.ltb_spec p q), (Z.eqb_spec p q), (Nat.ltb_spec m n),
    (Z.ltb_spec q p), (Z.eqb_spec q p), (Nat.ltb_spec n m);
    simpl; intros; try reflexivity; try discriminate; lia.
Qed.

Lemma rank_key_ltb_false (a b : Z * nat) :
  rank_key_ltb a b = false <->
  fst b < fst a \/ (fst b = fst a /\ (snd b <= snd a)%nat).
Proof.
  unfold rank_key_ltb. destruct a as [p m], b as [q n]. simpl.
  destruct (Z.ltb_spec p q), (Z.eqb_spec p q), (Nat.ltb_spec m n);
    simpl; split; intros; try reflexivity; try discriminate; lia.
Qed.

Lemma rank_key_geb_trans (a b c : Z * nat) :
  rank_key_ltb a b = false -> rank_key_ltb b c = false ->
  rank_key_ltb a c = false.
Proof. rewrite !rank_key_ltb_false. lia. Qed.

Lemma rank_key_antisym (a b : Z * nat) :
  rank_key_ltb a b = false -> rank_key_ltb b a = false -> a = b.
Proof.
  rewrite !rank_key_ltb_false. destruct a, b. simpl. intros.
  f_equal; lia.
Qed.

Lemma ties_rank_key (x y : TrendRecord) :
  ties rank_key rank_key_ltb (rank_key x) y = same_rank x y.
Proof.
  unfold ties, same_rank.
  destruct (rank_key_ltb (rank_key x) (rank_key y)) eqn:E1;
    destruct (rank_key_ltb (rank_key y) (rank_key x)) eqn:E2; simpl;
    try (apply rank_key_ltb_asym in E1; congruence).
  - symmetry. apply andb_false_iff.
    destruct (Z.eqb_spec (popularity y) (popularity x)) as [Ep|]; [|now left].
    right. apply Nat.eqb_neq. intros En.
    unfold rank_key, rank_key_ltb in E1. simpl in E1.
    rewrite Ep, En, Z.ltb_irrefl, Nat.ltb_irrefl, andb_false_r in E1.
    discriminate.
  - symmetry. apply andb_false_iff.
    destruct (Z.eqb_spec (popularity y) (popularity x)) as [Ep|]; [|now left].
    right. apply Nat.eqb_neq. intros En.
    unfold rank_key, rank_key_ltb in E2. simpl in E2.
    rewrite Ep, En, Z.ltb_irrefl, Nat.ltb_irrefl, andb_false_r in E2.
    discriminate.
  - pose proof (rank_key_antisym _ _ E1 E2) as E. inversion E as [[Ep En]].
    now rewrite Z.eqb_refl, Nat.eqb_refl.
Qed.

Lemma StronglySorted_weaken {A : Type} (R S : A -> A -> Prop) (l : list A) :
  (forall a b, R a b -> S a b) -> StronglySorted R l -> StronglySorted S l.
Proof.
  intros HRS. induction 1 as [|x l Hs IH Hall]; constructor; [exact IH|].
  eapply Forall_impl; [|exact Hall]. intros b. apply HRS.
Qed.

Lemma ranked_sorted (u : list (string * TrendRecord)) :
  StronglySorted rank_ge (ranked u).
Proof.
  unfold ranked.
  eapply StronglySorted_weaken;
    [|apply (sorted_reverse_sorted rank_key rank_key_ltb
               rank_key_ltb_asym rank_key_geb_trans)].
  intros a b H. apply rank_key_ltb_false in H. exact H.
Qed.

Lemma StronglySorted_firstn {A : Type} (R : A -> A -> Prop) (n : nat) (l : list A) :
  StronglySorted R l -> StronglySorted R (firstn n l).
Proof.
  revert n. induction l as [|x l IH]; intros [|n] Hs; simpl; try constructor.
  - apply IH. now inversion Hs.
  - inversion Hs as [|? ? _ Hall]; subst.
    rewrite Forall_forall in *. intros y Hy. apply Hall.
    rewrite <- (firstn_skipn n l). apply in_or_app. now left.
Qed.

Lemma StronglySorted_nth_error {A : Type} (R : A -> A -> Prop) (l : list A) :
  StronglySorted R l ->
  forall i j a b, nth_error l i = Some a -> nth_error l j = Some b ->
                  (i < j)%nat -> R a b.
Proof.
  induction 1 as [|x l Hs IH Hall]; intros i j a b Hi Hj Hlt.
  - destruct i; discriminate.
  - destruct j as [|j]; [lia|]. simpl in Hj.
    destruct i as [|i]; simpl in Hi.
    + inversion Hi; subst. rewrite Forall_forall in Hall.
      apply Hall. eapply nth_error_In; eauto.
    + eapply IH; eauto. lia.
Qed.

Lemma filter_firstn_prefix {A : Type} (f : A -> bool) (n : nat) (l : list A) :
  filter f l = filter f (firstn n l) ++ filter f (skipn n l).
Proof. now rewrite <- filter_app, firstn_skipn. Qed.

Example ranking_more_words_first :
  dedup_and_rank [mkTrend "sunset" 90 general "pexels_api";
                  mkTrend "city park" 90 general "unsplash_api"]
  = [mkTrend "city park" 90 general "unsplash_api";
     mkTrend "sunset" 90 general "pexels_api"].
Proof. reflexivity. Qed.

Example ranking_ties_keep_insertion_order :
  dedup_and_rank [mkTrend "sunset" 90 general "pexels_api";
                  mkTrend "harbor" 90 general "unsplash_api";
                  mkTrend "sunset" 90 general "pytrends"]
  = [mkTrend "sunset" 90 general "pytrends";
     mkTrend "harbor" 90 general "unsplash_api"].
Proof. reflexivity. Qed.

(** C4. [trending_searches] has at most 20 records and is sorted
    descending by (popularity, word count of the keyword).  Records that
    are equal on both components stand in the order they have in the
    merged list: for each such class, what is left of it in the top 20 is
    a front part of the class as it stands in [unique.values()].  A record
    with the same popularity as another and more words stands before it;
    so at popularity 90, a keyword of 2 words stands before one of 1 word. *)
Theorem C4_ranking (w : World) (r : CollectionResult) :
  collect w = Return r ->
  (List.length (trending_searches r) <= 20)%nat
  /\ StronglySorted rank_ge (trending_searches r)
  /\ (forall x, exists rest,
        filter (same_rank x) (merged w)
        = filter (same_rank x) (trending_searches r) ++ rest)
  /\ (forall i j a b,
        nth_error (trending_searches r) i = Some a ->
        nth_error (trending_searches r) j = Some b ->
        popularity a = popularity b ->
        (word_count b < word_count a)%nat ->
        (i < j)%nat).
Proof.
  intros Hc. destruct (collect_inv w r Hc) as (Ht & _ & _).
  assert (Hs : StronglySorted rank_ge (trending_searches r)).
  { rewrite Ht. apply StronglySorted_firstn, ranked_sorted. }
  split; [|split; [exact Hs|split]].
  - rewrite Ht, top_trends_length. lia.
  - intros x. exists (filter (same_rank x) (skipn 20 (ranked (dedup (candidates w))))).
    rewrite Ht. unfold top_trends. rewrite <- filter_firstn_prefix.
    unfold merged, ranked.
    rewrite <- !(filter_ext _ _ (ties_rank_key x)).
    symmetry. apply sorted_reverse_stable, rank_key_geb_trans.
  - intros i j a b Hi Hj Hp Hw.
    destruct (Nat.lt_trichotomy i j) as [Hlt|[Heq|Hgt]]; [exact Hlt| |].
    + subst. rewrite Hi in Hj. inversion Hj; subst. lia.
    + pose proof (StronglySorted_nth_error _ _ Hs j i b a Hj Hi Hgt) as Hge.
      unfold rank_ge in Hge. lia.
Qed.

Lemma C4_ranking_witness :
  exists r,
    collect (mkWorld
               [("pexels_api", Returned [mkTrend "sunset" 90 general "pexels_api"]);
                ("unsplash", Returned [mkTrend "city park" 90 general "unsplash_api"])]
               false 2 (fun i => 70 + Z.of_nat i) "2026-02-01T08:00:00" (21 # 10))
    = Return r
    /\ (List.length (trending_searches r) <= 20)%nat
    /\ StronglySorted rank_ge (trending_searches r).
Proof.
  destruct (collect (mkWorld
               [("pexels_api", Returned [mkTrend "sunset" 90 general "pexels_api"]);
                ("unsplash", Returned [mkTrend "city park" 90 general "unsplash_api"])]
               false 2 (fun i => 70 + Z.of_nat i) "2026-02-01T08:00:00" (21 # 10)))
    as [r|e] eqn:E.
  - exists r. split; [reflexivity|].
    destruct (C4_ranking _ r E) as (Hlen & Hsorted & _).
    split; [exact Hlen|exact Hsorted].
  - vm_compute in E. discriminate E.
Defined.

(** ** Seasonal records of the result *)

(** C10. [seasonal_trends] is the list of the records of
    [trending_searches] whose source is "seasonal", in the same order; so
    each of its records is in [trending_searches].  It can be empty: the
    fallback always adds its six records to the candidates, but only those
    that reach the top 20 appear. *)
Theorem C10_seasonal_trends :
  (forall w r, collect w = Return r ->
     seasonal_trends r
     = filter (fun t => String.eqb (source t) "seasonal") (trending_searches r)
     /\ incl (seasonal_trends r) (trending_searches r))
  /\ (exists w r, collect w = Return r
        /\ List.length (source_seasonal (month w) (roll w)) = 6%nat
        /\ incl (source_seasonal (month w) (roll w)) (candidates w)
        /\ seasonal_trends r = []).
Proof.
  split.
  - intros w r Hc. destruct (collect_inv w r Hc) as (_ & _ & Hs).
    split; [exact Hs|]. rewrite Hs. intros t Ht.
    now apply filter_In in Ht.
  - exists busy_world. eexists. split; [reflexivity|].
    split; [reflexivity|]. split; [|reflexivity].
    intros t Ht. unfold candidates, merge_seasonal. apply in_or_app. now right.
Qed.

Lemma C10_seasonal_trends_witness :
  exists r, collect busy_world = Return r
            /\ seasonal_trends r
               = filter (fun t => String.eqb (source t) "seasonal")
                        (trending_searches r).
Proof.
  destruct (collect busy_world) as [r|e] eqn:E.
  - exists r. split; [reflexivity|].
    exact (proj1 (proj1 C10_seasonal_trends busy_world r E)).
  - vm_compute in E. discriminate E.
Defined.

(** ** Word count and normalization *)

Lemma split_from_length (cur : option string) (s : string) :
  List.length (PyStr.split_from cur s)
  = PyStr.count_words_from (match cur with Some _ => true | None => false end) s.
Proof.
  revert cur. induction s as [|c r IH]; intros cur; simpl.
  - now destruct cur.
  - destruct (PyStr.isspace c), cur; simpl; now rewrite IH.
Qed.

Lemma isspace_lower_char (c : ascii) :
  PyStr.isspace (PyStr.lower_char c) = PyStr.isspace c.
Proof. destruct c as [[] [] [] [] [] [] [] []]; reflexivity. Qed.

Lemma count_words_lower (b : bool) (s : string) :
  PyStr.count_words_from b (PyStr.lower s) = PyStr.count_words_from b s.
Proof.
  revert b. induction s as [|c r IH]; intros b; [reflexivity|].
  cbn [PyStr.lower PyStr.count_words_from].
  now rewrite isspace_lower_char, !IH.
Qed.

Lemma count_words_lstrip (s : string) :
  PyStr.count_words_from false (PyStr.lstrip s) = PyStr.count_words_from false s.
Proof.
  induction s as [|c r IH]; [reflexivity|].
  cbn [PyStr.lstrip PyStr.count_words_from].
  destruct (PyStr.isspace c) eqn:E.
  - now rewrite IH.
  - cbn [PyStr.count_words_from]. now rewrite E.
Qed.

Lemma count_words_rstrip (b : bool) (s : string) :
  PyStr.count_words_from b (PyStr.rstrip s) = PyStr.count_words_from b s.
Proof.
  revert b. induction s as [|c r IH]; intros b; [reflexivity|].
  cbn [PyStr.rstrip PyStr.count_words_from].
  destruct (PyStr.isspace c) eqn:E; cbn [andb].
  - destruct (PyStr.rstrip r) as [|c' r'] eqn:Er; cbn [PyStr.is_empty].
    + rewrite <- (IH false). simpl. lia.
    + cbn [PyStr.count_words_from]. rewrite E. now rewrite <- (IH false).
  - cbn [PyStr.count_words_from]. rewrite E. apply IH.
Qed.

(** Normalizing a keyword keeps its number of words. *)
Lemma split_normalize_length (s : string) :
  List.length (PyStr.split (normalize s)) = List.length (PyStr.split s).
Proof.
  unfold PyStr.split, normalize, PyStr.strip. rewrite !split_from_length.
  now rewrite count_words_lower, count_words_rstrip, count_words_lstrip.
Qed.

(** ** Dependence of the pass on the processing order *)

Lemma replaces_strength (t cur : TrendRecord) :
  replaces t cur = strength_ltb (strength cur) (strength t).
Proof.
  unfold replaces, strength_ltb, strength. simpl.
  now rewrite !Z.gtb_ltb, (Z.eqb_sym (popularity t)).
Qed.

Lemma pick_strength_spec (k : string) (o : option TrendRecord) (t : TrendRecord) :
  option_map strength (pick k o t) = pick_strength k (option_map strength o) t.
Proof.
  unfold pick, pick_strength. destruct (_ && _); [|reflexivity].
  destruct o as [cur|]; simpl; [|reflexivity].
  rewrite replaces_strength. now destruct (strength_ltb _ _).
Qed.

Lemma dedup_strength (l : list TrendRecord) (k : string) :
  option_map strength (Dict.lookup String.eqb (dedup l) k) = best_strength l k.
Proof.
  rewrite dedup_lookup. unfold best_strength.
  change (@None (Z * Z)) with (option_map strength None).
  generalize (@None TrendRecord).
  induction l as [|t l IH]; intros o; simpl; [reflexivity|].
  now rewrite IH, pick_strength_spec.
Qed.

(** Any number of candidates of one key: exactly one item is stored under
    it, it is one of them, and none of them is stronger. *)
Lemma dedup_survivor_strongest (l : list TrendRecord) (t : TrendRecord) (k : string) :
  In t l -> normalize (keyword t) = k -> passes_filter k = true ->
  exists s,
    filter (fun kv => String.eqb (fst kv) k) (dedup l) = [(k, s)]
    /\ In s l /\ normalize (keyword s) = k
    /\ strength_ltb (strength s) (strength t) = false.
Proof.
  intros Hin Hk Hp.
  destruct (pick_found k l None t Hin Hk Hp) as [s Hs].
  rewrite <- dedup_lookup in Hs. exists s.
  pose proof (DictFacts.lookup_In _ String.eqb_spec _ _ _ Hs) as Hi.
  destruct (dedup_well_keyed l k s Hi) as (Hks & _ & Hsl).
  repeat split; auto.
  - apply (DictFacts.filter_key_lookup _ String.eqb_spec); [apply dedup_NoDup|exact Hs].
  - pose proof (dedup_strength l k) as Hb. rewrite Hs in Hb. simpl in Hb.
    symmetry in Hb. now apply (pick_strength_max k l None (strength s) Hb).
Qed.

Lemma strength_ltb_spec (a b : Z * Z) :
  strength_ltb a b = true <-> fst a < fst b \/ (fst a = fst b /\ snd a < snd b).
Proof.
  unfold strength_ltb.
  rewrite orb_true_iff, andb_true_iff, !Z.ltb_lt, Z.eqb_eq. tauto.
Qed.

Lemma pick_strength_comm (k : string) (o : option (Z * Z)) (t1 t2 : TrendRecord) :
  pick_strength k (pick_strength k o t1) t2
  = pick_strength k (pick_strength k o t2) t1.
Proof.
  unfold pick_strength.
  destruct (passes_filter (normalize (keyword t1)) && _);
    destruct (passes_filter (normalize (keyword t2)) && _); try reflexivity.
  generalize (strength t1) (strength t2). intros [p1 q1] [p2 q2].
  destruct o as [[p q]|];
    repeat match goal with
           | |- context [strength_ltb ?a ?b] =>
               let E := fresh "E" in
               destruct (strength_ltb a b) eqn:E;
               [apply strength_ltb_spec in E
               |apply not_true_iff_false in E; rewrite strength_ltb_spec in E];
               simpl in E
           end; try reflexivity; try (f_equal; f_equal; lia); exfalso; lia.
Qed.

Lemma fold_left_comm_perm {A B : Type} (f : B -> A -> B) :
  (forall b x y, f (f b x) y = f (f b y) x) ->
  forall l l', Permutation l l' -> forall b, fold_left f l b = fold_left f l' b.
Proof.
  intros Hc l l' Hp. induction Hp; intros b; simpl.
  - reflexivity.
  - apply IHHp.
  - now rewrite Hc.
  - now rewrite IHHp1.
Qed.

Lemma best_strength_perm (l l' : list TrendRecord) (k : string) :
  Permutation l l' -> best_strength l k = best_strength l' k.
Proof.
  intros Hp. unfold best_strength.
  apply fold_left_comm_perm; [apply pick_strength_comm|exact Hp].
Qed.

Lemma dedup_keys_perm (l l' : list TrendRecord) :
  Permutation l l' ->
  Permutation (Dict.keys (dedup l)) (Dict.keys (dedup l')).
Proof.
  intros Hp. apply NoDup_Permutation; try apply dedup_NoDup.
  intros k. rewrite !dedup_key_present.
  split; intros [Hk [t [Hin Ht]]]; (split; [exact Hk|]); exists t; split; auto.
  - eapply Permutation_in; eauto.
  - eapply Permutation_in; [apply Permutation_sym|]; eauto.
Qed.

Lemma rank_keys_of_values (l : list TrendRecord) :
  map rank_key (Dict.values (dedup l))
  = map (rank_key_of l) (Dict.keys (dedup l)).
Proof.
  unfold Dict.values, Dict.keys. rewrite !map_map.
  apply map_ext_in. intros [k v] Hin. simpl.
  destruct (dedup_well_keyed l k v Hin) as (Hk & _ & _).
  pose proof (DictFacts.In_lookup _ String.eqb_spec _ k v (dedup_NoDup l) Hin) as Hl.
  unfold rank_key_of. rewrite <- dedup_strength, Hl. simpl.
  unfold rank_key, word_count. now rewrite Hk, split_normalize_length.
Qed.

Lemma Permutation_concat_blocks {A : Type} (bs bs' : list (list A)) :
  Permutation bs bs' -> Permutation (List.concat bs) (List.concat bs').
Proof.
  induction 1; simpl.
  - reflexivity.
  - now apply Permutation_app_head.
  - rewrite !app_assoc. apply Permutation_app_tail, Permutation_app_comm.
  - etransitivity; eauto.
Qed.

Lemma rank_keys_perm (l l' : list TrendRecord) :
  Permutation l l' ->
  map rank_key (dedup_and_rank l) = map rank_key (dedup_and_rank l').
Proof.
  intros Hp. unfold dedup_and_rank, top_trends, ranked.
  rewrite <- !firstn_map. f_equal.
  rewrite !(sorted_reverse_map rank_key (fun x => x) rank_key_ltb).
  apply (sorted_perm_unique (not_below (fun x => x) rank_key_ltb)).
  - intros a b. unfold not_below. intros H1 H2. now apply rank_key_antisym.
  - apply sorted_reverse_sorted; [apply rank_key_ltb_asym|apply rank_key_geb_trans].
  - apply sorted_reverse_sorted; [apply rank_key_ltb_asym|apply rank_key_geb_trans].
  - rewrite !sorted_reverse_perm, !rank_keys_of_values.
    rewrite (map_ext _ (rank_key_of l')).
    + apply Permutation_map, dedup_keys_perm, Hp.
    + intros k. unfold rank_key_of. now rewrite (best_strength_perm l l' k Hp).
Qed.

(** No two different candidates of one normalized keyword tie on
    popularity and source priority. *)
Lemma dedup_lookup_perm (l l' : list TrendRecord) :
  Permutation l l' ->
  (forall a b, In a l -> In b l ->
               normalize (keyword a) = normalize (keyword b) ->
               strength a = strength b -> a = b) ->
  forall k, Dict.lookup String.eqb (dedup l) k
            = Dict.lookup String.eqb (dedup l') k.
Proof.
  intros Hp Hinj k.
  pose proof (dedup_strength l k) as H1. pose proof (dedup_strength l' k) as H2.
  rewrite <- (best_strength_perm l l' k Hp) in H2. rewrite <- H1 in H2. clear H1.
  destruct (Dict.lookup String.eqb (dedup l) k) as [v|] eqn:E,
           (Dict.lookup String.eqb (dedup l') k) as [v'|] eqn:E';
    try discriminate; [|reflexivity].
  apply (DictFacts.lookup_In _ String.eqb_spec) in E, E'.
  destruct (dedup_well_keyed l k v E) as (Hk & _ & Hv).
  destruct (dedup_well_keyed l' k v' E') as (Hk' & _ & Hv').
  simpl in H2. inversion H2 as [Hs]. f_equal. apply Hinj.
  - exact Hv.
  - exact (Permutation_in v' (Permutation_sym Hp) Hv').
  - congruence.
  - congruence.
Qed.

Lemma dedup_values_perm (l l' : list TrendRecord) :
  Permutation l l' ->
  (forall a b, In a l -> In b l ->
               normalize (keyword a) = normalize (keyword b) ->
               strength a = strength b -> a = b) ->
  Permutation (Dict.values (dedup l)) (Dict.values (dedup l')).
Proof.
  intros Hp Hinj.
  rewrite (DictFacts.values_lookup _ String.eqb_spec (dedup l)
             (mkTrend "" 0 general "") (dedup_NoDup l)).
  rewrite (DictFacts.values_lookup _ String.eqb_spec (dedup l')
             (mkTrend "" 0 general "") (dedup_NoDup l')).
  rewrite (map_ext _ (fun k => Dict.get String.eqb (dedup l') k
                                 (mkTrend "" 0 general ""))).
  - apply Permutation_map, dedup_keys_perm, Hp.
  - intros k. unfold Dict.get. now rewrite (dedup_lookup_perm l l' Hp Hinj k).
Qed.

Lemma dedup_and_rank_perm_distinct (l l' : list TrendRecord) :
  Permutation l l' ->
  (forall a b, In a l -> In b l ->
               normalize (keyword a) = normalize (keyword b) ->
               strength a = strength b -> a = b) ->
  NoDup (map rank_key (Dict.values (dedup l))) ->
  dedup_and_rank l = dedup_and_rank l'.
Proof.
  intros Hp Hinj Hnd. unfold dedup_and_rank, top_trends, ranked. f_equal.
  apply sorted_reverse_perm_distinct; auto.
  - apply rank_key_ltb_asym.
  - apply rank_key_geb_trans.
  - apply rank_key_antisym.
  - now apply dedup_values_perm.
Qed.

(** ** Category summary *)

Lemma Category_eqb_spec (a b : Category) : reflect (a = b) (Category_eqb a b).
Proof. destruct a, b; simpl; constructor; congruence. Qed.

Lemma categories_step_set (cats : list (Category * CategoryAcc)) (tr : TrendRecord) :
  categories_step cats tr
  = Dict.set Category_eqb cats (category tr)
      (acc_add (match Dict.lookup Category_eqb cats (category tr) with
                | Some c => c
                | None => fresh_acc (category tr)
                end) tr).
Proof. reflexivity. Qed.

Lemma categories_step_lookup (cats : list (Category * CategoryAcc))
    (tr : TrendRecord) (c : Category) :
  Dict.lookup Category_eqb (categories_step cats tr) c
  = cat_pick c (Dict.lookup Category_eqb cats c) tr.
Proof.
  rewrite categories_step_set. unfold cat_pick.
  destruct (Category_eqb_spec (category tr) c) as [<-|Hne].
  - apply (DictFacts.lookup_set_eq _ Category_eqb_spec).
  - now apply (DictFacts.lookup_set_ne _ Category_eqb_spec).
Qed.

Lemma categories_lookup (l : list TrendRecord)
    (cats : list (Category * CategoryAcc)) (c : Category) :
  Dict.lookup Category_eqb (fold_left categories_step l cats) c
  = fold_left (cat_pick c) l (Dict.lookup Category_eqb cats c).
Proof.
  revert cats. induction l as [|tr l IH]; intros cats; simpl; [reflexivity|].
  now rewrite IH, categories_step_lookup.
Qed.

Lemma categories_NoDup (l : list TrendRecord) (cats : list (Category * CategoryAcc)) :
  NoDup (Dict.keys cats) -> NoDup (Dict.keys (fold_left categories_step l cats)).
Proof.
  revert cats. induction l as [|tr l IH]; intros cats Hnd; simpl; [exact Hnd|].
  apply IH. rewrite categories_step_set.
  now apply (DictFacts.NoDup_keys_set _ Category_eqb_spec).
Qed.

Lemma cat_pick_members (c : Category) (l : list TrendRecord) (o : option CategoryAcc) :
  fold_left (cat_pick c) l o
  = match members c l with
    | [] => o
    | m => Some (fold_left acc_add m
                   (match o with Some a => a | None => fresh_acc c end))
    end.
Proof.
  revert o. induction l as [|tr l IH]; intros o; [reflexivity|].
  cbn [fold_left]. rewrite IH. unfold members. cbn [filter]. unfold cat_pick.
  destruct (Category_eqb (category tr) c); [|reflexivity].
  now destruct (filter _ l).
Qed.

Lemma acc_add_fold (m : list TrendRecord) (a : CategoryAcc) :
  fold_left acc_add m a
  = mkAcc (acc_name a) (acc_count a + Z.of_nat (List.length m))
          (acc_avg_popularity a) (acc_total_popularity a + sum_popularity m)
          (acc_top_keywords a ++ map keyword_pair m).
Proof.
  revert a. induction m as [|t m IH]; intros a.
  - destruct a. simpl. now rewrite Z.add_0_r, Z.add_0_r, app_nil_r.
  - cbn [fold_left]. rewrite IH. unfold acc_add.
    cbn [acc_name acc_count acc_avg_popularity acc_total_popularity
         acc_top_keywords].
    f_equal.
    + cbn [List.length]. lia.
    + unfold sum_popularity. cbn [fold_right]. lia.
    + now rewrite <- app_assoc.
Qed.

Lemma finish_fresh (c : Category) (m : list TrendRecord) (top : list TrendRecord) :
  m = members c top -> m <> [] ->
  finish_category (fold_left acc_add m (fresh_acc c)) = summary_of top c.
Proof.
  intros -> Hne. rewrite acc_add_fold. unfold finish_category, summary_of, fresh_acc.
  cbn [acc_name acc_count acc_total_popularity acc_top_keywords app].
  rewrite !Z.add_0_l. f_equal. f_equal.
  destruct (members c top) as [|t m]; [congruence|].
  simpl List.length. lia.
Qed.

Lemma members_nonempty (c : Category) (top : list TrendRecord) :
  members c top <> [] <-> exists t, In t top /\ category t = c.
Proof.
  unfold members. split.
  - destruct (filter _ top) as [|t m] eqn:E; [congruence|]. intros _.
    assert (H : In t (filter (fun t => Category_eqb (category t) c) top))
      by (rewrite E; now left).
    apply filter_In in H as [Hin Hc]. exists t. split; [exact Hin|].
    now destruct (Category_eqb_spec (category t) c).
  - intros [t [Hin Hc]] E.
    assert (H : In t (filter (fun t => Category_eqb (category t) c) top)).
    { apply filter_In. split; [exact Hin|].
      now destruct (Category_eqb_spec (category t) c). }
    rewrite E in H. destruct H.
Qed.

Lemma Qltb_asym (a b : Q) : Qltb a b = true -> Qltb b a = false.
Proof.
  unfold Qltb. rewrite negb_true_iff, negb_false_iff, Qle_bool_iff.
  intros H. destruct (Qlt_le_dec a b) as [Hlt|Hle].
  - now apply Qlt_le_weak.
  - apply Qle_bool_iff in Hle. congruence.
Qed.

Lemma Qltb_false (a b : Q) : Qltb a b = false <-> (b <= a)%Q.
Proof. unfold Qltb. now rewrite negb_false_iff, Qle_bool_iff. Qed.

Lemma Qgeb_trans (a b c : Q) :
  Qltb a b = false -> Qltb b c = false -> Qltb a c = false.
Proof. rewrite !Qltb_false. intros H1 H2. eapply Qle_trans; eauto. Qed.

Lemma Zltb_asym (a b : Z) : (a <? b) = true -> (b <? a) = false.
Proof. rewrite Z.ltb_lt, Z.ltb_ge. lia. Qed.

Lemma Zgeb_trans (a b c : Z) :
  (a <? b) = false -> (b <? c) = false -> (a <? c) = false.
Proof. rewrite !Z.ltb_ge. lia. Qed.

(** The code's two loops and final sort build the summaries said directly,
    one per category present, in descending order of mean popularity. *)
Lemma build_categories_spec (top : list TrendRecord) :
  exists cats : list Category,
    NoDup cats
    /\ (forall c, In c cats <-> exists t, In t top /\ category t = c)
    /\ build_categories top = map (summary_of top) cats.
Proof.
  set (cs := fold_left categories_step top []).
  assert (Hnd : NoDup (Dict.keys cs)) by (apply categories_NoDup; constructor).
  assert (Hl : forall c, Dict.lookup Category_eqb cs c
                         = match members c top with
                           | [] => None
                           | m => Some (fold_left acc_add m (fresh_acc c))
                           end).
  { intros c. unfold cs. rewrite categories_lookup. simpl Dict.lookup.
    apply cat_pick_members. }
  assert (Hk : forall c, In c (Dict.keys cs) <-> members c top <> []).
  { intros c. split.
    - intros Hin E. apply (proj1 (DictFacts.lookup_None_keys _ Category_eqb_spec cs c));
        [|exact Hin]. rewrite Hl, E. reflexivity.
    - intros Hne. destruct (Dict.lookup Category_eqb cs c) eqn:E.
      + eapply (DictFacts.lookup_Some_keys _ Category_eqb_spec); eauto.
      + rewrite Hl in E. destruct (members c top); [congruence|discriminate]. }
  assert (Hv : map finish_category (Dict.values cs)
               = map (summary_of top) (Dict.keys cs)).
  { rewrite (DictFacts.values_lookup _ Category_eqb_spec cs (fresh_acc general) Hnd).
    rewrite map_map. apply map_ext_in. intros c Hin.
    unfold Dict.get. rewrite Hl. apply Hk in Hin.
    destruct (members c top) as [|t m] eqn:E; [congruence|].
    apply finish_fresh; [now rewrite E|discriminate]. }
  exists (sorted_reverse (fun c => avg_popularity (summary_of top c)) Qltb
            (Dict.keys cs)).
  split; [|split].
  - eapply Permutation_NoDup; [|exact Hnd].
    apply Permutation_sym, sorted_reverse_perm.
  - intros c. rewrite <- members_nonempty, <- Hk. split; intros H.
    + exact (Permutation_in c (sorted_reverse_perm _ _ _) H).
    + exact (Permutation_in c (Permutation_sym (sorted_reverse_perm _ _ _)) H).
  - unfold build_categories. fold cs. rewrite Hv.
    symmetry. apply (sorted_reverse_map (summary_of top) avg_popularity Qltb).
Qed.

Lemma build_categories_sorted (top : list TrendRecord) :
  StronglySorted (fun a b => (avg_popularity b <= avg_popularity a)%Q)
                 (build_categories top).
Proof.
  unfold build_categories.
  eapply StronglySorted_weaken;
    [|apply (sorted_reverse_sorted avg_popularity Qltb Qltb_asym Qgeb_trans)].
  intros a b H. now apply Qltb_false in H.
Qed.

Lemma mean_fraction (s : Z) (n : nat) :
  n <> 0%nat ->
  (s # Pos.of_nat n == inject_Z s / inject_Z (Z.of_nat n))%Q.
Proof.
  intros Hn. rewrite Qmake_Qdiv.
  replace (Z.pos (Pos.of_nat n)) with (Z.of_nat n); [reflexivity|].
  destruct n as [|n]; [congruence|]. rewrite <- Pos.of_nat_succ. lia.
Qed.

Lemma members_two_le (l : list TrendRecord) :
  (List.length (members technology l) + List.length (members business l)
   <= List.length l)%nat.
Proof.
  unfold members. induction l as [|t l IH]; simpl; [lia|].
  destruct (category t); simpl; lia.
Qed.

Lemma members_two_all (l : list TrendRecord) :
  (List.length (members technology l) + List.length (members business l)
   = List.length l)%nat ->
  forall t, In t l -> category t = technology \/ category t = business.
Proof.
  induction l as [|x l IH]; intros H t Hin; [destruct Hin|].
  pose proof (members_two_le l) as Hle.
  unfold members in *. simpl in H.
  destruct (category x) eqn:Ex; simpl in H; try lia;
    (destruct Hin as [<-|Hin]; [auto|apply IH; [lia|exact Hin]]).
Qed.

Example categories_two_groups :
  map (fun e => (name e, count e, avg_popularity e, top_keywords e))
      (build_categories [mkTrend "ai robot" 96 technology "pexels_api";
                         mkTrend "office desk" 90 business "pexels_api";
                         mkTrend "cloud server" 91 technology "unsplash_api"])
  = [("Technology", 2, 187 # 2, [("ai robot", 96); ("cloud server", 91)]);
     ("Business", 1, 90 # 1, [("office desk", 90)])].
Proof. reflexivity. Qed.

(** C7. [popular_categories] has exactly one entry per category that
    occurs in [trending_searches]: it is the list of the summaries of
    pairwise different categories, those that occur.  The summary of a
    category has as [count] the number of the top records of that category,
    as [avg_popularity] the sum of their popularity divided by that number,
    and as [top_keywords] the first five, at most, of their
    (keyword, popularity) pairs arranged in descending order of
    popularity.  The entries are in descending order of [avg_popularity].
    With 12 technology and 8 business records in a top 20 there are exactly
    two entries, with counts 12 and 8. *)
Theorem C7_category_aggregation (w : World) (r : CollectionResult) :
  collect w = Return r ->
  (exists cats : list Category,
     NoDup cats
     /\ (forall c, In c cats <->
                   exists t, In t (trending_searches r) /\ category t = c)
     /\ popular_categories r = map (summary_of (trending_searches r)) cats)
  /\ (forall c,
        count (summary_of (trending_searches r) c)
        = Z.of_nat (List.length (members c (trending_searches r)))
        /\ (members c (trending_searches r) <> [] ->
            (avg_popularity (summary_of (trending_searches r) c)
             == inject_Z (sum_popularity (members c (trending_searches r)))
                / inject_Z (Z.of_nat (List.length (members c (trending_searches r)))))%Q)
        /\ (List.length (top_keywords (summary_of (trending_searches r) c)) <= 5)%nat
        /\ exists L,
             Permutation L (map keyword_pair (members c (trending_searches r)))
             /\ StronglySorted (fun a b => snd b <= snd a) L
             /\ top_keywords (summary_of (trending_searches r) c) = firstn 5 L)
  /\ StronglySorted (fun a b => (avg_popularity b <= avg_popularity a)%Q)
                    (popular_categories r)
  /\ (List.length (members technology (trending_searches r)) = 12%nat ->
      List.length (members business (trending_searches r)) = 8%nat ->
      List.length (trending_searches r) = 20%nat ->
      exists e1 e2,
        Permutation (popular_categories r) [e1; e2]
        /\ name e1 = "Technology" /\ count e1 = 12
        /\ name e2 = "Business" /\ count e2 = 8).
Proof.
  intros Hc. destruct (collect_inv w r Hc) as (_ & Hp & _).
  destruct (build_categories_spec (trending_searches r)) as (cats & Hnd & Hin & Hb).
  rewrite <- Hp in Hb.
  split; [exists cats; auto|]. split; [|split].
  - intros c. split; [reflexivity|]. split; [|split].
    + intros Hne. apply mean_fraction.
      destruct (members c (trending_searches r)); [congruence|discriminate].
    + unfold summary_of. cbn [top_keywords]. rewrite length_firstn. lia.
    + eexists. split; [|split; [|reflexivity]].
      * apply sorted_reverse_perm.
      * eapply StronglySorted_weaken;
          [|apply (sorted_reverse_sorted (fun kp : string * Z => snd kp) Z.ltb
                     Zltb_asym Zgeb_trans)].
        intros a b H. unfold not_below in H. apply Z.ltb_ge in H. exact H.
  - rewrite Hp. apply build_categories_sorted.
  - intros Ht Hbz Hlen.
    assert (Hall : forall t, In t (trending_searches r) ->
                             category t = technology \/ category t = business)
      by (apply members_two_all; lia).
    assert (Hperm : Permutation cats [technology; business]).
    { apply NoDup_Permutation; [exact Hnd|repeat constructor; simpl; intuition congruence|].
      intros c. rewrite Hin. split.
      - intros [t [Hin' <-]]. simpl. destruct (Hall t Hin') as [->| ->]; auto.
      - intros [<-|[<-|[]]]; apply members_nonempty; intros E.
        + rewrite E in Ht. discriminate.
        + rewrite E in Hbz. discriminate. }
    exists (summary_of (trending_searches r) technology),
           (summary_of (trending_searches r) business).
    split; [rewrite Hb; exact (Permutation_map _ Hperm)|].
    unfold summary_of. cbn [name count]. rewrite Ht, Hbz.
    repeat split; reflexivity.
Qed.

Lemma C7_category_aggregation_witness :
  exists r, collect busy_world = Return r
            /\ StronglySorted (fun a b => (avg_popularity b <= avg_popularity a)%Q)
                              (popular_categories r).
Proof.
  destruct (collect busy_world) as [r|e] eqn:E.
  - exists r. split; [reflexivity|].
    exact (proj1 (proj2 (proj2 (C7_category_aggregation busy_world r E)))).
  - vm_compute in E. discriminate E.
Defined.

Example order_shows_in_result :
  dedup_and_rank ([mkTrend "nature" 85 nature "pexels_api"]
                    ++ [mkTrend "people" 85 lifestyle "unsplash_api"])
  = [mkTrend "nature" 85 nature "pexels_api";
     mkTrend "people" 85 lifestyle "unsplash_api"]
  /\ dedup_and_rank ([mkTrend "people" 85 lifestyle "unsplash_api"]
                       ++ [mkTrend "nature" 85 nature "pexels_api"])
     = [mkTrend "people" 85 lifestyle "unsplash_api";
        mkTrend "nature" 85 nature "pexels_api"].
Proof. split; reflexivity. Qed.

Example collect_completion_order :
  exists r1 r2,
    collect (mkWorld
               [("pexels_api", Returned [mkTrend "nature" 85 nature "pexels_api"]);
                ("unsplash", Returned [mkTrend "people" 85 lifestyle "unsplash_api"])]
               false 11 (fun _ => 80) "2026-11-03T09:00:00" (5 # 1)) = Return r1
    /\ collect (mkWorld
                  [("unsplash", Returned [mkTrend "people" 85 lifestyle "unsplash_api"]);
                   ("pexels_api", Returned [mkTrend "nature" 85 nature "pexels_api"])]
                  false 11 (fun _ => 80) "2026-11-03T09:00:00" (5 # 1)) = Return r2
    /\ map keyword (firstn 2 (trending_searches r1)) = ["nature"; "people"]
    /\ map keyword (firstn 2 (trending_searches r2)) = ["people"; "nature"].
Proof. do 2 eexists. repeat split; reflexivity. Qed.

(** C9, as stated, fails: two adapters that each return one record, of
    equal popularity and word count, come out in the order in which they
    completed. *)
Lemma C9_completion_order_shows :
  ~ (forall blocks blocks' : list (list TrendRecord),
       Permutation blocks blocks' ->
       dedup_and_rank (List.concat blocks) = dedup_and_rank (List.concat blocks')).
Proof.
  intros H.
  specialize (H [[mkTrend "nature" 85 nature "pexels_api"];
                 [mkTrend "people" 85 lifestyle "unsplash_api"]]
                [[mkTrend "people" 85 lifestyle "unsplash_api"];
                 [mkTrend "nature" 85 nature "pexels_api"]]
                (perm_swap _ _ _)).
  vm_compute in H. discriminate H.
Qed.

(** C9, amended. For every permutation of the per-adapter sublists, the
    pass stores the same normalized keywords, each with a record of the
    same popularity and source priority, and yields a [trending_searches]
    with the same sequence of (popularity, word count) pairs, hence of the
    same length.  Which records stand at positions that tie on that pair
    follows the processing order; when nothing ties (no two different
    candidates of one normalized keyword agree on popularity and source
    priority, and no two stored records agree on popularity and word
    count) the two [trending_searches] are the same list. *)
Theorem C9_rank_keys_order_independent (blocks blocks' : list (list TrendRecord)) :
  Permutation blocks blocks' ->
  map rank_key (dedup_and_rank (List.concat blocks))
  = map rank_key (dedup_and_rank (List.concat blocks'))
  /\ List.length (dedup_and_rank (List.concat blocks))
     = List.length (dedup_and_rank (List.concat blocks'))
  /\ (forall k,
       option_map strength (Dict.lookup String.eqb (dedup (List.concat blocks)) k)
       = option_map strength (Dict.lookup String.eqb (dedup (List.concat blocks')) k))
  /\ ((forall a b, In a (List.concat blocks) -> In b (List.concat blocks) ->
                   normalize (keyword a) = normalize (keyword b) ->
                   strength a = strength b -> a = b) ->
      NoDup (map rank_key (Dict.values (dedup (List.concat blocks)))) ->
      dedup_and_rank (List.concat blocks) = dedup_and_rank (List.concat blocks')).
Proof.
  intros Hp. apply Permutation_concat_blocks in Hp.
  pose proof (rank_keys_perm _ _ Hp) as Hk.
  split; [exact Hk|split; [|split]].
  - apply (f_equal (@List.length _)) in Hk. now rewrite !length_map in Hk.
  - intros k. rewrite !dedup_strength. now apply best_strength_perm.
  - intros Hinj Hnd. now apply dedup_and_rank_perm_distinct.
Qed.

Lemma C9_rank_keys_order_independent_witness :
  map rank_key
      (dedup_and_rank (List.concat [[mkTrend "nature" 85 nature "pexels_api"];
                                    [mkTrend "people" 85 lifestyle "unsplash_api"]]))
  = map rank_key
      (dedup_and_rank (List.concat [[mkTrend "people" 85 lifestyle "unsplash_api"];
                                    [mkTrend "nature" 85 nature "pexels_api"]])).
Proof.
  exact (proj1 (C9_rank_keys_order_independent _ _ (perm_swap _ _ _))).
Defined.

(** ** Scorer *)

Lemma clamp_bounds (v lo hi : Z) : lo <= hi -> lo <= clamp v lo hi <= hi.
Proof. unfold clamp. lia. Qed.

Example score_clamped_at_top : _score "ai startup" "pytrends" 2 = 99.
Proof. reflexivity. Qed.

Example score_plain_word : _score "car" "unsplash_topics" (-2) = 76.
Proof. reflexivity. Qed.

Example score_unknown_source_long_phrase :
  _score "a very long phrase that goes on and on past forty" "rss" 0 = 64.
Proof. reflexivity. Qed.

Example categorize_rule_order :
  _categorize "AI for business" = technology
  /\ _categorize "healthy food" = medical
  /\ _categorize "autumn technology" = general.
Proof. repeat split; reflexivity. Qed.

(** C8. For every keyword, every source and every value of the jitter, so
    in particular for every jitter from -2 to 2, [_score] returns an
    integer from 50 to 99 inclusive. *)
Theorem C8_score_bounds (kw src : string) (jitter : Z) :
  50 <= _score kw src jitter <= 99.
Proof. unfold _score. apply clamp_bounds. lia. Qed.

(** * Further properties of the orchestrator *)

(** ** What the pool loop gathers *)

Lemma gather_fold (evs : list (string * FutureResult))
    (all_trends : list TrendRecord) (used : list string) :
  fold_left gather_step evs (all_trends, used)
  = (all_trends ++ List.concat (map returned_list evs),
     used ++ map fst (filter contributed evs)).
Proof.
  revert all_trends used. induction evs as [|[name fut] evs IH]; intros a u.
  - simpl. now rewrite !app_nil_r.
  - cbn [fold_left]. unfold gather_step at 2.
    destruct fut as [[|t res]|e]; rewrite IH; unfold returned_list, contributed;
      cbn [snd fst map filter List.concat]; try reflexivity.
    now rewrite <- !app_assoc.
Qed.

Lemma candidates_eq (w : World) :
  candidates w
  = List.concat (map returned_list (completed w))
    ++ source_seasonal (month w) (roll w).
Proof. unfold candidates, merge_seasonal. now rewrite gather_fold. Qed.

Lemma collect_fields (w : World) (r : CollectionResult) :
  collect w = Return r ->
  global_timeout_expired w = false
  /\ sources_used r
     = (if existsb (String.eqb "seasonal") (map fst (filter contributed (completed w)))
        then map fst (filter contributed (completed w))
        else map fst (filter contributed (completed w)) ++ ["seasonal"])
  /\ total_keywords_found r = List.length (candidates w).
Proof.
  destruct (global_timeout_expired w) eqn:E.
  - rewrite collect_raises by exact E. discriminate.
  - rewrite collect_unfold by exact E. cbv zeta. unfold candidates.
    rewrite gather_fold. cbn [fst snd app]. intros H. inversion H.
    cbn [sources_used total_keywords_found]. repeat split; reflexivity.
Qed.

(** X4. [sources_used] names "seasonal" and the sources whose future
    returned a non-empty list, and nothing else: a source that raised,
    timed out or returned an empty list is not named. *)
Theorem X4_sources_used (w : World) (r : CollectionResult) (src : string) :
  collect w = Return r ->
  (In src (sources_used r) <->
   src = "seasonal"
   \/ exists t res, In (src, Returned (t :: res)) (completed w)).
Proof.
  intros Hc. destruct (collect_fields w r Hc) as (_ & -> & _).
  assert (Hu : In src (map fst (filter contributed (completed w))) <->
               exists t res, In (src, Returned (t :: res)) (completed w)).
  { rewrite in_map_iff. split.
    - intros [[n f] [<- Hin]]. apply filter_In in Hin as [Hin Hk].
      unfold contributed in Hk. simpl in Hk.
      destruct f as [[|t res]|e]; try discriminate. simpl. eauto.
    - intros [t [res Hin]]. exists (src, Returned (t :: res)). split; [reflexivity|].
      apply filter_In. split; [exact Hin|reflexivity]. }
  destruct (existsb _ _) eqn:E.
  - rewrite Hu. split; [auto|]. intros [->|H]; [|exact H].
    apply existsb_exists in E as [x [Hx Ex]]. apply String.eqb_eq in Ex. subst x.
    now apply Hu.
  - rewrite in_app_iff, Hu. simpl. split.
    + intros [H|[<-|[]]]; auto.
    + intros [->|H]; auto.
Qed.

Lemma X4_sources_used_witness :
  exists r,
    collect (mkWorld [("pexels_api", Returned []);
                      ("unsplash", Returned [mkTrend "city park" 90 general "unsplash_api"]);
                      ("pytrends", Raised OtherException)]
                     false 11 (fun _ => 80) "2026-11-03T09:00:00" (3 # 2))
    = Return r
    /\ In "unsplash" (sources_used r) /\ ~ In "pytrends" (sources_used r).
Proof.
  destruct (collect (mkWorld [("pexels_api", Returned []);
                      ("unsplash", Returned [mkTrend "city park" 90 general "unsplash_api"]);
                      ("pytrends", Raised OtherException)]
                     false 11 (fun _ => 80) "2026-11-03T09:00:00" (3 # 2)))
    as [r|e] eqn:E.
  - exists r. split; [reflexivity|]. split.
    + apply (proj2 (X4_sources_used _ r "unsplash" E)). right.
      do 2 eexists. simpl. right. left. reflexivity.
    + intros H. apply (proj1 (X4_sources_used _ r "pytrends" E)) in H.
      destruct H as [H|[t [res H]]]; [discriminate|].
      simpl in H. destruct H as [H|[H|[H|[]]]]; discriminate.
  - vm_compute in E. discriminate E.
Defined.

(** ** The six seasonal keys *)

Lemma seasonal_keys (m : Z) (rl : nat -> Z) :
  NoDup (map record_key (source_seasonal m rl))
  /\ (forall k, In k (map record_key (source_seasonal m rl)) ->
                passes_filter k = true)
  /\ List.length (map record_key (source_seasonal m rl)) = 6%nat.
Proof.
  unfold source_seasonal.
  destruct (season_of_cases m) as [-> | [-> | [-> | ->]]];
    (split; [|split; [|reflexivity]]);
    try (intros k Hk; vm_compute in Hk;
         repeat (destruct Hk as [<-|Hk]; [reflexivity|]); destruct Hk);
    vm_compute; repeat (constructor; [simpl; intuition discriminate|]); constructor.
Qed.

Lemma dedup_length_keys (l : list TrendRecord) :
  List.length (dedup l) = List.length (Dict.keys (dedup l)).
Proof. unfold Dict.keys. now rewrite length_map. Qed.

(** X1. A returned result has between 6 and 20 trending records: the six
    seasonal keywords are pairwise different, pass the filter and so are
    all stored. *)
Theorem X1_six_to_twenty (w : World) (r : CollectionResult) :
  collect w = Return r ->
  (6 <= List.length (trending_searches r) <= 20)%nat.
Proof.
  intros Hc. destruct (collect_inv w r Hc) as (-> & _ & _).
  rewrite top_trends_length.
  destruct (seasonal_keys (month w) (roll w)) as (Hnd & Hp & Hlen).
  assert (Hincl : incl (map record_key (source_seasonal (month w) (roll w)))
                       (Dict.keys (dedup (candidates w)))).
  { intros k Hk. apply dedup_key_present. split; [now apply Hp|].
    apply in_map_iff in Hk as [t [<- Ht]]. exists t. split; [|reflexivity].
    unfold candidates, merge_seasonal. apply in_or_app. now right. }
  pose proof (NoDup_incl_length Hnd Hincl) as Hle.
  rewrite Hlen, <- dedup_length_keys in Hle. lia.
Qed.

Lemma X1_six_to_twenty_witness :
  exists r, collect busy_world = Return r
            /\ (6 <= List.length (trending_searches r) <= 20)%nat.
Proof.
  destruct (collect busy_world) as [r|e] eqn:E.
  - exists r. split; [reflexivity|]. exact (X1_six_to_twenty busy_world r E).
  - vm_compute in E. discriminate E.
Defined.

(** X5. [total_keywords_found] counts the records of every returned list
    and the six seasonal ones, before filtering and dedup; it is never
    below the number of trending records. *)
Theorem X5_total_keywords_found (w : World) (r : CollectionResult) :
  collect w = Return r ->
  total_keywords_found r
  = (List.length (List.concat (map returned_list (completed w))) + 6)%nat
  /\ (List.length (trending_searches r) <= total_keywords_found r)%nat.
Proof.
  intros Hc. destruct (collect_fields w r Hc) as (_ & _ & Ht).
  destruct (collect_inv w r Hc) as (Htop & _ & _).
  split.
  - rewrite Ht, candidates_eq, length_app. reflexivity.
  - rewrite Ht, Htop, top_trends_length.
    pose proof (dedup_NoDup (candidates w)) as Hnd.
    assert (Hincl : incl (Dict.keys (dedup (candidates w)))
                         (map record_key (candidates w))).
    { intros k Hk. apply dedup_key_present in Hk as [_ [t [Hin <-]]].
      exact (in_map record_key _ _ Hin). }
    pose proof (NoDup_incl_length Hnd Hincl) as Hle.
    rewrite length_map in Hle. unfold Dict.keys in Hle. rewrite length_map in Hle.
    lia.
Qed.

Lemma X5_total_keywords_found_witness :
  exists r, collect busy_world = Return r /\ total_keywords_found r = 26%nat.
Proof.
  destruct (collect busy_world) as [r|e] eqn:E.
  - exists r. split; [reflexivity|].
    rewrite (proj1 (X5_total_keywords_found busy_world r E)). reflexivity.
  - vm_compute in E. discriminate E.
Defined.

(** ** The records of the result *)

Lemma dedup_values_keys (l : list TrendRecord) :
  map record_key (Dict.values (dedup l)) = Dict.keys (dedup l).
Proof.
  unfold Dict.values, Dict.keys. rewrite map_map. apply map_ext_in.
  intros [k v] Hin. destruct (dedup_well_keyed l k v Hin) as (-> & _). reflexivity.
Qed.

Lemma ranked_perm (u : list (string * TrendRecord)) :
  Permutation (ranked u) (Dict.values u).
Proof. apply sorted_reverse_perm. Qed.

Lemma ranked_split (u : list (string * TrendRecord)) :
  ranked u = top_trends u ++ skipn 20 (ranked u).
Proof. unfold top_trends. now rewrite firstn_skipn. Qed.

Lemma top_trends_incl (u : list (string * TrendRecord)) :
  incl (top_trends u) (Dict.values u).
Proof.
  intros t Ht. apply (Permutation_in t (ranked_perm u)).
  rewrite ranked_split. apply in_or_app. now left.
Qed.

Lemma ranked_keys_NoDup (l : list TrendRecord) :
  NoDup (map record_key (ranked (dedup l))).
Proof.
  apply (Permutation_NoDup
           (Permutation_map record_key (Permutation_sym (ranked_perm (dedup l))))).
  rewrite dedup_values_keys. apply dedup_NoDup.
Qed.

Lemma top_keys_NoDup (l : list TrendRecord) :
  NoDup (map record_key (top_trends (dedup l))).
Proof.
  pose proof (ranked_keys_NoDup l) as H.
  rewrite ranked_split, map_app in H. now apply NoDup_app_remove_r in H.
Qed.

(** X2. No two trending records share a normalized keyword; each of them
    is one of the candidate records, and its normalized keyword has 3 to
    50 characters and no run of underscores. *)
Theorem X2_trending_distinct_and_valid (w : World) (r : CollectionResult) :
  collect w = Return r ->
  NoDup (map (fun t => normalize (keyword t)) (trending_searches r))
  /\ Forall (fun t =>
               In t (candidates w)
               /\ (3 <= PyStr.len (normalize (keyword t)) <= 50)%nat
               /\ PyStr.search_underscore_run (normalize (keyword t)) = false)
            (trending_searches r).
Proof.
  intros Hc. destruct (collect_inv w r Hc) as (-> & _ & _). split.
  - apply top_keys_NoDup.
  - apply Forall_forall. intros t Ht. apply top_trends_incl in Ht.
    unfold Dict.values in Ht. apply in_map_iff in Ht as [[k v] [<- Hin]].
    destruct (dedup_well_keyed _ k v Hin) as (Hk & Hp & Hv). simpl.
    split; [exact Hv|]. apply passes_filter_spec. now rewrite <- Hk.
Qed.

Lemma X2_trending_distinct_and_valid_witness :
  exists r, collect busy_world = Return r
            /\ NoDup (map (fun t => normalize (keyword t)) (trending_searches r)).
Proof.
  destruct (collect busy_world) as [r|e] eqn:E.
  - exists r. split; [reflexivity|].
    exact (proj1 (X2_trending_distinct_and_valid busy_world r E)).
  - vm_compute in E. discriminate E.
Defined.

Lemma StronglySorted_app_cross {A : Type} (R : A -> A -> Prop) (l1 l2 : list A) :
  StronglySorted R (l1 ++ l2) ->
  forall a b, In a l1 -> In b l2 -> R a b.
Proof.
  induction l1 as [|x l1 IH]; intros Hs a b Ha Hb; [destruct Ha|].
  simpl in Hs. inversion Hs as [|? ? Hs' Hall]; subst.
  destruct Ha as [<-|Ha].
  - rewrite Forall_forall in Hall. apply Hall. apply in_or_app. now right.
  - now apply IH.
Qed.

(** X3. Truncation keeps the best: a stored record that did not make it
    into [trending_searches] is, in the order on (popularity, word count),
    not above any record that did. *)
Theorem X3_truncation_keeps_the_best (w : World) (r : CollectionResult)
    (a b : TrendRecord) :
  collect w = Return r ->
  In a (trending_searches r) ->
  In b (merged w) -> ~ In b (trending_searches r) ->
  rank_ge a b.
Proof.
  intros Hc Ha Hb Hnb. destruct (collect_inv w r Hc) as (Ht & _ & _).
  rewrite Ht in Ha, Hnb.
  pose proof (ranked_sorted (dedup (candidates w))) as Hs.
  rewrite ranked_split in Hs.
  apply (StronglySorted_app_cross _ _ _ Hs a b Ha).
  unfold merged in Hb.
  apply (Permutation_in b (Permutation_sym (ranked_perm _))) in Hb.
  rewrite ranked_split in Hb. apply in_app_or in Hb as [Hb|Hb]; [contradiction|exact Hb].
Qed.

(** X8. A trending record has the highest popularity that any candidate
    with the same normalized keyword had. *)
Theorem X8_trending_popularity_is_the_maximum (w : World) (r : CollectionResult)
    (s t : TrendRecord) :
  collect w = Return r ->
  In s (trending_searches r) -> In t (candidates w) ->
  normalize (keyword t) = normalize (keyword s) ->
  popularity t <= popularity s.
Proof.
  intros Hc Hs Ht Hk. destruct (collect_inv w r Hc) as (Htop & _ & _).
  rewrite Htop in Hs. apply top_trends_incl in Hs.
  unfold Dict.values in Hs. apply in_map_iff in Hs as [[k v] [Hv Hin]].
  simpl in Hv. subst v.
  destruct (dedup_well_keyed _ k s Hin) as (Hks & Hp & _).
  assert (Hkt : normalize (keyword t) = k) by congruence.
  destruct (dedup_survivor_strongest _ t k Ht Hkt Hp) as (s' & Hf & _ & _ & Hge).
  assert (Hin' : In (k, s) (filter (fun kv => String.eqb (fst kv) k)
                                   (dedup (candidates w)))).
  { apply filter_In. split; [exact Hin|]. simpl. apply String.eqb_refl. }
  rewrite Hf in Hin'. destruct Hin' as [Heq|[]]. inversion Heq; subst s'.
  unfold strength_ltb, strength in Hge. simpl in Hge.
  apply orb_false_iff in Hge as [Hge _]. now apply Z.ltb_ge in Hge.
Qed.

Lemma X3_truncation_keeps_the_best_witness :
  rank_ge (mkTrend "ai office" 96 technology "pexels_api")
          (mkTrend "autumn business" 88 business "seasonal").
Proof.
  destruct (collect busy_world) as [r|e] eqn:E;
    [|vm_compute in E; discriminate E].
  apply (X3_truncation_keeps_the_best busy_world r _ _ E).
  - vm_compute in E. inversion E. left. reflexivity.
  - vm_compute. do 20 right. left. reflexivity.
  - vm_compute in E. inversion E. cbn [trending_searches]. intros H.
    repeat (destruct H as [H|H]; [discriminate H|]). destruct H.
Defined.

Lemma X8_trending_popularity_is_the_maximum_witness :
  popularity (mkTrend "remote work" 85 business "pexels_api")
  <= popularity (mkTrend "Remote Work" 95 business "pytrends").
Proof.
  destruct (collect
              (mkWorld [("pexels_api", Returned [mkTrend "remote work" 85 business "pexels_api"]);
                        ("pytrends", Returned [mkTrend "Remote Work" 95 business "pytrends"])]
                       false 11 (fun _ => 80) "2026-11-03T09:00:00" (3 # 2)))
    as [r|e] eqn:E; [|vm_compute in E; discriminate E].
  apply (X8_trending_popularity_is_the_maximum _ r _ _ E).
  - vm_compute in E. inversion E. left. reflexivity.
  - vm_compute. left. reflexivity.
  - reflexivity.
Defined.

(** ** Running the pass on its own output *)

Lemma set_fresh {K V : Type} (eqb : K -> K -> bool)
    (eqb_spec : forall a b, reflect (a = b) (eqb a b))
    (d : list (K * V)) (k : K) (v : V) :
  ~ In k (Dict.keys d) -> Dict.set eqb d k v = d ++ [(k, v)].
Proof.
  induction d as [|[k' v'] d IH]; simpl; intros Hk; [reflexivity|].
  destruct (eqb_spec k' k) as [->|Hne]; [tauto|].
  rewrite IH; tauto.
Qed.

Lemma dedup_from_distinct (v : list TrendRecord) (u : list (string * TrendRecord)) :
  NoDup (Dict.keys u ++ map record_key v) ->
  (forall t, In t v -> passes_filter (record_key t) = true) ->
  fold_left dedup_step v u = u ++ map (fun t => (record_key t, t)) v.
Proof.
  revert u. induction v as [|t v IH]; intros u Hnd Hp; simpl.
  - now rewrite app_nil_r.
  - change (record_key t) with (normalize (keyword t)) in *.
    assert (Hfresh : ~ In (normalize (keyword t)) (Dict.keys u)).
    { intros Hin. apply NoDup_remove_2 in Hnd. apply Hnd.
      apply in_or_app. now left. }
    rewrite dedup_step_passed by (apply Hp; now left).
    rewrite (proj2 (DictFacts.lookup_None_keys _ String.eqb_spec u _) Hfresh).
    rewrite (set_fresh _ String.eqb_spec) by exact Hfresh.
    rewrite IH.
    + now rewrite <- app_assoc.
    + unfold Dict.keys in *. rewrite map_app, <- app_assoc. exact Hnd.
    + intros; apply Hp; now right.
Qed.

Lemma sorted_reverse_fixed {A K : Type} (key : A -> K) (ltb : K -> K -> bool)
    (l : list A) :
  StronglySorted (not_below key ltb) l -> sorted_reverse key ltb l = l.
Proof.
  induction 1 as [|x l Hs IH Hall]; [reflexivity|].
  simpl. rewrite IH. destruct l as [|y l]; [reflexivity|].
  simpl. inversion Hall as [|? ? Hxy _]; subst.
  unfold not_below in Hxy. now rewrite Hxy.
Qed.

(** X7. The pass is idempotent: run on its own output it returns that
    output unchanged. *)
Theorem X7_dedup_and_rank_idempotent (l : list TrendRecord) :
  dedup_and_rank (dedup_and_rank l) = dedup_and_rank l.
Proof.
  unfold dedup_and_rank at 1.
  assert (Hd : dedup (dedup_and_rank l)
               = map (fun t => (record_key t, t)) (dedup_and_rank l)).
  { unfold dedup. rewrite dedup_from_distinct; [reflexivity| |].
    - simpl. apply top_keys_NoDup.
    - intros t Ht. apply top_trends_incl in Ht. unfold Dict.values in Ht.
      apply in_map_iff in Ht as [[k v] [<- Hin]].
      destruct (dedup_well_keyed _ k v Hin) as (Hk & Hp & _).
      unfold record_key. simpl. now rewrite <- Hk. }
  unfold top_trends, ranked. rewrite Hd. unfold Dict.values.
  rewrite map_map. cbn [snd]. rewrite map_id.
  rewrite sorted_reverse_fixed.
  - apply firstn_all2. unfold dedup_and_rank. rewrite top_trends_length. lia.
  - unfold dedup_and_rank, top_trends, ranked. apply StronglySorted_firstn.
    apply sorted_reverse_sorted; [apply rank_key_ltb_asym|apply rank_key_geb_trans].
Qed.

(** ** Category summary *)

Lemma Category_eq_dec (a b : Category) : {a = b} + {a <> b}.
Proof. decide equality. Qed.

Lemma sum_members_cons (cats : list Category) (t : TrendRecord) (top : list TrendRecord) :
  fold_right (fun c acc => Z.of_nat (List.length (members c (t :: top))) + acc) 0 cats
  = Z.of_nat (count_occ Category_eq_dec cats (category t))
    + fold_right (fun c acc => Z.of_nat (List.length (members c top)) + acc) 0 cats.
Proof.
  induction cats as [|c cats IH]; [reflexivity|].
  cbn [fold_right count_occ]. rewrite IH. unfold members at 1. cbn [filter].
  fold (members c top).
  destruct (Category_eqb_spec (category t) c) as [E|E];
    destruct (Category_eq_dec c (category t)) as [E'|E']; try congruence;
    cbn [List.length]; lia.
Qed.

Lemma sum_members_cover (cats : list Category) (top : list TrendRecord) :
  NoDup cats ->
  (forall t, In t top -> In (category t) cats) ->
  fold_right (fun c acc => Z.of_nat (List.length (members c top)) + acc) 0 cats
  = Z.of_nat (List.length top).
Proof.
  intros Hnd. induction top as [|t top IH]; intros Hcov.
  - clear. induction cats as [|c cats IHc]; [reflexivity|].
    cbn [fold_right]. now rewrite IHc.
  - rewrite sum_members_cons, IH by (intros; apply Hcov; now right).
    assert (Hin : In (category t) cats) by (apply Hcov; now left).
    rewrite (proj1 (NoDup_count_occ' Category_eq_dec cats) Hnd _ Hin).
    cbn [List.length]. lia.
Qed.

Lemma sum_counts_summaries (top : list TrendRecord) (cats : list Category) :
  sum_counts (map (summary_of top) cats)
  = fold_right (fun c acc => Z.of_nat (List.length (members c top)) + acc) 0 cats.
Proof.
  induction cats as [|c cats IH]; [reflexivity|].
  simpl. now rewrite IH.
Qed.

Lemma NoDup_categories_length (cats : list Category) :
  NoDup cats -> (List.length cats <= 8)%nat.
Proof.
  intros Hnd. change 8%nat with (List.length all_categories).
  apply NoDup_incl_length; [exact Hnd|].
  intros c _. destruct c; simpl; tauto.
Qed.

Lemma NoDup_map_of_injective {A B : Type} (f : A -> B) (l : list A) :
  (forall a b, f a = f b -> a = b) -> NoDup l -> NoDup (map f l).
Proof.
  intros Hinj. induction 1 as [|x l Hx Hl IH]; simpl; constructor; [|exact IH].
  intros Hin. apply in_map_iff in Hin as [y [Hy Hin]].
  apply Hinj in Hy. now subst.
Qed.

(** X9. The counts of [popular_categories] add up to the number of
    trending records; every entry counts at least one record, there are at
    most eight entries, and no two of them have the same name. *)
Theorem X9_category_counts (w : World) (r : CollectionResult) :
  collect w = Return r ->
  sum_counts (popular_categories r) = Z.of_nat (List.length (trending_searches r))
  /\ Forall (fun e => 1 <= count e) (popular_categories r)
  /\ (List.length (popular_categories r) <= 8)%nat
  /\ NoDup (map name (popular_categories r)).
Proof.
  intros Hc. destruct (collect_inv w r Hc) as (_ & Hp & _).
  destruct (build_categories_spec (trending_searches r)) as (cats & Hnd & Hin & Hb).
  rewrite Hp, Hb. split; [|split; [|split]].
  4:{ rewrite map_map. cbn [name summary_of].
      apply NoDup_map_of_injective; [|exact Hnd].
      intros a b; destruct a, b; intros H; try reflexivity; vm_compute in H;
        discriminate H. }
  - rewrite sum_counts_summaries. apply sum_members_cover; [exact Hnd|].
    intros t Ht. apply Hin. eauto.
  - apply Forall_forall. intros e He. apply in_map_iff in He as [c [<- Hc']].
    apply Hin in Hc'. apply members_nonempty in Hc'.
    unfold summary_of. cbn [count].
    destruct (members c (trending_searches r)); [congruence|]. simpl List.length. lia.
  - rewrite length_map. now apply NoDup_categories_length.
Qed.

Lemma X9_category_counts_witness :
  exists r, collect busy_world = Return r
            /\ sum_counts (popular_categories r) = 20.
Proof.
  destruct (collect busy_world) as [r|e] eqn:E.
  - exists r. split; [reflexivity|].
    rewrite (proj1 (X9_category_counts busy_world r E)).
    vm_compute in E. inversion E. reflexivity.
  - vm_compute in E. discriminate E.
Defined.

(** ** Seasonal categories *)

(** X10. In every month and for every roll, the categorizer files the six
    seasonal records as business, lifestyle, nature, general, food and
    education: the "technology" bucket is filed under general, since
    "technology" is not one of the technology markers. *)
Theorem X10_seasonal_categories (m : Z) (rl : nat -> Z) :
  map category (source_seasonal m rl)
  = [business; lifestyle; nature; general; food; education].
Proof.
  unfold source_seasonal.
  destruct (season_of_cases m) as [-> | [-> | [-> | ->]]]; reflexivity.
Qed.

(** * Total failure of the network sources *)

Lemma filter_all {A : Type} (f : A -> bool) (l : list A) :
  (forall x, In x l -> f x = true) -> filter f l = l.
Proof.
  induction l as [|x l IH]; intros H; [reflexivity|].
  simpl. rewrite (H x) by now left. f_equal. apply IH. intros; apply H; now right.
Qed.

Lemma filter_none {A : Type} (f : A -> bool) (l : list A) :
  (forall x, In x l -> f x = false) -> filter f l = [].
Proof.
  induction l as [|x l IH]; intros H; [reflexivity|].
  simpl. rewrite (H x) by now left. apply IH. intros; apply H; now right.
Qed.

Lemma returned_nothing (evs : list (string * FutureResult)) :
  (forall ev, In ev evs -> contributed ev = false) ->
  List.concat (map returned_list evs) = [].
Proof.
  induction evs as [|[src fut] evs IH]; intros H; [reflexivity|].
  cbn [map List.concat]. rewrite IH by (intros; apply H; now right).
  specialize (H (src, fut) (or_introl eq_refl)).
  unfold contributed, returned_list in *. simpl in *.
  destruct fut as [[|t res]|e]; try reflexivity. discriminate H.
Qed.

Lemma seasonal_source (m : Z) (rl : nat -> Z) (t : TrendRecord) :
  In t (source_seasonal m rl) -> source t = "seasonal".
Proof.
  unfold source_seasonal. generalize (season_of m). intros s H.
  simpl in H. repeat (destruct H as [<-|H]; [reflexivity|]). destruct H.
Qed.

(** X23. When no source contributes anything (every future raised, timed
    out or returned an empty list), the result is the seasonal fallback
    alone: [trending_searches] holds exactly the six seasonal records,
    [seasonal_trends] is the same list, [sources_used] is ["seasonal"] and
    [total_keywords_found] is 6. *)
Theorem X23_total_failure (w : World) (r : CollectionResult) :
  collect w = Return r ->
  (forall ev, In ev (completed w) -> contributed ev = false) ->
  Permutation (trending_searches r) (source_seasonal (month w) (roll w))
  /\ seasonal_trends r = trending_searches r
  /\ sources_used r = ["seasonal"]
  /\ total_keywords_found r = 6%nat.
Proof.
  intros Hc Hnone.
  destruct (collect_inv w r Hc) as (Ht & _ & Hs).
  destruct (collect_fields w r Hc) as (_ & Hu & Hn).
  assert (Hcand : candidates w = source_seasonal (month w) (roll w)).
  { rewrite candidates_eq, returned_nothing by exact Hnone. reflexivity. }
  destruct (seasonal_keys (month w) (roll w)) as (Hnd & Hp & Hlen).
  assert (Hd : Dict.values (dedup (candidates w)) = source_seasonal (month w) (roll w)).
  { rewrite Hcand. unfold dedup. rewrite dedup_from_distinct.
    - rewrite app_nil_l. unfold Dict.values. rewrite map_map. cbn [snd].
      apply map_id.
    - exact Hnd.
    - intros t Hin. apply Hp. now apply in_map. }
  assert (Htop : Permutation (trending_searches r) (source_seasonal (month w) (roll w))).
  { rewrite Ht. unfold top_trends. rewrite firstn_all2.
    - rewrite ranked_perm. now rewrite Hd.
    - rewrite (Permutation_length (ranked_perm _)), Hd.
      rewrite length_map in Hlen. lia. }
  split; [exact Htop|]. split; [|split].
  - rewrite Hs. apply filter_all. intros t Hin.
    apply (Permutation_in t Htop) in Hin. unfold is_seasonal.
    rewrite (seasonal_source _ _ t Hin). reflexivity.
  - rewrite Hu, (filter_none contributed) by exact Hnone. reflexivity.
  - rewrite Hn, Hcand. rewrite length_map in Hlen. exact Hlen.
Qed.

Lemma X23_total_failure_witness :
  exists r,
    collect (mkWorld [("pexels_api", Returned []); ("unsplash", Raised OtherException);
                      ("pytrends", Raised TimeoutError)]
                     false 11 (fun _ => 80) "2026-11-03T09:00:00" (3 # 2))
    = Return r
    /\ sources_used r = ["seasonal"] /\ total_keywords_found r = 6%nat.
Proof.
  destruct (collect (mkWorld [("pexels_api", Returned []); ("unsplash", Raised OtherException);
                      ("pytrends", Raised TimeoutError)]
                     false 11 (fun _ => 80) "2026-11-03T09:00:00" (3 # 2)))
    as [r|e] eqn:E.
  - exists r. split; [reflexivity|].
    apply (X23_total_failure _ r E).
    intros ev [<-|[<-|[<-|[]]]]; reflexivity.
  - vm_compute in E. discriminate E.
Defined.

(** * Scorer and categorizer *)

Lemma score_base_range (src : string) :
  70 <= Dict.get String.eqb score_base_table src 70 <= 88.
Proof.
  unfold Dict.get, score_base_table. cbn [Dict.lookup].
  repeat match goal with
         | |- context [if ?b then _ else _] => destruct b
         end; lia.
Qed.

Lemma score_floor (kw src : string) (j base : Z) :
  -2 <= j <= 2 ->
  base <= Dict.get String.eqb score_base_table src 70 ->
  Z.max 50 (Z.min 99 (base - 8)) <= _score kw src j.
Proof.
  intros Hj Hb. unfold _score.
  repeat match goal with
         | |- context [if ?b then _ else _] => destruct b
         end; unfold clamp; lia.
Qed.

(** X16. With the jitter in its range of -2..2, [_score] is at least 62
    whatever the keyword and the source, and at least 64 for the five
    sources of the base table: the clamp at 50 never acts. *)
Theorem X16_score_floor (kw src : string) (j : Z) :
  -2 <= j <= 2 ->
  62 <= _score kw src j
  /\ (In src ["pexels_api"; "unsplash_api"; "unsplash_topics"; "pytrends";
              "seasonal"] ->
      64 <= _score kw src j).
Proof.
  intros Hj. split.
  - pose proof (score_floor kw src j 70 Hj (proj1 (score_base_range src))). lia.
  - intros Hsrc.
    assert (Hb : 72 <= Dict.get String.eqb score_base_table src 70).
    { repeat (destruct Hsrc as [<-|Hsrc]; [vm_compute; discriminate|]).
      destruct Hsrc. }
    pose proof (score_floor kw src j 72 Hj Hb). lia.
Qed.

Lemma X16_score_floor_witness :
  62 <= _score "a very long phrase that goes on and on past forty" "rss" (-2).
Proof.
  apply (X16_score_floor _ _ (-2)). lia.
Defined.

Lemma lower_char_idempotent (c : ascii) :
  PyStr.lower_char (PyStr.lower_char c) = PyStr.lower_char c.
Proof. destruct c as [[] [] [] [] [] [] [] []]; reflexivity. Qed.

Lemma lower_idempotent (s : string) : PyStr.lower (PyStr.lower s) = PyStr.lower s.
Proof.
  induction s as [|c s IH]; [reflexivity|].
  simpl. now rewrite lower_char_idempotent, IH.
Qed.

(** On code points below 256 [lower] keeps the length. *)
Lemma lower_length (s : string) : PyStr.len (PyStr.lower s) = PyStr.len s.
Proof.
  unfold PyStr.len. induction s as [|c s IH]; [reflexivity|].
  simpl. now rewrite IH.
Qed.

Lemma split_lower_length (s : string) :
  List.length (PyStr.split (PyStr.lower s)) = List.length (PyStr.split s).
Proof.
  unfold PyStr.split. rewrite !split_from_length. apply count_words_lower.
Qed.

(** X17. Letter case does not matter to the categorizer: a keyword and
    its lower-cased form get the same category.  The scorer reads the
    keyword itself for its length: a keyword and its lower-cased form get
    the same score, for the same source and jitter, when they are of the
    same length. *)
Theorem X17_case_and_length (kw src : string) (jitter : Z) :
  _categorize (PyStr.lower kw) = _categorize kw
  /\ (PyStr.len (PyStr.lower kw) = PyStr.len kw ->
      _score (PyStr.lower kw) src jitter = _score kw src jitter).
Proof.
  split.
  - unfold _categorize. now rewrite lower_idempotent.
  - intros Hlen. unfold _score.
    now rewrite lower_idempotent, split_lower_length, Hlen.
Qed.

Lemma X17_case_and_length_witness :
  _categorize (PyStr.lower "AI Robot") = _categorize "AI Robot"
  /\ _score (PyStr.lower "AI Robot") "pytrends" 1 = _score "AI Robot" "pytrends" 1.
Proof.
  split.
  - apply (proj1 (X17_case_and_length "AI Robot" "pytrends" 1)).
  - apply (proj2 (X17_case_and_length "AI Robot" "pytrends" 1)). reflexivity.
Defined.

(** ** Substrings *)

Lemma prefix_append (t q : string) : prefix t (t ++ q)%string = true.
Proof.
  induction t as [|a t IH]; simpl.
  - now destruct q.
  - destruct (ascii_dec a a); [exact IH|congruence].
Qed.

Lemma contains_intro (p t q : string) :
  PyStr.contains t (p ++ t ++ q)%string = true.
Proof.
  induction p as [|c p IH].
  - simpl. destruct t as [|a t].
    + destruct q; reflexivity.
    + cbn [append PyStr.contains].
      change (String a (t ++ q)%string) with (String a t ++ q)%string.
      now rewrite prefix_append.
  - cbn [append PyStr.contains]. rewrite IH. apply orb_true_r.
Qed.

Lemma contains_elim (t s : string) :
  PyStr.contains t s = true -> exists p q, s = (p ++ t ++ q)%string.
Proof.
  induction s as [|c s IH]; cbn [PyStr.contains]; intros H.
  - apply prefix_app in H as [q E]. exists EmptyString, q. exact E.
  - apply orb_true_iff in H as [H|H].
    + apply prefix_app in H as [q E]. exists EmptyString, q. exact E.
    + destruct (IH H) as (p & q & ->). exists (String c p), q. reflexivity.
Qed.

Lemma lower_append (a b : string) :
  PyStr.lower (a ++ b)%string = (PyStr.lower a ++ PyStr.lower b)%string.
Proof. induction a as [|c a IH]; [reflexivity|]. simpl. now rewrite IH. Qed.

Lemma append_assoc (a b c : string) : ((a ++ b) ++ c = a ++ (b ++ c))%string.
Proof. induction a as [|x a IH]; [reflexivity|]. simpl. now rewrite IH. Qed.

Lemma any_in_substring (xs : list string) (a b : string) :
  PyStr.contains a b = true ->
  PyStr.any_in xs (PyStr.lower a) = true ->
  PyStr.any_in xs (PyStr.lower b) = true.
Proof.
  intros Hab Ha. unfold PyStr.any_in in *.
  apply existsb_exists in Ha as [m [Hm Hc]]. apply existsb_exists.
  exists m. split; [exact Hm|].
  apply contains_elim in Hab as (p & q & ->).
  apply contains_elim in Hc as (p' & q' & E).
  rewrite !lower_append, E.
  replace (PyStr.lower p ++ (p' ++ m ++ q') ++ PyStr.lower q)%string
    with ((PyStr.lower p ++ p') ++ m ++ (q' ++ PyStr.lower q))%string
    by (now rewrite !append_assoc).
  apply contains_intro.
Qed.

(** X18. The technology rule comes first and matches substrings: a
    keyword in which a technology keyword occurs is itself filed under
    technology, whatever else it holds. *)
Theorem X18_technology_spreads (a b : string) :
  PyStr.contains a b = true ->
  _categorize a = technology -> _categorize b = technology.
Proof.
  intros Hab Ha. unfold _categorize in *.
  destruct (PyStr.any_in _ (PyStr.lower a)) eqn:E.
  - now rewrite (any_in_substring _ a b Hab E).
  - repeat match type of Ha with
           | (if ?c then _ else _) = _ => destruct c; try discriminate Ha
           end.
Qed.

Lemma X18_technology_spreads_witness :
  _categorize "rain forest hiking trail" = technology.
Proof.
  apply (X18_technology_spreads "rain" "rain forest hiking trail"); reflexivity.
Defined.

(** * HTTP fetch *)

Lemma fetch_attempts_retried (net : nat -> GetResult) (k remaining attempt : nat) :
  (k <= remaining)%nat ->
  (forall j, (attempt <= j < attempt + k)%nat -> retried (net j) = true) ->
  fetch_attempts net attempt remaining
  = mkFetchRun (fetched (fetch_attempts net (attempt + k) (remaining - k)))
               (k + requests_made (fetch_attempts net (attempt + k) (remaining - k))).
Proof.
  revert remaining attempt. induction k as [|k IH]; intros remaining attempt Hle Hr.
  - rewrite Nat.add_0_r, Nat.sub_0_r. now destruct (fetch_attempts _ _ _).
  - destruct remaining as [|remaining]; [lia|].
    cbn [fetch_attempts].
    assert (Ha : retried (net attempt) = true) by (apply Hr; lia).
    rewrite (IH remaining (S attempt)) by (try lia; intros; apply Hr; lia).
    replace (S attempt + k)%nat with (attempt + S k)%nat by lia.
    replace (S remaining - S k)%nat with (remaining - k)%nat by lia.
    unfold retried in Ha. destruct (net attempt) as [|resp]; cbn [fetched requests_made].
    + reflexivity.
    + now rewrite Ha.
Qed.

(** X11. [_fetch] stops at the first attempt that neither raises nor
    answers with a status of the retry set: it has then made exactly
    that many requests, and what it returns is decided by that response
    alone.  When all [max_tries] attempts raise or answer with a retry
    status it returns nothing after [max_tries] requests. *)
Theorem X11_fetch_stops_at_first_final_answer
    (net : nat -> GetResult) (max_tries k : nat) (resp : HttpResponse) :
  ((1 <= k <= max_tries)%nat ->
   (forall j, (1 <= j < k)%nat -> retried (net j) = true) ->
   net k = GetReturns resp -> retried (net k) = false ->
   _fetch net max_tries = mkFetchRun (accept_response resp) k)
  /\ ((forall j, (1 <= j <= max_tries)%nat -> retried (net j) = true) ->
      _fetch net max_tries = mkFetchRun None max_tries).
Proof.
  unfold _fetch. split.
  - intros Hk Hr Hn Hf.
    rewrite (fetch_attempts_retried net (k - 1) max_tries 1)
      by (try lia; intros; apply Hr; lia).
    replace (1 + (k - 1))%nat with k by lia.
    destruct (max_tries - (k - 1))%nat as [|rem] eqn:E; [lia|].
    cbn [fetch_attempts]. rewrite Hn. rewrite Hn in Hf. cbn [retried] in Hf. rewrite Hf.
    cbn [fetched requests_made]. f_equal. lia.
  - intros Hr.
    rewrite (fetch_attempts_retried net max_tries max_tries 1)
      by (try lia; intros; apply Hr; lia).
    rewrite Nat.sub_diag. cbn [fetch_attempts fetched requests_made].
    f_equal. lia.
Qed.

Lemma fetch_attempts_good (net : nat -> GetResult) (remaining attempt : nat) :
  (requests_made (fetch_attempts net attempt remaining) <= remaining)%nat
  /\ forall d, fetched (fetch_attempts net attempt remaining) = Some d ->
       exists k resp,
         (attempt <= k < attempt + remaining)%nat
         /\ net k = GetReturns resp
         /\ accept_response resp = Some d.
Proof.
  revert attempt. induction remaining as [|n IH]; intros a.
  - split; [simpl; lia|]. simpl. discriminate.
  - cbn [fetch_attempts]. destruct (IH (S a)) as [Hle Hd].
    assert (Hcont :
      forall d, fetched (fetch_attempts net (S a) n) = Some d ->
        exists k resp, (a <= k < a + S n)%nat /\ net k = GetReturns resp
                       /\ accept_response resp = Some d).
    { intros d H. destruct (Hd d H) as (k & resp & Hk & Hrest).
      exists k, resp. split; [lia|exact Hrest]. }
    destruct (net a) as [|resp] eqn:En.
    + cbn [fetched requests_made]. split; [lia|exact Hcont].
    + destruct (existsb _ retry_status); cbn [fetched requests_made].
      * split; [lia|exact Hcont].
      * split; [lia|]. intros d H. exists a, resp. split; [lia|auto].
Qed.

Lemma accept_response_Some (resp : HttpResponse) (d : Document) :
  accept_response resp = Some d ->
  d = soup resp
  /\ status_code resp = 200
  /\ (exists h, content_type resp = Some h
                /\ (PyStr.contains "text/html" (PyStr.lower h) = true
                    \/ PyStr.contains "application/xhtml+xml" (PyStr.lower h) = true))
  /\ PyStr.any_in bot_markers (PyStr.lower (str_take 2000 (text resp))) = false
  /\ has_structure (soup resp) = true.
Proof.
  unfold accept_response.
  destruct (Z.eqb_spec (status_code resp) 200) as [Hs|]; cbn [negb]; [|discriminate].
  destruct (content_type resp) as [h|].
  - destruct (PyStr.contains "text/html" (PyStr.lower h)) eqn:E1;
      destruct (PyStr.contains "application/xhtml+xml" (PyStr.lower h)) eqn:E2;
      cbn [negb andb]; try discriminate;
      (destruct (PyStr.any_in bot_markers _) eqn:Eb; [discriminate|]);
      (destruct (has_structure (soup resp)) eqn:Eh; cbn [negb]; [|discriminate]);
      intros H; inversion H; repeat split; eauto.
  - discriminate.
Qed.

(** X12. A document comes back only from a response with status 200, an
    HTML content type, none of the bot-guard markers in the lower-cased
    first 2000 characters and a document with some structure; the
    document is the parse of that response, and at most [max_tries]
    requests are ever made. *)
Theorem X12_fetch_returns_only_good_documents
    (net : nat -> GetResult) (max_tries : nat) :
  (requests_made (_fetch net max_tries) <= max_tries)%nat
  /\ forall d, fetched (_fetch net max_tries) = Some d ->
       exists k resp,
         (1 <= k <= max_tries)%nat
         /\ net k = GetReturns resp
         /\ d = soup resp
         /\ status_code resp = 200
         /\ (exists h, content_type resp = Some h
                       /\ (PyStr.contains "text/html" (PyStr.lower h) = true
                           \/ PyStr.contains "application/xhtml+xml" (PyStr.lower h) = true))
         /\ PyStr.any_in bot_markers (PyStr.lower (str_take 2000 (text resp))) = false
         /\ has_structure (soup resp) = true.
Proof.
  unfold _fetch. destruct (fetch_attempts_good net max_tries 1) as [Hle Hd].
  split; [exact Hle|]. intros d H.
  destruct (Hd d H) as (k & resp & Hk & Hn & Ha).
  exists k, resp. split; [lia|]. split; [exact Hn|].
  now apply accept_response_Some.
Qed.

Example fetch_retries_then_succeeds :
  _fetch (fun j => match j with
                   | 1%nat => GetRaises
                   | 2%nat => GetReturns (mkResponse 503 None "busy"
                                            (mkDocument false (fun _ => [])))
                   | _ => GetReturns (mkResponse 200 (Some "Text/HTML; charset=utf-8")
                                        "<h1>Nature</h1>"
                                        (mkDocument true (fun _ => [])))
                   end) 3
  = mkFetchRun (Some (mkDocument true (fun _ => []))) 3.
Proof. reflexivity. Qed.

Example fetch_gives_up_on_404 :
  _fetch (fun _ => GetReturns (mkResponse 404 (Some "text/html") "<h1>gone</h1>"
                                 (mkDocument true (fun _ => [])))) 3
  = mkFetchRun None 1.
Proof. reflexivity. Qed.

Example fetch_rejects_bot_guard :
  fetched (_fetch (fun _ => GetReturns
                     (mkResponse 200 (Some "text/html")
                        "<html><h1>Checking your browser - Cloudflare</h1></html>"
                        (mkDocument true (fun _ => [])))) 3)
  = None.
Proof. reflexivity. Qed.

Lemma X11_fetch_stops_at_first_final_answer_witness :
  _fetch (fun j => match j with
                   | 1%nat => GetRaises
                   | _ => GetReturns (mkResponse 404 (Some "text/html") "<h1>gone</h1>"
                                        (mkDocument true (fun _ => [])))
                   end) 3
  = mkFetchRun None 2.
Proof.
  apply (proj1 (X11_fetch_stops_at_first_final_answer _ 3 2
                  (mkResponse 404 (Some "text/html") "<h1>gone</h1>"
                     (mkDocument true (fun _ => []))))).
  - lia.
  - intros j Hj. assert (j = 1%nat) as -> by lia. reflexivity.
  - reflexivity.
  - reflexivity.
Defined.

Lemma X12_fetch_returns_only_good_documents_witness :
  (requests_made
     (_fetch (fun _ => GetReturns (mkResponse 503 None "busy"
                                     (mkDocument false (fun _ => [])))) 3)
   <= 3)%nat.
Proof.
  apply (proj1 (X12_fetch_returns_only_good_documents
                  (fun _ => GetReturns (mkResponse 503 None "busy"
                                          (mkDocument false (fun _ => [])))) 3)).
Defined.

(** * Keyword extractor *)

Lemma in_bigrams (toks : list string) (kw : string) :
  In kw (bigrams toks) ->
  exists pre w1 w2 post,
    toks = pre ++ w1 :: w2 :: post /\ kw = (w1 ++ " " ++ w2)%string.
Proof.
  induction toks as [|w1 toks IH]; [intros []|].
  destruct toks as [|w2 rest]; [intros []|].
  cbn [bigrams].
  assert (Hrest : In kw (bigrams (w2 :: rest)) ->
                  exists pre a b post,
                    w1 :: w2 :: rest = pre ++ a :: b :: post
                    /\ kw = (a ++ " " ++ b)%string).
  { intros H. destruct (IH H) as (pre & a & b & post & E & K).
    exists (w1 :: pre), a, b, post. simpl. now rewrite E. }
  destruct (_ && _); [|exact Hrest].
  intros [<-|H]; [|now apply Hrest].
  exists [], w1, w2, rest. split; reflexivity.
Qed.

Lemma in_trigrams (toks : list string) (kw : string) :
  In kw (trigrams toks) ->
  exists pre w1 w2 w3 post,
    toks = pre ++ w1 :: w2 :: w3 :: post
    /\ kw = (w1 ++ " " ++ w2 ++ " " ++ w3)%string
    /\ (3 <= PyStr.len kw <= 40)%nat.
Proof.
  induction toks as [|w1 toks IH]; [intros []|].
  destruct toks as [|w2 [|w3 rest]]; try (intros []).
  cbn [trigrams].
  assert (Hrest : In kw (trigrams (w2 :: w3 :: rest)) ->
                  exists pre a b c post,
                    w1 :: w2 :: w3 :: rest = pre ++ a :: b :: c :: post
                    /\ kw = (a ++ " " ++ b ++ " " ++ c)%string
                    /\ (3 <= PyStr.len kw <= 40)%nat).
  { intros H. destruct (IH H) as (pre & a & b & c & post & E & K).
    exists (w1 :: pre), a, b, c, post. simpl. now rewrite E. }
  destruct (_ && _); [|exact Hrest].
  destruct ((3 <=? _)%nat && (_ <=? 40)%nat) eqn:El; [|exact Hrest].
  intros [<-|H]; [|now apply Hrest].
  exists [], w1, w2, w3, rest. repeat split; try reflexivity;
    apply andb_true_iff in El as [E1 E2];
    [now apply Nat.leb_le in E1|now apply Nat.leb_le in E2].
Qed.

Lemma in_tokens (text w : string) :
  In w (tokens text) -> is_stop_word w = false /\ (2 <= PyStr.len w)%nat.
Proof.
  unfold tokens. intros H. apply filter_In in H as [_ H].
  apply andb_true_iff in H as [H1 H2].
  apply negb_true_iff in H1. now apply Nat.leb_le in H2.
Qed.

Lemma extract_members (arrange : list string -> list string)
    (text : string) (hard_cap : nat) (kw : string) :
  (forall l, Permutation (arrange l) l) ->
  In kw (_extract_keywords arrange text hard_cap) ->
  In kw (tokens (clean_text text) ++ bigrams (tokens (clean_text text))
         ++ trigrams (tokens (clean_text text))).
Proof.
  intros Hp. unfold _extract_keywords.
  destruct (PyStr.is_empty text); [intros []|].
  destruct (PyStr.is_empty (clean_text text)); [intros []|]. cbv zeta.
  intros H.
  assert (H' : In kw (arrange (nodup string_dec
                 (tokens (clean_text text) ++ bigrams (tokens (clean_text text))
                  ++ trigrams (tokens (clean_text text)))))).
  { rewrite <- (firstn_skipn hard_cap (arrange _)). apply in_or_app. now left. }
  apply (Permutation_in kw (Hp _)) in H'. now apply nodup_In in H'.
Qed.

Section Extractor.
Variable arrange : list string -> list string.
Hypothesis arrange_perm : forall l, Permutation (arrange l) l.

Lemma extract_length (text : string) (hard_cap : nat) :
  (List.length (_extract_keywords arrange text hard_cap) <= hard_cap)%nat.
Proof.
  unfold _extract_keywords.
  destruct (PyStr.is_empty text); [simpl; lia|].
  destruct (PyStr.is_empty (clean_text text)); [simpl; lia|].
  cbv zeta. rewrite length_firstn. lia.
Qed.

Lemma extract_NoDup (text : string) (hard_cap : nat) :
  NoDup (_extract_keywords arrange text hard_cap).
Proof.
  unfold _extract_keywords.
  destruct (PyStr.is_empty text); [constructor|].
  destruct (PyStr.is_empty (clean_text text)); [constructor|].
  cbv zeta.
  set (out := nodup string_dec _).
  assert (H : NoDup (arrange out)).
  { apply (Permutation_NoDup (Permutation_sym (arrange_perm out))).
    apply NoDup_nodup. }
  rewrite <- (firstn_skipn hard_cap (arrange out)) in H.
  now apply NoDup_app_remove_r in H.
Qed.
End Extractor.

(** X13. Whatever order the set and the shuffle produce,
    [_extract_keywords] returns at most [hard_cap] keywords and none of
    them twice. *)
Theorem X13_extract_capped_and_distinct
    (arrange : list string -> list string) (text : string) (hard_cap : nat) :
  (forall l, Permutation (arrange l) l) ->
  (List.length (_extract_keywords arrange text hard_cap) <= hard_cap)%nat
  /\ NoDup (_extract_keywords arrange text hard_cap).
Proof.
  intros Hp. split; [apply extract_length|now apply extract_NoDup].
Qed.

Lemma X13_extract_capped_and_distinct_witness :
  (List.length (_extract_keywords (@rev string)
                  "Sunset over the sea & mountains/hills" 5) <= 5)%nat
  /\ NoDup (_extract_keywords (@rev string)
              "Sunset over the sea & mountains/hills" 5).
Proof.
  apply (X13_extract_capped_and_distinct (@rev string)).
  intros l. apply Permutation_sym, Permutation_rev.
Defined.

(** X14. Every keyword [_extract_keywords] returns is one, two or three
    consecutive tokens of the cleaned text joined by single spaces; no
    token is a stop word or shorter than two characters, and a keyword of
    three tokens has 3 to 40 characters. *)
Theorem X14_extract_ngrams
    (arrange : list string -> list string) (text : string) (hard_cap : nat)
    (kw : string) :
  (forall l, Permutation (arrange l) l) ->
  In kw (_extract_keywords arrange text hard_cap) ->
  exists pre ws post,
    tokens (clean_text text) = pre ++ ws ++ post
    /\ (1 <= List.length ws <= 3)%nat
    /\ kw = join_space ws
    /\ Forall (fun w => is_stop_word w = false /\ (2 <= PyStr.len w)%nat) ws
    /\ (List.length ws = 3%nat -> (3 <= PyStr.len kw <= 40)%nat).
Proof.
  intros Hp Hin. apply (extract_members arrange text hard_cap kw Hp) in Hin.
  assert (Hall : forall pre ws post,
             tokens (clean_text text) = pre ++ ws ++ post ->
             Forall (fun w => is_stop_word w = false /\ (2 <= PyStr.len w)%nat) ws).
  { intros pre ws post E. apply Forall_forall. intros w Hw.
    apply (in_tokens (clean_text text)). rewrite E.
    apply in_or_app. right. apply in_or_app. now left. }
  apply in_app_or in Hin as [Hin|Hin]; [|apply in_app_or in Hin as [Hin|Hin]].
  - apply in_split in Hin as (pre & post & E).
    exists pre, [kw], post.
    split; [exact E|]. split; [simpl; lia|]. split; [reflexivity|].
    split; [now apply (Hall pre _ post)|]. simpl. discriminate.
  - apply in_bigrams in Hin as (pre & w1 & w2 & post & E & K).
    exists pre, [w1; w2], post.
    split; [exact E|]. split; [simpl; lia|]. split; [exact K|].
    split; [now apply (Hall pre _ post)|]. simpl. discriminate.
  - apply in_trigrams in Hin as (pre & w1 & w2 & w3 & post & E & K & L).
    exists pre, [w1; w2; w3], post.
    split; [exact E|]. split; [simpl; lia|]. split; [exact K|].
    split; [now apply (Hall pre _ post)|]. intros _. exact L.
Qed.

Lemma X14_extract_ngrams_witness :
  exists pre ws post,
    tokens (clean_text "Sunset over the sea") = pre ++ ws ++ post
    /\ (1 <= List.length ws <= 3)%nat
    /\ "sunset over" = join_space ws.
Proof.
  destruct (X14_extract_ngrams (fun l => l) "Sunset over the sea" 200 "sunset over")
    as (pre & ws & post & E & L & K & _).
  - intros l. apply Permutation_refl.
  - vm_compute. do 3 right. left. reflexivity.
  - exists pre, ws, post. auto.
Defined.

(** ** The characters of an extracted keyword *)

Lemma str_forall_append (p : ascii -> bool) (a b : string) :
  str_forall p (a ++ b)%string = str_forall p a && str_forall p b.
Proof.
  induction a as [|c a IH]; [reflexivity|]. simpl. now rewrite IH, andb_assoc.
Qed.

Lemma blank_lower_char (c : ascii) :
  (if is_kept_char (PyStr.lower_char c) then PyStr.lower_char c else " "%char)
  = " "%char
  \/ (PyStr.isspace (if is_kept_char (PyStr.lower_char c)
                     then PyStr.lower_char c else " "%char) = true)
  \/ is_keyword_char (if is_kept_char (PyStr.lower_char c)
                      then PyStr.lower_char c else " "%char) = true.
Proof.
  destruct c as [[] [] [] [] [] [] [] []];
    first [left; reflexivity | right; left; reflexivity | right; right; reflexivity].
Qed.

Lemma blank_lower_chars (s : string) :
  str_forall space_or_keyword_char (blank_punctuation (PyStr.lower s)) = true.
Proof.
  induction s as [|c s IH]; [reflexivity|].
  cbn [PyStr.lower blank_punctuation str_forall]. rewrite IH, andb_true_r.
  unfold space_or_keyword_char.
  destruct (blank_lower_char c) as [-> | [-> | ->]];
    [reflexivity|reflexivity|apply orb_true_r].
Qed.

Lemma collapse_chars (b : bool) (s : string) :
  str_forall space_or_keyword_char s = true ->
  str_forall is_keyword_char (collapse_from b s) = true.
Proof.
  revert b. induction s as [|c s IH]; intros b H; [reflexivity|].
  cbn [str_forall] in H. apply andb_true_iff in H as [Hc Hs].
  cbn [collapse_from]. unfold space_or_keyword_char in Hc.
  destruct (PyStr.isspace c) eqn:E.
  - destruct b; cbn [str_forall]; rewrite IH by exact Hs; reflexivity.
  - cbn [str_forall]. simpl in Hc. now rewrite Hc, IH.
Qed.

Lemma lstrip_chars (p : ascii -> bool) (s : string) :
  str_forall p s = true -> str_forall p (PyStr.lstrip s) = true.
Proof.
  induction s as [|c s IH]; [reflexivity|]. intros H.
  cbn [PyStr.lstrip]. destruct (PyStr.isspace c); [|exact H].
  cbn [str_forall] in H. apply andb_true_iff in H as [_ H]. auto.
Qed.

Lemma rstrip_chars (p : ascii -> bool) (s : string) :
  str_forall p s = true -> str_forall p (PyStr.rstrip s) = true.
Proof.
  induction s as [|c s IH]; [reflexivity|]. intros H.
  cbn [str_forall] in H. apply andb_true_iff in H as [Hc H].
  cbn [PyStr.rstrip]. destruct (_ && _); [reflexivity|].
  cbn [str_forall]. now rewrite Hc, IH.
Qed.

Lemma clean_text_chars (text : string) :
  str_forall is_keyword_char (clean_text text) = true.
Proof.
  unfold clean_text, PyStr.strip, collapse_whitespace.
  apply rstrip_chars, lstrip_chars, collapse_chars, blank_lower_chars.
Qed.

Lemma split_from_chars (p : ascii -> bool) (s : string) (cur : option string) :
  str_forall p s = true ->
  match cur with Some w => str_forall p w = true | None => True end ->
  Forall (fun w => str_forall p w = true) (PyStr.split_from cur s).
Proof.
  revert cur. induction s as [|c s IH]; intros cur Hs Hc.
  - simpl. destruct cur; repeat constructor; auto.
  - cbn [str_forall] in Hs. apply andb_true_iff in Hs as [Hpc Hs].
    cbn [PyStr.split_from]. destruct (PyStr.isspace c), cur as [w|].
    + constructor; [exact Hc|]. now apply IH.
    + now apply IH.
    + apply IH; [exact Hs|]. unfold PyStr.snoc.
      rewrite str_forall_append, Hc. simpl. now rewrite Hpc.
    + apply IH; [exact Hs|]. simpl. now rewrite Hpc.
Qed.

Lemma join_space_chars (ws : list string) :
  Forall (fun w => str_forall is_keyword_char w = true) ws ->
  str_forall is_keyword_char (join_space ws) = true.
Proof.
  induction 1 as [|w ws Hw Hws IH]; [reflexivity|].
  destruct ws as [|w' ws]; [exact Hw|].
  change (join_space (w :: w' :: ws))
    with (w ++ " " ++ join_space (w' :: ws))%string.
  rewrite !str_forall_append, Hw, IH. reflexivity.
Qed.

Lemma extract_keyword_chars
    (arrange : list string -> list string) (text : string) (hard_cap : nat)
    (kw : string) :
  (forall l, Permutation (arrange l) l) ->
  In kw (_extract_keywords arrange text hard_cap) ->
  str_forall is_keyword_char kw = true /\ PyStr.lower kw = kw.
Proof.
  intros Hp Hin.
  assert (Hc : str_forall is_keyword_char kw = true).
  { apply (extract_members arrange text hard_cap kw Hp) in Hin.
    assert (Htok : Forall (fun w => str_forall is_keyword_char w = true)
                          (tokens (clean_text text))).
    { unfold tokens. apply Forall_forall. intros w Hw.
      apply filter_In in Hw as [Hw _]. revert w Hw. apply Forall_forall.
      apply split_from_chars; [apply clean_text_chars|exact I]. }
    rewrite Forall_forall in Htok.
    apply in_app_or in Hin as [Hin|Hin]; [|apply in_app_or in Hin as [Hin|Hin]].
    - now apply Htok.
    - apply in_bigrams in Hin as (pre & w1 & w2 & post & E & ->).
      apply (join_space_chars [w1; w2]).
      repeat constructor; apply Htok; rewrite E; apply in_or_app; right; simpl; auto.
    - apply in_trigrams in Hin as (pre & w1 & w2 & w3 & post & E & -> & _).
      apply (join_space_chars [w1; w2; w3]).
      repeat constructor; apply Htok; rewrite E; apply in_or_app; right; simpl; auto. }
  split; [exact Hc|].
  clear Hin. induction kw as [|c kw IH]; [reflexivity|].
  cbn [str_forall] in Hc. apply andb_true_iff in Hc as [Hc Hk].
  cbn [PyStr.lower]. rewrite (IH Hk). f_equal.
  unfold is_keyword_char in Hc. apply andb_true_iff in Hc as [_ Hc].
  now apply Ascii.eqb_eq in Hc.
Qed.

(** X15. An extracted keyword holds only word characters ([\w]), single
    separating spaces, hyphens, ampersands and slashes, and every one of
    its characters is left unchanged by [lower]: no upper-case letter and
    no other punctuation comes through. *)
Theorem X15_extract_characters
    (arrange : list string -> list string) (text : string) (hard_cap : nat)
    (kw : string) :
  (forall l, Permutation (arrange l) l) ->
  In kw (_extract_keywords arrange text hard_cap) ->
  str_forall is_keyword_char kw = true /\ PyStr.lower kw = kw.
Proof. apply extract_keyword_chars. Qed.

Lemma X15_extract_characters_witness :
  str_forall is_keyword_char "mountains/hills" = true
  /\ PyStr.lower "mountains/hills" = "mountains/hills".
Proof.
  apply (X15_extract_characters (fun l => l)
           "Sunset over the SEA & Mountains/Hills!" 200 "mountains/hills").
  - intros l. apply Permutation_refl.
  - vm_compute. do 3 right. left. reflexivity.
Defined.

(** * Extracted keywords and the dedup key *)

Lemma snoc_is_word (w : string) (c : ascii) :
  (PyStr.is_empty w = true \/ is_word w = true) -> PyStr.isspace c = false ->
  is_word (PyStr.snoc w c) = true.
Proof.
  intros Hw Hc. unfold is_word, PyStr.snoc. rewrite str_forall_append.
  cbn [str_forall]. rewrite Hc. cbn [negb andb]. rewrite andb_true_r.
  destruct w as [|a w]; [reflexivity|].
  destruct Hw as [Hw|Hw]; [discriminate Hw|].
  unfold is_word in Hw. simpl in *. exact Hw.
Qed.

Lemma split_from_words (s : string) (cur : option string) :
  match cur with Some w => is_word w = true | None => True end ->
  Forall (fun w => is_word w = true) (PyStr.split_from cur s).
Proof.
  revert cur. induction s as [|c s IH]; intros cur Hc.
  - simpl. destruct cur; repeat constructor; auto.
  - cbn [PyStr.split_from]. destruct (PyStr.isspace c) eqn:E, cur as [w|].
    + constructor; [exact Hc|]. now apply IH.
    + now apply IH.
    + apply IH. apply snoc_is_word; auto.
    + apply IH. unfold is_word. simpl. now rewrite E.
Qed.

Lemma tokens_are_words (text : string) :
  Forall (fun w => is_word w = true) (tokens text).
Proof.
  unfold tokens. apply Forall_forall. intros w Hw.
  apply filter_In in Hw as [Hw _]. revert w Hw. apply Forall_forall.
  now apply split_from_words.
Qed.

Lemma lstrip_word_first (w rest : string) :
  is_word w = true -> PyStr.lstrip (w ++ rest)%string = (w ++ rest)%string.
Proof.
  destruct w as [|c w]; [discriminate|]. unfold is_word. simpl.
  intros H. apply andb_true_iff in H as [H _]. apply negb_true_iff in H.
  now rewrite H.
Qed.

Lemma rstrip_word_last (a w : string) :
  is_word w = true -> PyStr.rstrip (a ++ w)%string = (a ++ w)%string.
Proof.
  intros Hw. induction a as [|c a IH].
  - simpl. induction w as [|c w IHw]; [reflexivity|].
    unfold is_word in Hw. simpl in Hw. apply andb_true_iff in Hw as [Hc Hw].
    apply negb_true_iff in Hc. cbn [PyStr.rstrip]. rewrite Hc. cbn [andb].
    destruct w as [|c' w]; [reflexivity|].
    rewrite IHw; [reflexivity|]. unfold is_word. simpl. exact Hw.
  - cbn [append PyStr.rstrip]. rewrite IH.
    destruct (a ++ w)%string eqn:E.
    + destruct a; [simpl in E; subst w; discriminate Hw|discriminate E].
    + cbn [PyStr.is_empty]. now rewrite andb_false_r.
Qed.

Lemma strip_between_words (w1 mid w2 : string) :
  is_word w1 = true -> is_word w2 = true ->
  PyStr.strip (w1 ++ mid ++ w2)%string = (w1 ++ mid ++ w2)%string.
Proof.
  intros H1 H2. unfold PyStr.strip. rewrite lstrip_word_first by exact H1.
  rewrite <- append_assoc. now apply rstrip_word_last.
Qed.

Lemma append_empty_r (w : string) : (w ++ "")%string = w.
Proof. induction w as [|c w IH]; [reflexivity|]. simpl. now rewrite IH. Qed.

Lemma strip_word (w : string) : is_word w = true -> PyStr.strip w = w.
Proof.
  intros H. unfold PyStr.strip.
  rewrite <- (append_empty_r w) at 1.
  rewrite lstrip_word_first by exact H. rewrite append_empty_r.
  exact (rstrip_word_last "" w H).
Qed.

Lemma extracted_normalized
    (arrange : list string -> list string) (text : string) (hard_cap : nat)
    (kw : string) :
  (forall l, Permutation (arrange l) l) ->
  In kw (_extract_keywords arrange text hard_cap) ->
  normalize kw = kw /\ kw <> "".
Proof.
  intros Hp Hin.
  destruct (extract_keyword_chars arrange text hard_cap kw Hp Hin) as [_ Hl].
  apply (extract_members arrange text hard_cap kw Hp) in Hin.
  pose proof (tokens_are_words (clean_text text)) as Hw.
  rewrite Forall_forall in Hw.
  assert (Hs : PyStr.strip kw = kw /\ kw <> "").
  { apply in_app_or in Hin as [Hin|Hin]; [|apply in_app_or in Hin as [Hin|Hin]].
    - split; [now apply strip_word, Hw|].
      intros ->. specialize (Hw _ Hin). discriminate Hw.
    - apply in_bigrams in Hin as (pre & w1 & w2 & post & E & ->).
      assert (H1 : is_word w1 = true)
        by (apply Hw; rewrite E; apply in_or_app; right; simpl; auto).
      assert (H2 : is_word w2 = true)
        by (apply Hw; rewrite E; apply in_or_app; right; simpl; auto).
      split; [now apply strip_between_words|].
      destruct w1; [discriminate H1|discriminate].
    - apply in_trigrams in Hin as (pre & w1 & w2 & w3 & post & E & -> & _).
      assert (H1 : is_word w1 = true)
        by (apply Hw; rewrite E; apply in_or_app; right; simpl; auto).
      assert (H3 : is_word w3 = true)
        by (apply Hw; rewrite E; apply in_or_app; right; simpl; auto).
      split.
      + replace (w1 ++ " " ++ w2 ++ " " ++ w3)%string
          with (w1 ++ (" " ++ w2 ++ " ") ++ w3)%string
          by (now rewrite !append_assoc).
        now apply strip_between_words.
      + destruct w1; [discriminate H1|discriminate]. }
  destruct Hs as [Hs Hne]. split; [|exact Hne].
  unfold normalize. now rewrite Hs.
Qed.

(** X24. An extracted keyword is not empty and is already in the form
    [collect] uses as dedup key: trimming and lower-casing leave it as it
    is.  Extracted keywords therefore collide in the dedup pass exactly
    when they are the same string. *)
Theorem X24_extracted_keywords_are_normalized
    (arrange : list string -> list string) (text : string) (hard_cap : nat)
    (kw : string) :
  (forall l, Permutation (arrange l) l) ->
  In kw (_extract_keywords arrange text hard_cap) ->
  normalize kw = kw /\ kw <> "".
Proof. apply extracted_normalized. Qed.

Lemma X24_extracted_keywords_are_normalized_witness :
  normalize "sunset over" = "sunset over" /\ "sunset over" <> "".
Proof.
  apply (X24_extracted_keywords_are_normalized (fun l => l)
           "  Sunset over the SEA!" 200 "sunset over").
  - intros l. apply Permutation_refl.
  - vm_compute. do 3 right. left. reflexivity.
Defined.

(** * Source adapters *)

Lemma map_indexed_length {A B : Type} (f : nat -> A -> B) (i : nat) (l : list A) :
  List.length (map_indexed f i l) = List.length l.
Proof.
  revert i. induction l as [|x l IH]; intros i; [reflexivity|].
  simpl. now rewrite IH.
Qed.

Lemma in_map_indexed {A B : Type} (f : nat -> A -> B) (i : nat) (l : list A) (y : B) :
  In y (map_indexed f i l) -> exists n x, In x l /\ y = f n x.
Proof.
  revert i. induction l as [|x l IH]; intros i; [intros []|].
  simpl. intros [<-|H].
  - exists i, x. auto.
  - destruct (IH _ H) as (n & x' & Hx & ->). exists n, x'. auto.
Qed.

Lemma score_in_range (kw src : string) (j : Z) : 50 <= _score kw src j <= 99.
Proof. unfold _score. apply clamp_bounds. lia. Qed.

Lemma scored_records_well_scored (src : string) (jit : nat -> Z) (kws : list string) :
  Forall (well_scored src) (scored_records src jit kws).
Proof.
  apply Forall_forall. intros t Ht. unfold scored_records in Ht.
  apply in_map_indexed in Ht as (n & kw & _ & ->).
  unfold well_scored, scored_record. simpl.
  repeat split; try reflexivity; apply score_in_range.
Qed.

Lemma scored_records_length (src : string) (jit : nat -> Z) (kws : list string) :
  List.length (scored_records src jit kws) = List.length kws.
Proof. apply map_indexed_length. Qed.

Lemma concat_length_bound {A : Type} (c : nat) (ls : list (list A)) :
  Forall (fun l => (List.length l <= c)%nat) ls ->
  (List.length (List.concat ls) <= List.length ls * c)%nat.
Proof.
  induction 1 as [|l ls Hl Hls IH]; simpl; [lia|].
  rewrite length_app. lia.
Qed.

Lemma concat_Forall {A : Type} (P : A -> Prop) (ls : list (list A)) :
  Forall (Forall P) ls -> Forall P (List.concat ls).
Proof.
  induction 1 as [|l ls Hl Hls IH]; simpl; [constructor|].
  apply Forall_app. auto.
Qed.

Lemma map_indexed_Forall {A B : Type} (P : B -> Prop) (f : nat -> A -> B)
    (i : nat) (l : list A) :
  (forall n x, P (f n x)) -> Forall P (map_indexed f i l).
Proof.
  intros H. revert i. induction l as [|x l IH]; intros i; simpl; constructor; auto.
Qed.

(** What every adapter does last: shuffle, then keep [limit_terms]. *)
Lemma shuffled_take {A : Type} (P : A -> Prop) (shuffle : list A -> list A)
    (limit c : nat) (l : list A) :
  (forall l, Permutation (shuffle l) l) ->
  Forall P l -> (List.length l <= c)%nat ->
  (List.length (firstn limit (shuffle l)) <= limit)%nat
  /\ (List.length (firstn limit (shuffle l)) <= c)%nat
  /\ Forall P (firstn limit (shuffle l)).
Proof.
  intros Hp HP Hc.
  rewrite length_firstn, (Permutation_length (Hp l)).
  split; [lia|split; [lia|]].
  apply Forall_forall. intros x Hx.
  assert (Hin : In x (shuffle l)).
  { rewrite <- (firstn_skipn limit (shuffle l)). apply in_or_app. now left. }
  apply (Permutation_in x (Hp l)) in Hin.
  rewrite Forall_forall in HP. auto.
Qed.

Lemma pexels_seed_facts (q : string) (photos : option (list (option string)))
    (ch : Chance) :
  (List.length (pexels_seed q photos ch) <= 5)%nat
  /\ Forall (well_scored "pexels_api") (pexels_seed q photos ch).
Proof.
  unfold pexels_seed. destruct photos as [alts|]; [|split; [simpl; lia|constructor]].
  cbv zeta. split; [|apply scored_records_well_scored].
  rewrite scored_records_length, length_firstn. lia.
Qed.

(** X19. [source_pexels_api] returns nothing without an API key.  With
    one it returns at most [limit_terms] records and at most 45 (five for
    each of the nine seeds); each has source "pexels_api", the category
    the categorizer gives its keyword and a popularity of 50 to 99.
    Seeds whose request failed add nothing. *)
Theorem X19_source_pexels_api
    (pexels_key : string) (answers : nat -> option (list (option string)))
    (chance : nat -> Chance) (shuffle : list TrendRecord -> list TrendRecord)
    (limit_terms : nat) :
  (forall l, Permutation (shuffle l) l) ->
  (List.length (source_pexels_api pexels_key answers chance shuffle limit_terms)
   <= Nat.min limit_terms 45)%nat
  /\ Forall (well_scored "pexels_api")
            (source_pexels_api pexels_key answers chance shuffle limit_terms)
  /\ (pexels_key = "" ->
      source_pexels_api pexels_key answers chance shuffle limit_terms = [])
  /\ ((forall i, answers i = None) ->
      source_pexels_api pexels_key answers chance shuffle limit_terms = []).
Proof.
  intros Hp. unfold source_pexels_api.
  destruct (PyStr.is_empty pexels_key) eqn:Ek.
  - repeat split; try reflexivity; [simpl; lia|constructor].
  - cbv zeta.
    set (trends := List.concat _).
    assert (Hlen : (List.length trends <= 45)%nat).
    { unfold trends.
      change 45%nat with (List.length pexels_seeds * 5)%nat.
      rewrite <- (map_indexed_length
                    (fun i q => pexels_seed q (answers i) (chance i)) 0 pexels_seeds).
      apply concat_length_bound, map_indexed_Forall.
      intros n x. apply pexels_seed_facts. }
    assert (Hwf : Forall (well_scored "pexels_api") trends).
    { apply concat_Forall, map_indexed_Forall. intros n x. apply pexels_seed_facts. }
    destruct (shuffled_take _ shuffle limit_terms 45 trends Hp Hwf Hlen)
      as (H1 & H2 & H3).
    split; [lia|]. split; [exact H3|]. split.
    + intros ->. discriminate Ek.
    + intros Hnone.
      assert (Ht : trends = []).
      { unfold trends, pexels_seeds. cbn [map_indexed].
        rewrite !Hnone. reflexivity. }
      rewrite Ht.
      assert (Hs : shuffle [] = []) by (apply Permutation_nil, Permutation_sym, Hp).
      rewrite Hs. now destruct limit_terms.
Qed.

Lemma X19_source_pexels_api_witness :
  (List.length
     (source_pexels_api "KEY"
        (fun i => if Nat.eqb i 2 then Some [Some "Green Forest at dawn"; None] else None)
        (fun _ => mkChance (fun _ l => l) (@rev string) (fun _ => 1%Z))
        (@rev TrendRecord) 3)
   <= Nat.min 3 45)%nat.
Proof.
  apply (X19_source_pexels_api "KEY"
           (fun i => if Nat.eqb i 2 then Some [Some "Green Forest at dawn"; None] else None)
           (fun _ => mkChance (fun _ l => l) (@rev string) (fun _ => 1%Z))
           (@rev TrendRecord) 3).
  intros l. apply Permutation_sym, Permutation_rev.
Defined.

Lemma unsplash_seed_facts (q : string)
    (results : option (list (option string * option string))) (ch : Chance) :
  (List.length (unsplash_seed q results ch) <= 6)%nat
  /\ Forall (well_scored "unsplash_api") (unsplash_seed q results ch).
Proof.
  unfold unsplash_seed. destruct results as [items|]; [|split; [simpl; lia|constructor]].
  cbv zeta. split; [|apply scored_records_well_scored].
  rewrite scored_records_length, length_firstn. lia.
Qed.

Lemma topic_page_facts (page : option Document) (ch : Chance) :
  (List.length (topic_page page ch) <= 10)%nat
  /\ Forall (well_scored "unsplash_topics") (topic_page page ch).
Proof.
  unfold topic_page. destruct page as [d|]; [|split; [simpl; lia|constructor]].
  cbv zeta. split; [|apply scored_records_well_scored].
  rewrite scored_records_length, length_firstn. lia.
Qed.

(** X20. [source_unsplash_api_or_topics] uses the API when a key is set
    and the topic pages otherwise.  Either way it returns at most
    [limit_terms] records with a popularity of 50 to 99 and the category
    of the categorizer; with a key they are tagged "unsplash_api" and
    number at most 54, without one they are tagged "unsplash_topics" and
    number at most 60, and none at all when no page could be fetched. *)
Theorem X20_source_unsplash
    (unsplash_key : string)
    (answers : nat -> option (list (option string * option string)))
    (net : nat -> nat -> GetResult) (chance : nat -> Chance)
    (shuffle : list TrendRecord -> list TrendRecord) (limit_terms : nat) :
  (forall l, Permutation (shuffle l) l) ->
  (List.length (source_unsplash_api_or_topics unsplash_key answers net chance
                  shuffle limit_terms) <= limit_terms)%nat
  /\ (unsplash_key <> "" ->
      (List.length (source_unsplash_api_or_topics unsplash_key answers net chance
                      shuffle limit_terms) <= 54)%nat
      /\ Forall (well_scored "unsplash_api")
                (source_unsplash_api_or_topics unsplash_key answers net chance
                   shuffle limit_terms))
  /\ (unsplash_key = "" ->
      (List.length (source_unsplash_api_or_topics unsplash_key answers net chance
                      shuffle limit_terms) <= 60)%nat
      /\ Forall (well_scored "unsplash_topics")
                (source_unsplash_api_or_topics unsplash_key answers net chance
                   shuffle limit_terms)
      /\ ((forall i, fetched (_fetch (net i) 3) = None) ->
          source_unsplash_api_or_topics unsplash_key answers net chance
            shuffle limit_terms = [])).
Proof.
  intros Hp. unfold source_unsplash_api_or_topics.
  assert (Hapi :
    (List.length (_unsplash_api answers chance shuffle limit_terms) <= limit_terms)%nat
    /\ (List.length (_unsplash_api answers chance shuffle limit_terms) <= 54)%nat
    /\ Forall (well_scored "unsplash_api")
              (_unsplash_api answers chance shuffle limit_terms)).
  { unfold _unsplash_api. cbv zeta. apply shuffled_take; [exact Hp| |].
    - apply concat_Forall, map_indexed_Forall. intros n x. apply unsplash_seed_facts.
    - change 54%nat with (List.length unsplash_seeds * 6)%nat.
      rewrite <- (map_indexed_length
                    (fun i q => unsplash_seed q (answers i) (chance i)) 0 unsplash_seeds).
      apply concat_length_bound, map_indexed_Forall.
      intros n x. apply unsplash_seed_facts. }
  assert (Htop :
    (List.length (_unsplash_topics_html net chance shuffle limit_terms) <= limit_terms)%nat
    /\ (List.length (_unsplash_topics_html net chance shuffle limit_terms) <= 60)%nat
    /\ Forall (well_scored "unsplash_topics")
              (_unsplash_topics_html net chance shuffle limit_terms)).
  { unfold _unsplash_topics_html. cbv zeta. apply shuffled_take; [exact Hp| |].
    - apply concat_Forall, map_indexed_Forall. intros n x. apply topic_page_facts.
    - change 60%nat with (List.length topic_urls * 10)%nat.
      rewrite <- (map_indexed_length
                    (fun i (_ : string) =>
                       topic_page (fetched (_fetch (net i) 3)) (chance i))
                    0 topic_urls).
      apply concat_length_bound, map_indexed_Forall.
      intros n x. apply topic_page_facts. }
  destruct unsplash_key as [|c k]; cbn [PyStr.is_empty negb].
  - split; [apply Htop|]. split; [congruence|]. intros _.
    split; [apply Htop|]. split; [apply Htop|].
    intros Hnone. unfold _unsplash_topics_html, topic_urls. cbn [map_indexed].
    rewrite !Hnone. cbn [topic_page List.concat app].
    assert (Hs : shuffle [] = []) by (apply Permutation_nil, Permutation_sym, Hp).
    rewrite Hs. now destruct limit_terms.
  - split; [apply Hapi|]. split; [|discriminate]. intros _.
    split; apply Hapi.
Qed.

Lemma pytrends_seed_facts (rows : list (option string)) (ch : Chance) :
  (List.length (pytrends_seed rows ch) <= 60)%nat
  /\ Forall (well_scored "pytrends") (pytrends_seed rows ch).
Proof.
  unfold pytrends_seed. cbv zeta. split; [|apply scored_records_well_scored].
  rewrite scored_records_length.
  set (blocks := map_indexed _ 0 (firstn 6 rows)).
  assert (Hn : (List.length blocks <= 6)%nat).
  { unfold blocks. rewrite map_indexed_length, length_firstn. lia. }
  assert (Hb : (List.length (List.concat blocks) <= List.length blocks * 10)%nat).
  { apply concat_length_bound. unfold blocks. apply map_indexed_Forall.
    intros n q. cbv zeta. destruct (PyStr.is_empty _); [simpl; lia|].
    apply extract_length. }
  nia.
Qed.

(** X21. [source_pytrends] returns nothing when the trends library is
    missing or its client cannot be created.  Otherwise it returns at most
    [limit_terms] records, and at most 420 (seven seeds, six rows each,
    ten keywords a row), each tagged "pytrends" with the categorizer's
    category and a popularity of 50 to 99. *)
Theorem X21_source_pytrends
    (PYTRENDS_OK client_ok : bool) (answers : nat -> list (option string))
    (chance : nat -> Chance) (shuffle : list TrendRecord -> list TrendRecord)
    (limit_terms : nat) :
  (forall l, Permutation (shuffle l) l) ->
  (List.length (source_pytrends PYTRENDS_OK client_ok answers chance shuffle
                  limit_terms) <= Nat.min limit_terms 420)%nat
  /\ Forall (well_scored "pytrends")
            (source_pytrends PYTRENDS_OK client_ok answers chance shuffle limit_terms)
  /\ (PYTRENDS_OK = false \/ client_ok = false ->
      source_pytrends PYTRENDS_OK client_ok answers chance shuffle limit_terms = []).
Proof.
  intros Hp. unfold source_pytrends.
  destruct PYTRENDS_OK, client_ok; cbn [negb];
    try (repeat split; try reflexivity; [simpl; lia|constructor]).
  cbv zeta. set (trends := List.concat _).
  assert (Hlen : (List.length trends <= 420)%nat).
  { unfold trends. change 420%nat with (List.length pytrends_seeds * 60)%nat.
    rewrite <- (map_indexed_length
                  (fun i (_ : string) => pytrends_seed (answers i) (chance i))
                  0 pytrends_seeds).
    apply concat_length_bound, map_indexed_Forall.
    intros n x. apply pytrends_seed_facts. }
  assert (Hwf : Forall (well_scored "pytrends") trends).
  { apply concat_Forall, map_indexed_Forall. intros n x. apply pytrends_seed_facts. }
  destruct (shuffled_take _ shuffle limit_terms 420 trends Hp Hwf Hlen)
    as (H1 & H2 & H3).
  split; [lia|]. split; [exact H3|]. intros [H|H]; discriminate H.
Qed.

Lemma X20_source_unsplash_witness :
  source_unsplash_api_or_topics ""
    (fun _ => None) (fun _ _ => GetRaises)
    (fun _ => mkChance (fun _ l => l) (fun l => l) (fun _ => 0))
    (@rev TrendRecord) 30 = [].
Proof.
  destruct (X20_source_unsplash ""
              (fun _ => None) (fun _ _ => GetRaises)
              (fun _ => mkChance (fun _ l => l) (fun l => l) (fun _ => 0))
              (@rev TrendRecord) 30) as (_ & _ & H).
  - intros l. apply Permutation_sym, Permutation_rev.
  - destruct (H eq_refl) as (_ & _ & Hnone). apply Hnone. intros i. reflexivity.
Defined.

Lemma X21_source_pytrends_witness :
  Forall (well_scored "pytrends")
    (source_pytrends true true
       (fun i => if Nat.eqb i 0 then [Some " AI Art generator "; None] else [])
       (fun _ => mkChance (fun _ l => l) (fun l => l) (fun _ => 2))
       (@rev TrendRecord) 30).
Proof.
  apply (X21_source_pytrends true true
           (fun i => if Nat.eqb i 0 then [Some " AI Art generator "; None] else [])
           (fun _ => mkChance (fun _ l => l) (fun l => l) (fun _ => 2))
           (@rev TrendRecord) 30).
  intros l. apply Permutation_sym, Permutation_rev.
Defined.

(** * The adapters' records through the orchestrator *)

Lemma seasonal_records_in_range (m : Z) (rl : nat -> Z) :
  (forall i, (i < 6)%nat -> 70 <= rl i <= 88) ->
  Forall (fun t => well_scored "seasonal" t) (source_seasonal m rl).
Proof.
  intros Hr. unfold source_seasonal. generalize (season_of m). intros s.
  repeat (constructor;
          [unfold well_scored; cbn [source category keyword popularity];
           split; [reflexivity|split; [reflexivity|]];
           match goal with |- _ <= rl ?i <= _ =>
             assert (70 <= rl i <= 88) by (apply Hr; lia); lia end|]).
  constructor.
Qed.

Lemma in_returned_lists (evs : list (string * FutureResult)) (t : TrendRecord) :
  In t (List.concat (map returned_list evs)) ->
  exists src res, In (src, Returned res) evs /\ In t res.
Proof.
  induction evs as [|[src fut] evs IH]; [intros []|].
  cbn [map List.concat]. intros H. apply in_app_or in H as [H|H].
  - unfold returned_list in H. simpl in H. destruct fut as [res|e]; [|destruct H].
    exists src, res. split; [now left|exact H].
  - destruct (IH H) as (n & res & Hin & Ht). exists n, res. split; [now right|exact Ht].
Qed.

Lemma sum_popularity_bounds (lo hi : Z) (l : list TrendRecord) :
  Forall (fun t => lo <= popularity t <= hi) l ->
  lo * Z.of_nat (List.length l) <= sum_popularity l <= hi * Z.of_nat (List.length l).
Proof.
  induction 1 as [|t l Ht Hl IH]; [simpl; lia|].
  unfold sum_popularity in *. cbn [fold_right List.length]. lia.
Qed.

(** X22. When every record the adapters hand over has a popularity of 50
    to 99 and the category of the categorizer, as their records have, and
    the seasonal rolls are in range, then the same holds of every trending
    record, and every [avg_popularity] lies between 50 and 99.  When
    moreover no adapter record is tagged "seasonal", [seasonal_trends]
    holds only records of the seasonal fallback. *)
Theorem X22_ranges_carry_over (w : World) (r : CollectionResult) :
  collect w = Return r ->
  (forall src res t, In (src, Returned res) (completed w) -> In t res ->
                     50 <= popularity t <= 99
                     /\ category t = _categorize (keyword t)) ->
  (forall i, (i < 6)%nat -> 70 <= roll w i <= 88) ->
  Forall (fun t => 50 <= popularity t <= 99
                   /\ category t = _categorize (keyword t))
         (trending_searches r)
  /\ Forall (fun e => (inject_Z 50 <= avg_popularity e <= inject_Z 99)%Q)
            (popular_categories r)
  /\ ((forall src res t, In (src, Returned res) (completed w) -> In t res ->
                         source t <> "seasonal") ->
      incl (seasonal_trends r) (source_seasonal (month w) (roll w))).
Proof.
  intros Hc Had Hroll.
  destruct (collect_inv w r Hc) as (Ht & Hp & Hs).
  assert (Hcand : forall t, In t (trending_searches r) -> In t (candidates w)).
  { intros t Hin. rewrite Ht in Hin. apply top_trends_incl in Hin.
    unfold Dict.values in Hin. apply in_map_iff in Hin as [[k v] [<- Hin]].
    now destruct (dedup_well_keyed _ k v Hin) as (_ & _ & Hv). }
  pose proof (seasonal_records_in_range (month w) (roll w) Hroll) as Hsea.
  rewrite Forall_forall in Hsea.
  assert (Htr : Forall (fun t => 50 <= popularity t <= 99
                                 /\ category t = _categorize (keyword t))
                       (trending_searches r)).
  { apply Forall_forall. intros t Hin. apply Hcand in Hin.
    rewrite candidates_eq in Hin. apply in_app_or in Hin as [Hin|Hin].
    - apply in_returned_lists in Hin as (src & res & Hev & Hres). eauto.
    - destruct (Hsea t Hin) as (_ & Hcat & Hpop). auto. }
  split; [exact Htr|]. split.
  - destruct (build_categories_spec (trending_searches r)) as (cats & _ & Hin & Hb).
    rewrite Hp, Hb. apply Forall_forall. intros e He.
    apply in_map_iff in He as [c [<- Hc']].
    apply Hin in Hc'. apply members_nonempty in Hc'.
    assert (Hm : Forall (fun t => 50 <= popularity t <= 99)
                        (members c (trending_searches r))).
    { apply Forall_forall. intros t Hin'. unfold members in Hin'.
      apply filter_In in Hin' as [Hin' _].
      rewrite Forall_forall in Htr. now apply Htr. }
    pose proof (sum_popularity_bounds 50 99 _ Hm) as Hsum.
    unfold summary_of. cbn [avg_popularity].
    destruct (members c (trending_searches r)) as [|t m] eqn:Em; [congruence|].
    unfold Qle, inject_Z. cbn [Qnum Qden List.length] in *.
    rewrite <- Pos.of_nat_succ. lia.
  - intros Hno t Hin. rewrite Hs in Hin. apply filter_In in Hin as [Hin Hsrc].
    unfold is_seasonal in Hsrc. apply String.eqb_eq in Hsrc.
    apply Hcand in Hin. rewrite candidates_eq in Hin.
    apply in_app_or in Hin as [Hin|Hin]; [|exact Hin].
    apply in_returned_lists in Hin as (src & res & Hev & Hres).
    exfalso. exact (Hno src res t Hev Hres Hsrc).
Qed.

Lemma X22_ranges_carry_over_witness :
  exists r, collect busy_world = Return r
            /\ Forall (fun e => (inject_Z 50 <= avg_popularity e <= inject_Z 99)%Q)
                      (popular_categories r).
Proof.
  destruct (collect busy_world) as [r|e] eqn:E.
  - exists r. split; [reflexivity|].
    apply (X22_ranges_carry_over busy_world r E).
    + intros src res t [Hev|[]] Ht. inversion Hev; subst. clear Hev.
      repeat (destruct Ht as [<-|Ht];
              [split; [apply score_in_range|reflexivity]|]).
      destruct Ht.
    + intros i _. cbn. lia.
  - vm_compute in E. discriminate E.
Defined.

(** * The keywords the adapters return *)

Lemma in_concat_map_indexed {A B : Type} (f : nat -> A -> list B) (i : nat)
    (l : list A) (y : B) :
  In y (List.concat (map_indexed f i l)) ->
  exists n x, In x l /\ In y (f n x).
Proof.
  revert i. induction l as [|x l IH]; intros i; [intros []|].
  cbn [map_indexed List.concat]. intros H. apply in_app_or in H as [H|H].
  - exists i, x. split; [now left|exact H].
  - destruct (IH _ H) as (n & x' & Hx & Hy). exists n, x'. split; [now right|exact Hy].
Qed.

Lemma in_scored_records (src : string) (jit : nat -> Z) (kws : list string)
    (t : TrendRecord) :
  In t (scored_records src jit kws) -> In (keyword t) kws.
Proof.
  unfold scored_records. intros H.
  apply in_map_indexed in H as (n & kw & Hkw & ->). exact Hkw.
Qed.

Lemma in_firstn_arranged {A : Type} (arrange : list A -> list A) (n : nat)
    (l : list A) (x : A) :
  (forall l, Permutation (arrange l) l) ->
  In x (firstn n (arrange l)) -> In x l.
Proof.
  intros Hp H. apply (Permutation_in x (Hp l)).
  rewrite <- (firstn_skipn n (arrange l)). apply in_or_app. now left.
Qed.

(** The records built from a seed and extracted keywords, cut to [cap]. *)
Lemma seed_records_normalized (src q : string) (ch : Chance) (cap : nat)
    (blocks : list (list string)) :
  chance_fair ch ->
  (q = "" \/ (normalize q = q /\ q <> "")) ->
  Forall (Forall (fun kw => normalize kw = kw /\ kw <> "")) blocks ->
  Forall keyword_normalized
    (scored_records src (jitter ch)
       (firstn cap (set_order ch
          (nodup string_dec
             (match q with "" => [] | _ => [q] end ++ List.concat blocks))))).
Proof.
  intros [_ Hset] Hq Hb. apply Forall_forall. intros t Ht.
  apply in_scored_records in Ht.
  apply (in_firstn_arranged _ _ _ _ Hset) in Ht. apply nodup_In in Ht.
  unfold keyword_normalized. apply in_app_or in Ht as [Ht|Ht].
  - destruct q as [|c q]; [destruct Ht|]. destruct Ht as [<-|[]].
    destruct Hq as [Hq|Hq]; [discriminate Hq|exact Hq].
  - apply in_concat in Ht as (block & Hblock & Hkw).
    rewrite Forall_forall in Hb. specialize (Hb block Hblock).
    rewrite Forall_forall in Hb. now apply Hb.
Qed.

Lemma extract_block_normalized (arrange : list string -> list string)
    (text : string) (cap : nat) :
  (forall l, Permutation (arrange l) l) ->
  Forall (fun kw => normalize kw = kw /\ kw <> "")
         (_extract_keywords arrange text cap).
Proof.
  intros Hp. apply Forall_forall. intros kw Hin.
  exact (extracted_normalized arrange text cap kw Hp Hin).
Qed.

Lemma pexels_seed_normalized (q : string) (photos : option (list (option string)))
    (ch : Chance) :
  chance_fair ch -> In q pexels_seeds ->
  Forall keyword_normalized (pexels_seed q photos ch).
Proof.
  intros Hf Hq. unfold pexels_seed. destruct photos as [alts|]; [|constructor].
  cbv zeta.
  assert (Hqn : normalize q = q /\ q <> "").
  { unfold pexels_seeds in Hq. simpl in Hq.
    repeat (destruct Hq as [<-|Hq]; [split; [reflexivity|discriminate]|]).
    destruct Hq. }
  pose proof (seed_records_normalized "pexels_api" q ch 5
                (map_indexed
                   (fun n alt =>
                      _extract_keywords (extract_order ch n)
                        (PyStr.lower (PyStr.strip (or_empty alt))) 20) 0 alts)
                Hf (or_intror Hqn)) as H.
  destruct q as [|c q]; [now destruct Hqn|].
  apply H. apply map_indexed_Forall. intros n alt.
  apply extract_block_normalized, Hf.
Qed.

Lemma unsplash_seed_normalized (q : string)
    (results : option (list (option string * option string))) (ch : Chance) :
  chance_fair ch -> In q unsplash_seeds ->
  Forall keyword_normalized (unsplash_seed q results ch).
Proof.
  intros Hf Hq. unfold unsplash_seed. destruct results as [items|]; [|constructor].
  cbv zeta.
  assert (Hqn : normalize q = q /\ q <> "").
  { unfold unsplash_seeds in Hq. simpl in Hq.
    repeat (destruct Hq as [<-|Hq]; [split; [reflexivity|discriminate]|]).
    destruct Hq. }
  pose proof (seed_records_normalized "unsplash_api" q ch 6
                (map_indexed (unsplash_item_keywords ch) 0 items)
                Hf (or_intror Hqn)) as H.
  destruct q as [|c q]; [now destruct Hqn|].
  apply H. apply map_indexed_Forall. intros n item.
  unfold unsplash_item_keywords. cbv zeta.
  apply Forall_app. split; apply extract_block_normalized, Hf.
Qed.

Lemma topic_page_normalized (page : option Document) (ch : Chance) :
  chance_fair ch -> Forall keyword_normalized (topic_page page ch).
Proof.
  intros Hf. unfold topic_page. destruct page as [d|]; [|constructor].
  cbv zeta.
  apply (seed_records_normalized "unsplash_topics" "" ch 10 _ Hf (or_introl eq_refl)).
  apply map_indexed_Forall. intros n el. apply extract_block_normalized, Hf.
Qed.

Lemma pytrends_seed_normalized (rows : list (option string)) (ch : Chance) :
  chance_fair ch -> Forall keyword_normalized (pytrends_seed rows ch).
Proof.
  intros Hf. unfold pytrends_seed. cbv zeta.
  apply Forall_forall. intros t Ht. apply in_scored_records in Ht.
  apply in_concat_map_indexed in Ht as (n & q & _ & Hkw). cbv zeta in Hkw.
  destruct (PyStr.is_empty _); [destruct Hkw|].
  exact (extracted_normalized _ _ _ _ (proj1 Hf n) Hkw).
Qed.

Lemma concat_map_indexed_Forall {A B : Type} (P : B -> Prop)
    (f : nat -> A -> list B) (l : list A) :
  (forall n x, In x l -> Forall P (f n x)) ->
  Forall P (List.concat (map_indexed f 0 l)).
Proof.
  intros H. apply Forall_forall. intros y Hy.
  apply in_concat_map_indexed in Hy as (n & x & Hx & Hy).
  specialize (H n x Hx). rewrite Forall_forall in H. auto.
Qed.

Lemma shuffled_take_Forall {A : Type} (P : A -> Prop) (shuffle : list A -> list A)
    (limit : nat) (l : list A) :
  (forall l, Permutation (shuffle l) l) ->
  Forall P l -> Forall P (firstn limit (shuffle l)).
Proof.
  intros Hp HP. apply Forall_forall. intros x Hx.
  apply (in_firstn_arranged _ _ _ _ Hp) in Hx.
  rewrite Forall_forall in HP. auto.
Qed.

(** X25. When the random orders only reorder, every keyword that any
    adapter returns is non-empty and already trimmed and lower-cased: it
    is its own dedup key in [collect]. *)
Theorem X25_adapter_keywords_are_normalized
    (chance : nat -> Chance) (shuffle : list TrendRecord -> list TrendRecord)
    (limit_terms : nat) :
  (forall l, Permutation (shuffle l) l) ->
  (forall i, chance_fair (chance i)) ->
  (forall key answers,
     Forall keyword_normalized
       (source_pexels_api key answers chance shuffle limit_terms))
  /\ (forall key answers net,
        Forall keyword_normalized
          (source_unsplash_api_or_topics key answers net chance shuffle limit_terms))
  /\ (forall lib_ok client_ok answers,
        Forall keyword_normalized
          (source_pytrends lib_ok client_ok answers chance shuffle limit_terms)).
Proof.
  intros Hp Hf. split; [|split].
  - intros key answers. unfold source_pexels_api.
    destruct (PyStr.is_empty key); [constructor|]. cbv zeta.
    apply shuffled_take_Forall; [exact Hp|].
    apply concat_map_indexed_Forall. intros n q Hq.
    now apply pexels_seed_normalized.
  - intros key answers net. unfold source_unsplash_api_or_topics.
    destruct (negb (PyStr.is_empty key)).
    + unfold _unsplash_api. cbv zeta.
      apply shuffled_take_Forall; [exact Hp|].
      apply concat_map_indexed_Forall. intros n q Hq.
      now apply unsplash_seed_normalized.
    + unfold _unsplash_topics_html. cbv zeta.
      apply shuffled_take_Forall; [exact Hp|].
      apply concat_map_indexed_Forall. intros n q Hq.
      now apply topic_page_normalized.
  - intros lib_ok client_ok answers. unfold source_pytrends.
    destruct (negb lib_ok); [constructor|].
    destruct (negb client_ok); [constructor|]. cbv zeta.
    apply shuffled_take_Forall; [exact Hp|].
    apply concat_map_indexed_Forall. intros n q Hq.
    now apply pytrends_seed_normalized.
Qed.

Lemma X25_adapter_keywords_are_normalized_witness :
  Forall keyword_normalized
    (source_pexels_api "KEY"
       (fun i => if Nat.eqb i 2 then Some [Some "Green Forest at dawn"; None] else None)
       (fun _ => mkChance (fun _ => @rev string) (@rev string) (fun _ => 1))
       (@rev TrendRecord) 30).
Proof.
  refine (proj1 (X25_adapter_keywords_are_normalized
                   (fun _ => mkChance (fun _ => @rev string) (@rev string) (fun _ => 1))
                   (@rev TrendRecord) 30 _ _) "KEY" _).
  - intros l. apply Permutation_sym, Permutation_rev.
  - intros i. split; intros; apply Permutation_sym, Permutation_rev.
Defined.
